(** * Code Quotient (cq): a shallow embedding of the analyzers and the runner

    The development follows the layout of the Python package:
    [cq/utils/ast_tools.py], [cq/analyzers/duplication.py],
    [cq/analyzers/complexity.py], [cq/analyzers/architecture.py],
    [cq/analyzers/lint.py], [cq/analyzers/typing.py] and [cq/runner.py].

    Conventions of the embedding.
    - Python [int] is [Z] (or [nat] for counters that only count up).
    - Python [float] is modelled by exact rationals [Q]; equalities between
      scores are stated up to [==]. Comparisons, signs and the bounds that
      the code sets with [min] and [max] carry over to binary64; sums,
      products and quotients are not rounded here, and no property is
      stated that needs them to be exact in the code.
    - A Python [str] is a [string]: the sequence of its UTF-8 bytes. The
      character classes ([isspace], [isdigit], the line boundaries of
      [splitlines], [upper], [lower]) are those of the ASCII range; a
      property that depends on them for other characters is stated for
      strings with [isascii].
    - A [dict] that is only looked up is a [gmap]; a [dict] that is iterated
      is the list of its items in insertion order.
    - Code that can raise returns a [pyresult].
    - Taken as given: the text of every file that was read, a parser that
      returns a tree of the syntax below or fails with [SyntaxError], the
      output of the tools as text, and the JSON of pylint as a list of
      records. What [run] reports is stated for the runs that return. *)

From Stdlib Require Import ZArith QArith Qminmax List Ascii String Lia Lqa Bool Sorting.Permutation.
From stdpp Require Import base option list gmap strings pretty.

#[local] Set Warnings "-register-all".

Local Open Scope Z_scope.

(** ** Python runtime: exceptions, numbers, list indexing *)

Inductive exn : Type :=
| ZeroDivisionError
| IndexError
| ValueError.

Inductive pyresult (A : Type) : Type :=
| Returns (a : A)
| Raises (e : exn).

Arguments Returns {A} a.
Arguments Raises {A} e.

Definition pybind {A B : Type} (m : pyresult A) (k : A -> pyresult B) : pyresult B :=
  match m with
  | Returns a => k a
  | Raises e => Raises e
  end.

Notation "'do' x <- m ; k" := (pybind m (fun x => k))
  (at level 10, x name, m at level 100, k at level 200).

Fixpoint py_mapM {A B : Type} (f : A -> pyresult B) (l : list A) : pyresult (list B) :=
  match l with
  | [] => Returns []
  | a :: l' => do b <- f a; do bs <- py_mapM f l'; Returns (b :: bs)
  end.

(** [int(x)] on a float truncates towards zero. *)
Definition py_int (x : Q) : Z := Z.quot (Qnum x) (Zpos (Qden x)).

(** [l[i]]: a negative index counts from the end, anything outside
    [-len, len) raises [IndexError]. *)
Definition py_index {A : Type} (l : list A) (i : Z) : pyresult A :=
  let n := Z.of_nat (length l) in
  let j := if i <? 0 then i + n else i in
  if (0 <=? j) && (j <? n) then
    match nth_error l (Z.to_nat j) with
    | Some a => Returns a
    | None => Raises IndexError
    end
  else Raises IndexError.

(** [x / y] on floats. *)
Definition py_div (x y : Q) : pyresult Q :=
  if Qeq_bool y 0 then Raises ZeroDivisionError else Returns (x / y)%Q.

(** [sum(xs)] and [statistics.mean(xs)] (the caller guards emptiness). *)
Definition Qsum (xs : list Q) : Q := fold_right Qplus 0%Q xs.

Definition mean (xs : list Q) : Q := (Qsum xs / inject_Z (Z.of_nat (length xs)))%Q.

(** ** [hashlib.md5] and [_stable_hash] (duplication.py)

    [_stable_hash(text) = int(md5(text.encode("utf-8")).hexdigest()[:8], 16)]:
    the first four bytes of the digest read as a big-endian number. *)

Module MD5.

Definition mask32 (x : Z) : Z := Z.land x 4294967295.

Definition add32 (x y : Z) : Z := mask32 (x + y).

Definition rotl32 (x : Z) (c : Z) : Z :=
  mask32 (Z.lor (Z.shiftl x c) (Z.shiftr x (32 - c))).

Definition not32 (x : Z) : Z := Z.lxor x 4294967295.

Definition shifts : list Z :=
  [7; 12; 17; 22; 7; 12; 17; 22; 7; 12; 17; 22; 7; 12; 17; 22;
   5; 9; 14; 20; 5; 9; 14; 20; 5; 9; 14; 20; 5; 9; 14; 20;
   4; 11; 16; 23; 4; 11; 16; 23; 4; 11; 16; 23; 4; 11; 16; 23;
   6; 10; 15; 21; 6; 10; 15; 21; 6; 10; 15; 21; 6; 10; 15; 21].

Definition sines : list Z :=
  [3614090360; 3905402710; 606105819; 3250441966;
   4118548399; 1200080426; 2821735955; 4249261313;
   1770035416; 2336552879; 4294925233; 2304563134;
   1804603682; 4254626195; 2792965006; 1236535329;
   4129170786; 3225465664; 643717713; 3921069994;
   3593408605; 38016083; 3634488961; 3889429448;
   568446438; 3275163606; 4107603335; 1163531501;
   2850285829; 4243563512; 1735328473; 2368359562;
   4294588738; 2272392833; 1839030562; 4259657740;
   2763975236; 1272893353; 4139469664; 3200236656;
   681279174; 3936430074; 3572445317; 76029189;
   3654602809; 3873151461; 530742520; 3299628645;
   4096336452; 1126891415; 2878612391; 4237533241;
   1700485571; 2399980690; 4293915773; 2240044497;
   1873313359; 4264355552; 2734768916; 1309151649;
   4149444226; 3174756917; 718787259; 3951481745].

Definition bytes_of_string (s : string) : list Z :=
  List.map (fun c => Z.of_N (N_of_ascii c)) (list_ascii_of_string s).

(** Little-endian bytes of a number, [n] of them. *)
Fixpoint le_bytes (n : nat) (x : Z) : list Z :=
  match n with
  | O => []
  | S n' => Z.land x 255 :: le_bytes n' (Z.shiftr x 8)
  end.

Definition pad (msg : list Z) : list Z :=
  let len := Z.of_nat (length msg) in
  let zeros := Z.to_nat ((55 - len) mod 64) in
  msg ++ [128] ++ repeat 0 zeros ++ le_bytes 8 (8 * len).

Fixpoint le_word (bs : list Z) : Z :=
  match bs with
  | [] => 0
  | b :: bs' => b + 256 * le_word bs'
  end.

Fixpoint words (n : nat) (bs : list Z) : list Z :=
  match n with
  | O => []
  | S n' => le_word (firstn 4 bs) :: words n' (skipn 4 bs)
  end.

Fixpoint blocks (n : nat) (bs : list Z) : list (list Z) :=
  match n with
  | O => []
  | S n' => words 16 (firstn 64 bs) :: blocks n' (skipn 64 bs)
  end.

Definition state : Type := (Z * Z * Z * Z)%type.

Definition step (m : list Z) (st : state) (i : Z) : state :=
  let '(a, b, c, d) := st in
  let '(f, g) :=
    if i <? 16 then (Z.lor (Z.land b c) (Z.land (not32 b) d), i)
    else if i <? 32 then (Z.lor (Z.land d b) (Z.land (not32 d) c), (5 * i + 1) mod 16)
    else if i <? 48 then (Z.lxor (Z.lxor b c) d, (3 * i + 5) mod 16)
    else (Z.lxor c (Z.lor b (not32 d)), (7 * i) mod 16) in
  let x := add32 (add32 (add32 a f) (nth (Z.to_nat i) sines 0)) (nth (Z.to_nat g) m 0) in
  (d, add32 b (rotl32 x (nth (Z.to_nat i) shifts 0)), b, c).

Definition compress (st : state) (m : list Z) : state :=
  let '(a, b, c, d) := st in
  let '(a', b', c', d') := fold_left (step m) (List.map Z.of_nat (seq 0 64)) st in
  (add32 a a', add32 b b', add32 c c', add32 d d').

Definition init : state := (1732584193, 4023233417, 2562383102, 271733878).

Definition digest_words (msg : list Z) : state :=
  let p := pad msg in
  fold_left compress (blocks (Nat.div (length p) 64) p) init.

(** The first eight hexadecimal digits of the digest, as a number. *)
Definition hexdigest8 (msg : list Z) : Z :=
  let '(a, _, _, _) := digest_words msg in
  fold_left (fun acc b => 256 * acc + b) (le_bytes 4 a) 0.

End MD5.

Definition _stable_hash (text : string) : Z := MD5.hexdigest8 (MD5.bytes_of_string text).

(** ** The syntax tree ([ast] of the Python standard library)

    One constructor per node class that the analyzers inspect, with the
    fields in the order of the class's [_fields]. *)

Inductive constant : Type :=
| CNone
| CBool (b : bool)
| CInt (n : Z)
| CStr (s : string).

Inductive expr_context : Type := Load | Store | Del.

Inductive boolop : Type := And | Or.

Inductive operator : Type := Add | Sub | Mult | Div | Mod.

Inductive unaryop : Type := Not | USub.

Inductive cmpop : Type := Eq | NotEq | Lt | LtE | Gt | GtE.

Inductive expr : Type :=
| BoolOp (op : boolop) (values : list expr)
| BinOp (left : expr) (op : operator) (right : expr)
| UnaryOp (op : unaryop) (operand : expr)
| Compare (left : expr) (ops : list cmpop) (comparators : list expr)
| Call (func : expr) (args : list expr) (keywords : list (option string * expr))
| Constant (value : constant)
| Attribute (value : expr) (attr : string) (ctx : expr_context)
| Name (id : string) (ctx : expr_context).

(** [ast.arg], [ast.arguments], [ast.alias] and [ast.withitem]. *)
Record arg : Type := Arg { arg_name : string; annotation : option expr }.

Record arguments : Type := Arguments {
  args_args : list arg;
  args_vararg : option arg;
  args_kwonlyargs : list arg;
  args_kwarg : option arg;
  args_defaults : list expr
}.

Record alias : Type := Alias { alias_name : string; asname : option string }.

Record withitem : Type := WithItem { context_expr : expr; optional_vars : option expr }.

Inductive stmt : Type :=
| FunctionDef (name : string) (args : arguments) (body : list stmt)
              (decorator_list : list expr) (returns : option expr)
| ClassDef (name : string) (bases : list expr) (body : list stmt)
           (decorator_list : list expr)
| Return (value : option expr)
| Assign (targets : list expr) (value : expr)
| For (target iter : expr) (body orelse : list stmt)
| While (test : expr) (body orelse : list stmt)
| If (test : expr) (body orelse : list stmt)
| With (items : list withitem) (body : list stmt)
| Try (body : list stmt) (handlers : list excepthandler) (orelse finalbody : list stmt)
| Import (names : list alias)
| ImportFrom (module : option string) (names : list alias) (level : Z)
| Global (names : list string)
| Expr (value : expr)
| Pass
with excepthandler : Type :=
| ExceptHandler (type : option expr) (name : option string) (body : list stmt).

(** [ast.Module]. *)
Record module_ : Type := Module { mod_body : list stmt }.

Definition isinstance_If (s : stmt) : bool :=
  match s with If _ _ _ => true | _ => false end.

(** ** [cq/utils/ast_tools.py] *)

(** *** [NormalizingTransformer]

    [visit] dispatches on the node class; classes without a [visit_X]
    method go through [generic_visit], which rebuilds every child field.
    [visit_arg] overwrites the name and returns without visiting the
    annotation; the [arg] of a keyword, the names of an [alias], of a
    [Global] and of an [ExceptHandler] are plain strings that no method
    touches. *)

Section NormalizingTransformer.

Variable identifier_placeholder : string.

Fixpoint visit_expr (e : expr) : expr :=
  match e with
  | BoolOp op values => BoolOp op (List.map visit_expr values)
  | BinOp l op r => BinOp (visit_expr l) op (visit_expr r)
  | UnaryOp op operand => UnaryOp op (visit_expr operand)
  | Compare l ops comparators => Compare (visit_expr l) ops (List.map visit_expr comparators)
  | Call func args keywords =>
      Call (visit_expr func) (List.map visit_expr args)
           (List.map (fun kw => (fst kw, visit_expr (snd kw))) keywords)
  | Constant _ => Constant (CStr "CONST")
  | Attribute value _ ctx => Attribute (visit_expr value) identifier_placeholder ctx
  | Name _ ctx => Name identifier_placeholder ctx
  end.

Definition visit_arg (a : arg) : arg :=
  Arg identifier_placeholder (annotation a).

Definition visit_arguments (a : arguments) : arguments :=
  Arguments (List.map visit_arg (args_args a))
            (option_map visit_arg (args_vararg a))
            (List.map visit_arg (args_kwonlyargs a))
            (option_map visit_arg (args_kwarg a))
            (List.map visit_expr (args_defaults a)).

Definition visit_withitem (w : withitem) : withitem :=
  WithItem (visit_expr (context_expr w)) (option_map visit_expr (optional_vars w)).

Fixpoint visit_stmt (s : stmt) : stmt :=
  match s with
  | FunctionDef _ args body decorator_list returns =>
      FunctionDef identifier_placeholder (visit_arguments args) (List.map visit_stmt body)
                  (List.map visit_expr decorator_list) (option_map visit_expr returns)
  | ClassDef _ bases body decorator_list =>
      ClassDef identifier_placeholder (List.map visit_expr bases) (List.map visit_stmt body)
               (List.map visit_expr decorator_list)
  | Return value => Return (option_map visit_expr value)
  | Assign targets value => Assign (List.map visit_expr targets) (visit_expr value)
  | For target iter body orelse =>
      For (visit_expr target) (visit_expr iter) (List.map visit_stmt body) (List.map visit_stmt orelse)
  | While test body orelse =>
      While (visit_expr test) (List.map visit_stmt body) (List.map visit_stmt orelse)
  | If test body orelse =>
      If (visit_expr test) (List.map visit_stmt body) (List.map visit_stmt orelse)
  | With items body => With (List.map visit_withitem items) (List.map visit_stmt body)
  | Try body handlers orelse finalbody =>
      Try (List.map visit_stmt body) (List.map visit_handler handlers)
          (List.map visit_stmt orelse) (List.map visit_stmt finalbody)
  | Import names => Import names
  | ImportFrom module names level => ImportFrom module names level
  | Global names => Global names
  | Expr value => Expr (visit_expr value)
  | Pass => Pass
  end
with visit_handler (h : excepthandler) : excepthandler :=
  match h with
  | ExceptHandler type name body =>
      ExceptHandler (option_map visit_expr type) name (List.map visit_stmt body)
  end.

Definition visit_module (m : module_) : module_ := Module (List.map visit_stmt (mod_body m)).

End NormalizingTransformer.

(** *** [ast.walk] restricted to statements

    [ast.walk] is breadth first: all nodes of depth [d] come before those of
    depth [d + 1], each level from left to right. Statements only occur in
    the statement lists of other statements and of exception handlers (a
    handler is a node of its own, so its body is two levels below the
    [Try]). [level d s] lists the statements [d] levels below [s]. *)

Fixpoint level (d : nat) (s : stmt) {struct s} : list stmt :=
  match d with
  | O => [s]
  | S d' =>
      match s with
      | FunctionDef _ _ body _ _ => flat_map (level d') body
      | ClassDef _ _ body _ => flat_map (level d') body
      | For _ _ body orelse => flat_map (level d') body ++ flat_map (level d') orelse
      | While _ body orelse => flat_map (level d') body ++ flat_map (level d') orelse
      | If _ body orelse => flat_map (level d') body ++ flat_map (level d') orelse
      | With _ body => flat_map (level d') body
      | Try body handlers orelse finalbody =>
          flat_map (level d') body ++ flat_map (level_handler d') handlers
          ++ flat_map (level d') orelse ++ flat_map (level d') finalbody
      | _ => []
      end
  end
with level_handler (d : nat) (h : excepthandler) {struct h} : list stmt :=
  match d with
  | O => []
  | S d' => match h with ExceptHandler _ _ body => flat_map (level d') body end
  end.

Definition list_max (l : list nat) : nat := fold_right Nat.max O l.

Fixpoint height (s : stmt) : nat :=
  match s with
  | FunctionDef _ _ body _ _ => S (list_max (List.map height body))
  | ClassDef _ _ body _ => S (list_max (List.map height body))
  | For _ _ body orelse => S (Nat.max (list_max (List.map height body)) (list_max (List.map height orelse)))
  | While _ body orelse => S (Nat.max (list_max (List.map height body)) (list_max (List.map height orelse)))
  | If _ body orelse => S (Nat.max (list_max (List.map height body)) (list_max (List.map height orelse)))
  | With _ body => S (list_max (List.map height body))
  | Try body handlers orelse finalbody =>
      S (Nat.max (Nat.max (list_max (List.map height body)) (list_max (List.map height_handler handlers)))
                 (Nat.max (list_max (List.map height orelse)) (list_max (List.map height finalbody))))
  | _ => 1%nat
  end
with height_handler (h : excepthandler) : nat :=
  match h with ExceptHandler _ _ body => S (list_max (List.map height body)) end.

Definition walk_stmts (m : module_) : list stmt :=
  flat_map (fun d => flat_map (level d) (mod_body m))
           (seq 0 (list_max (List.map height (mod_body m)))).

(** *** [iter_imports] *)

(** [s.split(".")[0]] *)
Fixpoint first_segment (s : string) : string :=
  match s with
  | EmptyString => EmptyString
  | String c s' => if Ascii.eqb c "." then EmptyString else String c (first_segment s')
  end.

Definition imports_of_stmt (s : stmt) : list (string * string) :=
  match s with
  | Import names => List.map (fun a => (alias_name a, first_segment (alias_name a))) names
  | ImportFrom module _ _ =>
      let module := match module with Some m => m | None => EmptyString end in
      [(module, if String.eqb module "" then EmptyString else first_segment module)]
  | _ => []
  end.

Definition iter_imports (tree : module_) : list (string * string) :=
  flat_map imports_of_stmt (walk_stmts tree).

(** *** [count_annotation_coverage]

    The two counters are sums over all function definitions, so the order
    of [ast.walk] is immaterial; the recursion follows the tree. *)

Definition is_not_None {A : Type} (o : option A) : bool :=
  match o with Some _ => true | None => false end.

Definition annotated_arg (a : arg) : nat := if is_not_None (annotation a) then 1%nat else 0%nat.

Definition annotated_opt_arg (a : option arg) : nat :=
  match a with Some a => annotated_arg a | None => 0%nat end.

Definition counts_of_def (args : arguments) (returns : option expr) : nat * nat :=
  let pos := args_args args ++ args_kwonlyargs args in
  ((if is_not_None returns then 1 else 0) + list_sum (List.map annotated_arg pos)
   + annotated_opt_arg (args_vararg args) + annotated_opt_arg (args_kwarg args),
   1 + length pos + (if is_not_None (args_vararg args) then 1 else 0)
   + (if is_not_None (args_kwarg args) then 1 else 0))%nat.

Definition pair_add (p q : nat * nat) : nat * nat := (fst p + fst q, snd p + snd q)%nat.

Definition pair_sum (l : list (nat * nat)) : nat * nat := fold_right pair_add (O, O) l.

Fixpoint coverage_stmt (s : stmt) : nat * nat :=
  match s with
  | FunctionDef _ args body _ returns =>
      pair_add (counts_of_def args returns) (pair_sum (List.map coverage_stmt body))
  | ClassDef _ _ body _ => pair_sum (List.map coverage_stmt body)
  | For _ _ body orelse => pair_add (pair_sum (List.map coverage_stmt body)) (pair_sum (List.map coverage_stmt orelse))
  | While _ body orelse => pair_add (pair_sum (List.map coverage_stmt body)) (pair_sum (List.map coverage_stmt orelse))
  | If _ body orelse => pair_add (pair_sum (List.map coverage_stmt body)) (pair_sum (List.map coverage_stmt orelse))
  | With _ body => pair_sum (List.map coverage_stmt body)
  | Try body handlers orelse finalbody =>
      pair_add (pair_add (pair_sum (List.map coverage_stmt body)) (pair_sum (List.map coverage_handler handlers)))
               (pair_add (pair_sum (List.map coverage_stmt orelse)) (pair_sum (List.map coverage_stmt finalbody)))
  | _ => (O, O)
  end
with coverage_handler (h : excepthandler) : nat * nat :=
  match h with ExceptHandler _ _ body => pair_sum (List.map coverage_stmt body) end.

Definition count_annotation_coverage (tree : module_) : nat * nat :=
  pair_sum (List.map coverage_stmt (mod_body tree)).

(** ** Python strings and dictionaries *)

(** The line feed, as a string. *)
Definition LF : string := String "010"%char EmptyString.

(** [str.isspace] on one character of the ASCII range. *)
Definition isspace (c : ascii) : bool :=
  let n := nat_of_ascii c in
  ((9 <=? n) && (n <=? 13) || (28 <=? n) && (n <=? 32))%nat.

(** [s.isascii()] *)
Definition isascii (s : string) : bool :=
  forallb (fun c => (nat_of_ascii c <? 128)%nat) (list_ascii_of_string s).

(** The line boundaries of [str.splitlines] in the ASCII range, apart from
    the carriage return, which may be followed by a line feed. *)
Definition is_linebreak (c : ascii) : bool :=
  let n := nat_of_ascii c in
  ((n =? 10) || (n =? 11) || (n =? 12) || (n =? 28) || (n =? 29) || (n =? 30))%nat.

Definition string_of_rev (cur : list ascii) : string :=
  string_of_list_ascii (rev cur).

Fixpoint splitlines_from (s : string) (cur : list ascii) : list string :=
  match s with
  | EmptyString => match cur with [] => [] | _ => [string_of_rev cur] end
  | String c s' =>
      if Ascii.eqb c "013" then
        string_of_rev cur ::
          match s' with
          | String c' s'' => if Ascii.eqb c' "010" then splitlines_from s'' [] else splitlines_from s' []
          | EmptyString => []
          end
      else if is_linebreak c then string_of_rev cur :: splitlines_from s' []
      else splitlines_from s' (c :: cur)
  end.

Definition splitlines (s : string) : list string := splitlines_from s [].

(** [s.split()] *)
Fixpoint split_from (s : string) (cur : list ascii) : list string :=
  match s with
  | EmptyString => match cur with [] => [] | _ => [string_of_rev cur] end
  | String c s' =>
      if isspace c then
        match cur with
        | [] => split_from s' []
        | _ => string_of_rev cur :: split_from s' []
        end
      else split_from s' (c :: cur)
  end.

Definition split (s : string) : list string := split_from s [].

(** [sep.join(parts)] *)
Fixpoint join (sep : string) (parts : list string) : string :=
  match parts with
  | [] => EmptyString
  | [p] => p
  | p :: ps => p ++ sep ++ join sep ps
  end.

(** [s.lstrip()] and [s.startswith(p)] *)
Fixpoint lstrip (s : string) : string :=
  match s with
  | EmptyString => EmptyString
  | String c s' => if isspace c then lstrip s' else s
  end.

Definition startswith (s p : string) : bool := String.prefix p s.

(** [s[:s.index(c)]] when [c] occurs in [s], else [s]. *)
Fixpoint before (c : ascii) (s : string) : string :=
  match s with
  | EmptyString => EmptyString
  | String c' s' => if Ascii.eqb c' c then EmptyString else String c' (before c s')
  end.

(** [s.replace(a, b)] for single characters. *)
Fixpoint replace_char (a b : ascii) (s : string) : string :=
  match s with
  | EmptyString => EmptyString
  | String c s' => String (if Ascii.eqb c a then b else c) (replace_char a b s')
  end.

(** A dictionary that is iterated: its items in insertion order.
    [d[k] = v] overwrites in place or appends. *)
Fixpoint dict_set {V : Type} (d : list (string * V)) (k : string) (v : V) : list (string * V) :=
  match d with
  | [] => [(k, v)]
  | (k', v') :: d' => if String.eqb k' k then (k, v) :: d' else (k', v') :: dict_set d' k v
  end.

Fixpoint dict_get {V : Type} (d : list (string * V)) (k : string) : option V :=
  match d with
  | [] => None
  | (k', v') :: d' => if String.eqb k' k then Some v' else dict_get d' k
  end.

Definition dict_keys {V : Type} (d : list (string * V)) : list string := List.map fst d.

(** [m.get(k, dflt)] on a looked-up dictionary. *)
Definition get_or {V : Type} (m : gmap string V) (k : string) (dflt : V) : V :=
  match m !! k with Some v => v | None => dflt end.

(** ** [ast.unparse]

    The writer of the standard library, for the node classes above. A
    statement is written by [fill]: a line break unless nothing has been
    written yet, then the indentation. Expressions carry the precedence
    their parent has set for them ([TEST] when none was set) and are put in
    parentheses when it exceeds their own. *)

Module Unparse.

Definition TUPLE : nat := 2.
Definition YIELD : nat := 3.
Definition TEST : nat := 4.
Definition OR : nat := 5.
Definition AND : nat := 6.
Definition NOT : nat := 7.
Definition CMP : nat := 8.
Definition ARITH : nat := 13.
Definition TERM : nat := 14.
Definition FACTOR : nat := 15.
Definition ATOM : nat := 18.

Definition next (p : nat) : nat := if (p <? ATOM)%nat then S p else p.

Definition require_parens (precedence node_precedence : nat) (text : string) : string :=
  if (precedence <? node_precedence)%nat then "(" +:+ text +:+ ")" else text.

Definition boolop_text (op : boolop) : string :=
  match op with And => "and" | Or => "or" end.

Definition boolop_precedence (op : boolop) : nat :=
  match op with And => AND | Or => OR end.

Definition binop_text (op : operator) : string :=
  match op with Add => "+" | Sub => "-" | Mult => "*" | Div => "/" | Mod => "%" end.

Definition binop_precedence (op : operator) : nat :=
  match op with Add | Sub => ARITH | Mult | Div | Mod => TERM end.

Definition unop_text (op : unaryop) : string :=
  match op with Not => "not" | USub => "-" end.

Definition unop_precedence (op : unaryop) : nat :=
  match op with Not => NOT | USub => FACTOR end.

Definition cmpop_text (op : cmpop) : string :=
  match op with
  | Eq => "==" | NotEq => "!=" | Lt => "<" | LtE => "<=" | Gt => ">" | GtE => ">="
  end.

(** [x in s] for strings. *)
Fixpoint contains (s sub : string) : bool :=
  String.prefix sub s ||
  match s with
  | EmptyString => false
  | String _ s' => contains s' sub
  end.

Definition hex_digit (n : nat) : ascii :=
  ascii_of_nat (if (n <? 10)%nat then 48 + n else 87 + n).

Definition isprintable (c : ascii) : bool :=
  let n := nat_of_ascii c in ((32 <=? n) && negb (n =? 127))%nat.

(** One character of [repr] of a string delimited by [quote]. *)
Definition repr_char (quote c : ascii) : string :=
  if Ascii.eqb c "\" then "\\"
  else if Ascii.eqb c quote then String "\" (String c EmptyString)
  else if Ascii.eqb c "010" then "\n"
  else if Ascii.eqb c "013" then "\r"
  else if Ascii.eqb c "009" then "\t"
  else if isprintable c then String c EmptyString
  else String "\" (String "x" (String (hex_digit (nat_of_ascii c / 16))
                      (String (hex_digit (nat_of_ascii c mod 16)) EmptyString))).

Definition repr_body (quote : ascii) (s : string) : string :=
  String.concat EmptyString (List.map (repr_char quote) (list_ascii_of_string s)).

Definition repr_quote (s : string) : ascii :=
  if contains s "'" && negb (contains s (String "034" EmptyString)) then "034"%char else "'"%char.

Definition repr_str (s : string) : string :=
  let q := repr_quote s in String q (repr_body q s) +:+ String q EmptyString.

Definition repr_constant (c : constant) : string :=
  match c with
  | CNone => "None"
  | CBool true => "True"
  | CBool false => "False"
  | CInt n => pretty n
  | CStr s => repr_str s
  end.

(** [_str_literal_helper] with the triple quotes of a docstring. *)
Definition escape_char (c : ascii) : string :=
  if Ascii.eqb c "010" || Ascii.eqb c "009" then String c EmptyString
  else if Ascii.eqb c "\" then "\\"
  else if isprintable c then String c EmptyString
  else if Ascii.eqb c "013" then "\r"
  else String "\" (String "x" (String (hex_digit (nat_of_ascii c / 16))
                      (String (hex_digit (nat_of_ascii c mod 16)) EmptyString))).

Definition last_char (s : string) : option ascii := last (list_ascii_of_string s).

Definition triple (q : ascii) : string := String q (String q (String q EmptyString)).

Definition docstring_literal (s : string) : string :=
  let escaped := String.concat EmptyString (List.map escape_char (list_ascii_of_string s)) in
  let possible := List.filter (fun q => negb (contains escaped (triple q))) ["034"%char; "'"%char] in
  match possible with
  | [] =>
      let q := repr_quote s in triple q +:+ repr_body q s +:+ triple q
  | q0 :: rest =>
      let ends_with q := match last_char escaped with Some c => Ascii.eqb c q | None => false end in
      let q := match rest with
               | q1 :: _ => if ends_with q0 && negb (ends_with q1) then q1 else q0
               | [] => q0
               end in
      let escaped :=
        if ends_with q then
          string_of_list_ascii (removelast (list_ascii_of_string escaped)) +:+ String "\" (String q EmptyString)
        else escaped in
      triple q +:+ escaped +:+ triple q
  end.

Definition is_int_constant (e : expr) : bool :=
  match e with
  | Constant (CInt _) | Constant (CBool _) => true
  | _ => false
  end.

Fixpoint unparse_expr (precedence : nat) (e : expr) : string :=
  match e with
  | BoolOp op values =>
      let p := boolop_precedence op in
      require_parens p precedence
        (join (" " +:+ boolop_text op +:+ " ")
           ((fix each (vs : list expr) (p : nat) : list string :=
               match vs with
               | [] => []
               | v :: vs' => unparse_expr (next p) v :: each vs' (next p)
               end) values p))
  | BinOp l op r =>
      let p := binop_precedence op in
      require_parens p precedence
        (unparse_expr p l +:+ " " +:+ binop_text op +:+ " " +:+ unparse_expr (next p) r)
  | UnaryOp op operand =>
      let p := unop_precedence op in
      require_parens p precedence
        (unop_text op +:+ (if (p =? FACTOR)%nat then "" else " ") +:+ unparse_expr p operand)
  | Compare l ops comparators =>
      require_parens CMP precedence
        (unparse_expr (next CMP) l +:+
         String.concat EmptyString
           (List.map (fun oc => " " +:+ cmpop_text (fst oc) +:+ " " +:+ snd oc)
              (combine ops (List.map (unparse_expr (next CMP)) comparators))))
  | Call func args keywords =>
      unparse_expr ATOM func +:+ "(" +:+
      join ", "
        (List.map (unparse_expr TEST) args ++
         List.map (fun kw =>
                     match fst kw with
                     | None => "**"
                     | Some a => a +:+ "="
                     end +:+ unparse_expr TEST (snd kw)) keywords)
      +:+ ")"
  | Constant value => repr_constant value
  | Attribute value attr _ =>
      unparse_expr ATOM value +:+ (if is_int_constant value then " " else "") +:+ "." +:+ attr
  | Name id _ => id
  end.

Definition unparse_opt (prefix : string) (o : option expr) : string :=
  match o with
  | Some e => prefix +:+ unparse_expr TEST e
  | None => EmptyString
  end.

Definition unparse_arg (a : arg) : string :=
  arg_name a +:+ unparse_opt ": " (annotation a).

Definition unparse_arguments (a : arguments) : string :=
  let defaults :=
    repeat None (length (args_args a) - length (args_defaults a))
    ++ List.map Some (args_defaults a) in
  let normal :=
    List.map (fun ad => unparse_arg (fst ad) +:+ unparse_opt "=" (snd ad))
             (combine (args_args a) defaults) in
  let star :=
    match args_vararg a, args_kwonlyargs a with
    | None, [] => []
    | v, _ => ["*" +:+ match v with Some v => unparse_arg v | None => EmptyString end]
    end in
  let kwonly := List.map unparse_arg (args_kwonlyargs a) in
  let kwarg := match args_kwarg a with Some k => ["**" +:+ unparse_arg k] | None => [] end in
  join ", " (normal ++ star ++ kwonly ++ kwarg).

Definition unparse_alias (a : alias) : string :=
  alias_name a +:+ match asname a with Some n => " as " +:+ n | None => EmptyString end.

Definition unparse_withitem (w : withitem) : string :=
  unparse_expr TEST (context_expr w) +:+ unparse_opt " as " (optional_vars w).

Definition indentation (indent : nat) : string :=
  String.concat EmptyString (repeat "    " indent).

Definition maybe_newline (src : string) : string :=
  match src with EmptyString => src | _ => src +:+ LF end.

Definition fill (indent : nat) (text : string) (src : string) : string :=
  maybe_newline src +:+ indentation indent +:+ text.

Definition write_decorators (indent : nat) (decorator_list : list expr) (src : string) : string :=
  fold_left (fun src deco => fill indent "@" src +:+ unparse_expr TEST deco) decorator_list src.

Fixpoint unparse_stmt (elif : bool) (indent : nat) (s : stmt) (src : string) {struct s} : string :=
  let traverse ind body src := fold_left (fun src s' => unparse_stmt false ind s' src) body src in
  let block_body ind body src :=
    match body with
    | Expr (Constant (CStr d)) :: rest =>
        traverse ind rest (fill ind "" src +:+ docstring_literal d)
    | _ => traverse ind body src
    end in
  let else_block orelse src :=
    match orelse with
    | [] => src
    | _ => traverse (S indent) orelse (fill indent "else" src +:+ ":")
    end in
  match s with
  | FunctionDef name args body decorator_list returns =>
      let src := write_decorators indent decorator_list (maybe_newline src) in
      let src := fill indent ("def " +:+ name) src +:+ "(" +:+ unparse_arguments args +:+ ")"
                 +:+ unparse_opt " -> " returns +:+ ":" in
      block_body (S indent) body src
  | ClassDef name bases body decorator_list =>
      let src := write_decorators indent decorator_list (maybe_newline src) in
      let src := fill indent ("class " +:+ name) src
                 +:+ match bases with
                     | [] => EmptyString
                     | _ => "(" +:+ join ", " (List.map (unparse_expr TEST) bases) +:+ ")"
                     end +:+ ":" in
      block_body (S indent) body src
  | Return value => fill indent "return" src +:+ unparse_opt " " value
  | Assign targets value =>
      fill indent "" src
      +:+ String.concat EmptyString (List.map (fun t => unparse_expr TUPLE t +:+ " = ") targets)
      +:+ unparse_expr TEST value
  | For target iter body orelse =>
      let src := fill indent "for " src +:+ unparse_expr TUPLE target +:+ " in "
                 +:+ unparse_expr TEST iter +:+ ":" in
      else_block orelse (traverse (S indent) body src)
  | While test body orelse =>
      let src := fill indent "while " src +:+ unparse_expr TEST test +:+ ":" in
      else_block orelse (traverse (S indent) body src)
  | If test body orelse =>
      let src := fill indent (if elif then "elif " else "if ") src
                 +:+ unparse_expr TEST test +:+ ":" in
      let src := traverse (S indent) body src in
      match orelse with
      | [If _ _ _ as nested] => unparse_stmt true indent nested src
      | _ => else_block orelse src
      end
  | With items body =>
      let src := fill indent "with " src
                 +:+ join ", " (List.map unparse_withitem items) +:+ ":" in
      traverse (S indent) body src
  | Try body handlers orelse finalbody =>
      let src := traverse (S indent) body (fill indent "try" src +:+ ":") in
      let src := fold_left (fun src h => unparse_handler indent h src) handlers src in
      let src := else_block orelse src in
      match finalbody with
      | [] => src
      | _ => traverse (S indent) finalbody (fill indent "finally" src +:+ ":")
      end
  | Import names =>
      fill indent "import " src +:+ join ", " (List.map unparse_alias names)
  | ImportFrom module names level =>
      fill indent "from " src
      +:+ String.concat EmptyString (repeat "." (Z.to_nat level))
      +:+ match module with Some m => m | None => EmptyString end
      +:+ " import " +:+ join ", " (List.map unparse_alias names)
  | Global names => fill indent "global " src +:+ join ", " names
  | Expr value => fill indent "" src +:+ unparse_expr YIELD value
  | Pass => fill indent "pass" src
  end
with unparse_handler (indent : nat) (h : excepthandler) (src : string) {struct h} : string :=
  match h with
  | ExceptHandler type name body =>
      let src := fill indent "except" src +:+ unparse_opt " " type
                 +:+ match name with Some n => " as " +:+ n | None => EmptyString end +:+ ":" in
      fold_left (fun src s' => unparse_stmt false (S indent) s' src) body src
  end.

Definition unparse (tree : module_) : string :=
  match mod_body tree with
  | Expr (Constant (CStr d)) :: rest =>
      fold_left (fun src s => unparse_stmt false 0 s src) rest
                (fill 0 "" EmptyString +:+ docstring_literal d)
  | body => fold_left (fun src s => unparse_stmt false 0 s src) body EmptyString
  end.

End Unparse.

(** ** [cq/analyzers/duplication.py] *)

Record NormalizeConfig : Type := {
  strip_literals : bool;
  strip_comments : bool;
  identifier_placeholder : string
}.

Record DuplicationConfig : Type := {
  dup_k : Z;
  dup_w : Z;
  normalize : NormalizeConfig
}.

Record DuplicationResult : Type := {
  dup_fingerprints : list (string * list Z);
  dup_ratios : gmap string Q;
  dup_parser_success : gmap string bool
}.

Definition _strip_comments (text : string) : string :=
  join LF
    (flat_map (fun line =>
                 if startswith (lstrip line) "#" then [] else [before "#" line])
              (splitlines text)).

(** [min(window, key=lambda x: (x[0], x[1]))]: the first element that no
    later one is strictly below. *)
Definition pair_ltb (a b : Z * Z) : bool :=
  (fst a <? fst b) || ((fst a =? fst b) && (snd a <? snd b)).

Fixpoint min_from (best : Z * Z) (l : list (Z * Z)) : Z * Z :=
  match l with
  | [] => best
  | x :: l' => min_from (if pair_ltb x best then x else best) l'
  end.

(** The window is never empty where [min] is called: an element has just
    been appended. *)
Definition window_min (window : list (Z * Z)) : Z * Z :=
  match window with
  | [] => (0, 0)
  | x :: l => min_from x l
  end.

Record winnow_state : Type := {
  ws_window : list (Z * Z);
  ws_min : option (Z * Z);
  ws_hashes : list Z
}.

Section Fingerprints.

(** The hash of a k-gram; the analyzer uses [_stable_hash]. *)
Variable hash : string -> Z.

Definition winnow_step (tokens : list string) (k w : nat) (st : winnow_state) (i : nat)
  : winnow_state :=
  let kgram := firstn k (skipn i tokens) in
  let hash_val := hash (join " " kgram) in
  let window := ws_window st ++ [(hash_val, Z.of_nat i)] in
  let window := if (w <? length window)%nat then tl window else window in
  let current_min := window_min window in
  if decide (ws_min st = Some current_min)
  then {| ws_window := window; ws_min := ws_min st; ws_hashes := ws_hashes st |}
  else {| ws_window := window; ws_min := Some current_min;
          ws_hashes := ws_hashes st ++ [fst current_min] |}.

Definition fingerprints_with (k w : nat) (tokens : list string) : list Z :=
  if (length tokens <? k)%nat then
    match tokens with
    | [] => []
    | _ => [hash (join " " tokens)]
    end
  else
    ws_hashes
      (fold_left (winnow_step tokens k w) (seq 0 (length tokens - k + 1))
                 {| ws_window := []; ws_min := None; ws_hashes := [] |}).

End Fingerprints.

Definition _fingerprints (config : DuplicationConfig) (tokens : list string) : list Z :=
  let k := Z.to_nat (Z.max 1 (dup_k config)) in
  let w := Z.to_nat (Z.max 1 (dup_w config)) in
  fingerprints_with _stable_hash k w tokens.

(** [len(set_self.intersection(other_fprints))] *)
Definition intersection_size (set_self : gset Z) (other_fprints : list Z) : nat :=
  size (set_self ∩ list_to_set other_fprints).

Definition overlaps_of (items : list (string * list Z)) (path : string) (fprints : list Z) : nat :=
  let set_self : gset Z := list_to_set fprints in
  fold_left (fun overlaps other =>
               if String.eqb (fst other) path then overlaps
               else (overlaps + intersection_size set_self (snd other))%nat)
            items O.

Definition ratio_of (items : list (string * list Z)) (path : string) (fprints : list Z) : Q :=
  match fprints with
  | [] => 0%Q
  | _ =>
      let set_self : gset Z := list_to_set fprints in
      Qmin 1 (inject_Z (Z.of_nat (overlaps_of items path fprints))
              / inject_Z (Z.max 1 (Z.of_nat (size set_self))))
  end.

Definition _compute_ratios (fingerprints : list (string * list Z)) : gmap string Q :=
  fold_left (fun ratio item => <[fst item := ratio_of fingerprints (fst item) (snd item)]> ratio)
            fingerprints ∅.

Section DuplicationAnalyzer.

(** [ast.parse], the parser of the Python runtime: [None] stands for a
    [SyntaxError]. A text for which it raises anything else (a NUL byte
    under Python 3.11, nesting beyond the recursion limit) is outside the
    embedding. *)
Variable ast_parse : string -> option module_.

(** [safe_parse] (ast_tools.py) *)
Definition safe_parse (source : string) : option module_ * bool :=
  match ast_parse source with
  | Some tree => (Some tree, true)
  | None => (None, false)
  end.

Variable config : DuplicationConfig.

Definition _normalize (text : string) : list string * bool :=
  let '(tree, success) := safe_parse text in
  let normalized :=
    match tree with
    | Some tree =>
        if success && strip_literals (normalize config) then
          Unparse.unparse (visit_module (identifier_placeholder (normalize config)) tree)
        else text
    | None => text
    end in
  let normalized :=
    if strip_comments (normalize config) then _strip_comments normalized else normalized in
  (split normalized, success).

Definition DuplicationAnalyzer_analyze (sources : list (string * string)) : DuplicationResult :=
  let normalized :=
    fold_left (fun d item => dict_set d (fst item) (_normalize (snd item))) sources [] in
  let parser_success : gmap string bool :=
    fold_left (fun m item => <[fst item := snd (snd item)]> m) normalized ∅ in
  let fingerprints :=
    List.map (fun item => (fst item, _fingerprints config (fst (snd item)))) normalized in
  {| dup_fingerprints := fingerprints;
     dup_ratios := _compute_ratios fingerprints;
     dup_parser_success := parser_success |}.

End DuplicationAnalyzer.

(** ** [cq/analyzers/complexity.py] *)

Record ComplexityScale : Type := {
  target_per_loc : Q;
  hard_cap : Z
}.

Record ComplexityResult : Type := {
  cx_scores : gmap string Q;
  cx_raw : gmap string Z;
  cx_per_loc : gmap string Q
}.

(** The two variables that [enter], [leave] and the visitor share. *)
Record cstate : Type := { complexity : Z; stack : list Z }.

Definition bump (n : Z) (st : cstate) : cstate :=
  {| complexity := complexity st + n; stack := stack st |}.

Definition enter (st : cstate) : cstate :=
  {| complexity := complexity st + (1 + Z.of_nat (length (stack st)));
     stack := stack st ++ [1] |}.

Definition leave (st : cstate) : cstate :=
  {| complexity := complexity st; stack := removelast (stack st) |}.

Definition visit_all {A : Type} (visit : A -> cstate -> cstate) (l : list A) (st : cstate)
  : cstate :=
  fold_left (fun st a => visit a st) l st.

Definition visit_option {A : Type} (visit : A -> cstate -> cstate) (o : option A) (st : cstate)
  : cstate :=
  match o with Some a => visit a st | None => st end.

Module Visitor.

(** [visit] and [generic_visit] on expressions: only [visit_BoolOp] adds
    to the count; every other class goes through [generic_visit]. *)
Fixpoint visit_expr (e : expr) (st : cstate) {struct e} : cstate :=
  match e with
  | BoolOp _ values =>
      let st := bump (Z.max 0 (Z.of_nat (length values) - 1)) st in
      fold_left (fun st v => visit_expr v st) values st
  | BinOp l _ r => visit_expr r (visit_expr l st)
  | UnaryOp _ operand => visit_expr operand st
  | Compare l _ comparators =>
      fold_left (fun st v => visit_expr v st) comparators (visit_expr l st)
  | Call func args keywords =>
      let st := fold_left (fun st v => visit_expr v st) args (visit_expr func st) in
      fold_left (fun st kw => visit_expr (snd kw) st) keywords st
  | Constant _ => st
  | Attribute value _ _ => visit_expr value st
  | Name _ _ => st
  end.

(** [generic_visit(e)]: the children of [e], not [e] itself. *)
Definition generic_visit_expr (e : expr) (st : cstate) : cstate :=
  match e with
  | BoolOp _ values => visit_all visit_expr values st
  | _ => visit_expr e st
  end.

Definition visit_arg (a : arg) (st : cstate) : cstate :=
  visit_option visit_expr (annotation a) st.

Definition visit_arguments (a : arguments) (st : cstate) : cstate :=
  let st := visit_all visit_arg (args_args a) st in
  let st := visit_option visit_arg (args_vararg a) st in
  let st := visit_all visit_arg (args_kwonlyargs a) st in
  let st := visit_option visit_arg (args_kwarg a) st in
  visit_all visit_expr (args_defaults a) st.

Definition visit_withitem (w : withitem) (st : cstate) : cstate :=
  visit_option visit_expr (optional_vars w) (visit_expr (context_expr w) st).

(** [visit] on statements. [generic] is set where the source calls
    [generic_visit] on a statement instead of [visit]: that happens for the
    [If] statements found in the [orelse] of an [If]. *)
Fixpoint visit_stmt (generic : bool) (s : stmt) (st : cstate) {struct s} : cstate :=
  let visits body st := fold_left (fun st s' => visit_stmt false s' st) body st in
  let generic_If test body orelse st :=
    visits orelse (visits body (visit_expr test st)) in
  match s with
  | FunctionDef _ args body decorator_list returns =>
      let st := visit_arguments args st in
      let st := visits body st in
      let st := visit_all visit_expr decorator_list st in
      visit_option visit_expr returns st
  | ClassDef _ bases body decorator_list =>
      let st := visit_all visit_expr bases st in
      let st := visits body st in
      visit_all visit_expr decorator_list st
  | Return value => visit_option visit_expr value (bump 1 st)
  | Assign targets value => visit_expr value (visit_all visit_expr targets st)
  | For target iter body orelse =>
      let st := enter st in
      let st := visit_expr iter (visit_expr target st) in
      leave (visits orelse (visits body st))
  | While test body orelse =>
      let st := enter st in
      leave (visits orelse (visits body (visit_expr test st)))
  | If test body orelse =>
      if generic then generic_If test body orelse st
      else
        let st := enter st in
        let st :=
          fold_left (fun st s' =>
                       if isinstance_If s' then leave (visit_stmt true s' (enter st))
                       else st) orelse st in
        let st := generic_visit_expr test st in
        let st := visits body st in
        let st :=
          fold_left (fun st s' =>
                       if isinstance_If s' then st else visit_stmt false s' st) orelse st in
        leave st
  | With items body =>
      let st := enter st in
      leave (visits body (visit_all visit_withitem items st))
  | Try body handlers orelse finalbody =>
      let st := enter st in
      let st := fold_left (fun st h => leave (visit_handler h (enter st))) handlers st in
      let st :=
        match finalbody with
        | [] => st
        | _ => leave (visits finalbody (enter st))
        end in
      let st := visits body st in
      let st := visits orelse st in
      leave st
  | Import _ => st
  | ImportFrom _ _ _ => st
  | Global _ => st
  | Expr value => visit_expr value st
  | Pass => st
  end
with visit_handler (h : excepthandler) (st : cstate) {struct h} : cstate :=
  match h with
  | ExceptHandler type _ body =>
      fold_left (fun st s' => visit_stmt false s' st) body (visit_option visit_expr type st)
  end.

Definition visit_module (tree : module_) (st : cstate) : cstate :=
  fold_left (fun st s => visit_stmt false s st) (mod_body tree) st.

End Visitor.

Definition _compute (tree : module_) : Z :=
  complexity (Visitor.visit_module tree {| complexity := 0; stack := [] |}).

Section ComplexityAnalyzer.

Variable ast_parse : string -> option module_.
Variable scale : ComplexityScale.

Definition complexity_score (complexity : Z) (loc : Z) : Q :=
  let per := (inject_Z complexity / inject_Z loc)%Q in
  if hard_cap scale <=? complexity then 0%Q
  else
    let ratio := Qmin 1 (per / Qmax (target_per_loc scale) (1 # 1000000)) in
    Qmax 0 (100 * (1 - ratio)).

Definition ComplexityAnalyzer_analyze (sources : list (string * string))
    (loc_map : list (string * Z)) : ComplexityResult :=
  fold_left
    (fun res item =>
       let path := fst item in
       match safe_parse ast_parse (snd item) with
       | (Some tree, true) =>
           let complexity := _compute tree in
           let loc := Z.max 1 (match dict_get loc_map path with Some l => l | None => 1 end) in
           {| cx_scores := <[path := complexity_score complexity loc]> (cx_scores res);
              cx_raw := <[path := complexity]> (cx_raw res);
              cx_per_loc := <[path := (inject_Z complexity / inject_Z loc)%Q]> (cx_per_loc res) |}
       | _ =>
           {| cx_scores := <[path := 100%Q]> (cx_scores res);
              cx_raw := <[path := 0]> (cx_raw res);
              cx_per_loc := <[path := 0%Q]> (cx_per_loc res) |}
       end)
    sources {| cx_scores := ∅; cx_raw := ∅; cx_per_loc := ∅ |}.

End ComplexityAnalyzer.

(** ** [cq/analyzers/architecture.py] *)

Record ArchConfig : Type := {
  layers : list string;
  mapping : list (string * string);
  allowed_edges : list (list string)
}.

Record ArchitectureViolation : Type := {
  file : string;
  from_layer : string;
  to_layer : string;
  import_name : string
}.

(** [sorted(items, key=lambda kv: len(kv[0]), reverse=True)]: stable, the
    longest prefixes first. *)
Fixpoint insert_by_length (x : string * string) (l : list (string * string))
  : list (string * string) :=
  match l with
  | [] => [x]
  | y :: l' =>
      if (String.length (fst y) <? String.length (fst x))%nat then x :: l
      else y :: insert_by_length x l'
  end.

Definition sorted_prefixes (config : ArchConfig) : list (string * string) :=
  fold_left (fun acc x => insert_by_length x acc) (mapping config) [].

Fixpoint first_layer (prefixes : list (string * string)) (normalized : string) : option string :=
  match prefixes with
  | [] => None
  | (prefix, layer) :: rest =>
      if startswith normalized prefix then Some layer else first_layer rest normalized
  end.

Definition _layer_for_path (config : ArchConfig) (path : string) : option string :=
  first_layer (sorted_prefixes config) (replace_char "\" "/" path).

Definition _layer_for_module (config : ArchConfig) (module : string) : option string :=
  first_layer (sorted_prefixes config) (replace_char "." "/" module).

Definition list_string_eqb (a b : list string) : bool := bool_decide (a = b).

Section ArchitectureAnalyzer.

Variable ast_parse : string -> option module_.
Variable config : ArchConfig.

Definition violations_of_file (path : string) (tree : module_) : list ArchitectureViolation :=
  match _layer_for_path config path with
  | None => []
  | Some from_layer =>
      flat_map
        (fun imp =>
           let '(full_name, root) := imp in
           match _layer_for_module config (if String.eqb full_name "" then root else full_name) with
           | None => []
           | Some target_layer =>
               if existsb (list_string_eqb [from_layer; target_layer]) (allowed_edges config)
               then []
               else [{| file := path; from_layer := from_layer;
                        to_layer := target_layer; import_name := full_name |}]
           end)
        (iter_imports tree)
  end.

Definition ArchitectureAnalyzer_analyze (files : list (string * string))
  : list ArchitectureViolation :=
  flat_map
    (fun item =>
       match safe_parse ast_parse (snd item) with
       | (Some tree, true) => violations_of_file (fst item) tree
       | _ => []
       end)
    files.

End ArchitectureAnalyzer.

(** ** External tools

    What [subprocess.run] produced: either it raised ([OSError],
    [TimeoutExpired]) or the process completed. *)

Record CompletedProcess (Out : Type) : Type := {
  returncode : Z;
  stdout : Out;
  stderr : string
}.

Arguments returncode {Out} _.
Arguments stdout {Out} _.
Arguments stderr {Out} _.

Inductive run_outcome (Out : Type) : Type :=
| Unavailable (exc : string)
| Completed (p : CompletedProcess Out).

Arguments Unavailable {Out} exc.
Arguments Completed {Out} p.

(** [s.strip()] *)
Definition strip (s : string) : string :=
  string_of_list_ascii
    (rev (list_ascii_of_string (lstrip (string_of_list_ascii (rev (list_ascii_of_string (lstrip s))))))).

(** [c.upper()] and [c.lower()] on the ASCII range. *)
Definition upper (c : ascii) : ascii :=
  let n := nat_of_ascii c in
  if ((97 <=? n) && (n <=? 122))%nat then ascii_of_nat (n - 32) else c.

Definition lower (c : ascii) : ascii :=
  let n := nat_of_ascii c in
  if ((65 <=? n) && (n <=? 90))%nat then ascii_of_nat (n + 32) else c.

Definition string_lower (s : string) : string :=
  string_of_list_ascii (List.map lower (list_ascii_of_string s)).

(** [s[:1].upper()] *)
Definition first_upper (s : string) : string :=
  match s with
  | EmptyString => EmptyString
  | String c _ => String (upper c) EmptyString
  end.

(** ** [cq/analyzers/lint.py] *)

(** One record of the JSON array that pylint prints. *)
Record LintMessage : Type := {
  msg_path : string;
  msg_symbol : option string;
  msg_type : option string
}.

Record LintResult : Type := {
  lint_counts : gmap string (gmap string nat);
  lint_weighted_scores : gmap string Q;
  lint_degraded : bool;
  lint_missing_reason : option string
}.

Definition zero_counts : gmap string nat :=
  <["E" := O]> (<["R" := O]> (<["W" := O]> (<["C" := O]> ∅))).

Definition category_of (message : LintMessage) : string :=
  match msg_symbol message with
  | Some (String c s) => first_upper (String c s)
  | _ => first_upper (match msg_type message with Some t => t | None => EmptyString end)
  end.

Definition count_message (counts : gmap string (gmap string nat)) (message : LintMessage)
  : gmap string (gmap string nat) :=
  let path := msg_path message in
  let of_path := get_or counts path zero_counts in
  let category := category_of message in
  <[path := <[category := S (get_or of_path category O)]> of_path]> counts.

(** [100 - sum(weights.get(cat, 0.0) * count)], not below zero. *)
Definition penalty (weights : gmap string Q) (cat_counts : gmap string nat) : Q :=
  map_fold (fun cat count total =>
              (total + get_or weights cat 0 * inject_Z (Z.of_nat count))%Q)
           0%Q cat_counts.

Definition weighted_score (weights : gmap string Q) (cat_counts : gmap string nat) : Q :=
  Qmax 0 (100 - penalty weights cat_counts).

Definition degraded_lint (reason : string) : LintResult :=
  {| lint_counts := ∅; lint_weighted_scores := ∅;
     lint_degraded := true; lint_missing_reason := Some reason |}.

Definition or_else (s dflt : string) : string :=
  match s with EmptyString => dflt | _ => s end.

(** [stdout] of the process is the result of [json.loads(stdout or "[]")]:
    [None] stands for a [JSONDecodeError], [Some] for the list of records
    that pylint prints, each with a path and, where present, a symbol and
    a type that are strings. JSON of another shape makes the loop over
    the messages raise and is outside the embedding. *)
Definition LintAnalyzer_analyze (pylint_categories : gmap string Q)
    (run : run_outcome (option (list LintMessage))) : LintResult :=
  match run with
  | Unavailable exc => degraded_lint ("pylint unavailable: " +:+ exc)
  | Completed p =>
      if negb (existsb (Z.eqb (returncode p)) [0; 2; 4; 8; 16; 32]) then
        degraded_lint (or_else (strip (stderr p)) "pylint run failed")
      else
        match stdout p with
        | None => degraded_lint "pylint produced invalid JSON"
        | Some messages =>
            let counts := fold_left count_message messages ∅ in
            {| lint_counts := counts;
               lint_weighted_scores := weighted_score pylint_categories <$> counts;
               lint_degraded := false;
               lint_missing_reason := None |}
        end
  end.

(** ** [cq/analyzers/typing.py] *)

Record TypingScale : Type := {
  max_score_at_0 : Q;
  zero_score_at_20 : Q
}.

Record TypingResult : Type := {
  typing_errors : gmap string nat;
  typing_scores : gmap string Q;
  typing_coverage : gmap string Q;
  typing_degraded : bool;
  typing_missing_reason : option string
}.

Definition isdigit (c : ascii) : bool :=
  let n := nat_of_ascii c in ((48 <=? n) && (n <=? 57))%nat.

Fixpoint drop_digits (s : string) : string :=
  match s with
  | String c s' => if isdigit c then drop_digits s' else s
  | EmptyString => EmptyString
  end.

(** [s[len(p):]] when [s] starts with [p]. *)
Fixpoint strip_prefix (p s : string) : option string :=
  match p, s with
  | EmptyString, _ => Some s
  | String a p', String b s' => if Ascii.eqb a b then strip_prefix p' s' else None
  | String _ _, EmptyString => None
  end.

(** [MYPY_ERROR_RE.match(line)]: the groups [path] and [type] of
    [^(?P<path>[^:]+):(?P<line>\d+): (?P<type>error|note): (?P<message>.+)$]. *)
Definition mypy_match (line : string) : option (string * string) :=
  let path := before ":" line in
  match path, strip_prefix (path +:+ ":") line with
  | String _ _, Some rest =>
      match rest with
      | String d _ =>
          if isdigit d then
            match strip_prefix ": " (drop_digits rest) with
            | Some rest =>
                match strip_prefix "error: " rest, strip_prefix "note: " rest with
                | Some (String _ _), _ => Some (path, "error")
                | _, Some (String _ _) => Some (path, "note")
                | _, _ => None
                end
            | None => None
            end
          else None
      | EmptyString => None
      end
  | _, _ => None
  end.

Definition count_error (errors : gmap string nat) (line : string) : gmap string nat :=
  match mypy_match line with
  | Some (path, type) =>
      if String.eqb type "error" then <[path := S (get_or errors path O)]> errors else errors
  | None => errors
  end.

Definition Qleb (x y : Q) : bool := Qle_bool x y.

(** The score of one file. The quotient [max_score / zero_score_at] is
    exact here; in binary64 it overflows when the threshold is tiny, which
    the properties of the curve rule out by a bound on the slope. *)
Definition typing_score (scale : TypingScale) (err_count : nat) (loc : Z) : pyresult Q :=
  let density := (inject_Z (Z.of_nat err_count * 1000) / inject_Z (Z.max 1 loc))%Q in
  let max_score := max_score_at_0 scale in
  let zero_score_at := zero_score_at_20 scale in
  if Qleb zero_score_at density then Returns 0%Q
  else
    do slope <- py_div max_score zero_score_at;
    Returns (Qmax 0 (max_score - slope * density)).

(** The body of the loop that fills [scores] in [TypingAnalyzer.analyze]. *)
Definition score_step (scale : TypingScale) (errors : gmap string nat)
    (acc : pyresult (gmap string Q)) (item : string * Z) : pyresult (gmap string Q) :=
  do scores <- acc;
  do score <- typing_score scale (get_or errors (fst item) O) (snd item);
  Returns (<[fst item := score]> scores).

Definition degraded_typing (coverage : gmap string Q) (reason : string) : TypingResult :=
  {| typing_errors := ∅; typing_scores := ∅; typing_coverage := coverage;
     typing_degraded := true; typing_missing_reason := Some reason |}.

Definition TypingAnalyzer_analyze (scale : TypingScale) (run : run_outcome string)
    (loc_map : list (string * Z)) (coverage : gmap string Q) : pyresult TypingResult :=
  match run with
  | Unavailable exc => Returns (degraded_typing coverage ("mypy unavailable: " +:+ exc))
  | Completed p =>
      if negb (existsb (Z.eqb (returncode p)) [0; 1]) then
        Returns (degraded_typing coverage (or_else (strip (stderr p)) "mypy run failed"))
      else
        let errors := fold_left count_error (splitlines (stdout p)) ∅ in
        do scores <- fold_left (score_step scale errors) loc_map (Returns ∅);
        Returns {| typing_errors := errors; typing_scores := scores;
                   typing_coverage := coverage;
                   typing_degraded := false; typing_missing_reason := None |}
  end.

(** ** [cq/utils/fs.py] and [pathlib]

    A path is the string that [str(path)] prints for a normalised POSIX
    path: segments separated by single slashes, no trailing slash, ["."]
    for the empty relative path. *)

Definition is_absolute (p : string) : bool := startswith p "/".

(** [str(path.relative_to(root))]: [ValueError] unless [path] lies under
    [root]. *)
Definition relative_to (path root : string) : pyresult string :=
  if negb (Bool.eqb (is_absolute path) (is_absolute root)) then Raises ValueError
  else if String.eqb path root then Returns "."
  else
    let prefix :=
      if String.eqb root "/" then "/"
      else if String.eqb root "." then EmptyString
      else root +:+ "/" in
    match strip_prefix prefix path with
    | Some rest => Returns rest
    | None => Raises ValueError
    end.

(** [str(root / rel)] *)
Definition path_join (root rel : string) : string :=
  if is_absolute rel then rel
  else if String.eqb rel "." || String.eqb rel "" then root
  else if String.eqb root "." then rel
  else if String.eqb root "/" then "/" +:+ rel
  else root +:+ "/" +:+ rel.

Definition ROLE_HINTS : list (string * list string) :=
  [("test", ["tests"; "test_"]);
   ("config", ["config"; "settings"; "cfg"; "ini"; "yml"; "yaml"]);
   ("vendor", ["vendor"; "third_party"; "site-packages"]);
   ("generated", ["build"; "dist"])].

Definition detect_role (path : string) : string :=
  let lower := string_lower path in
  match List.find (fun rh => existsb (Unparse.contains lower) (snd rh)) ROLE_HINTS with
  | Some rh => fst rh
  | None => "default"
  end.

(** [read_text]: the text (given) and its number of lines. *)
Definition loc_of (text : string) : Z := Z.of_nat (length (splitlines text)).

(** ** [cq/models.py] *)

Record FileMetrics : Type := {
  duplication_ratio : Q;
  fm_lint_counts : gmap string nat;
  lint_weighted_score : Q;
  fm_typing_errors : nat;
  fm_typing_score : Q;
  annotation_coverage : Q;
  cognitive_complexity : Z;
  fm_complexity_score : Q;
  complexity_per_loc : Q
}.

(** The [confidence] dictionary of a file, one field per key. *)
Record FileConfidence : Type := {
  conf_duplication : Q;
  conf_lint : Q;
  conf_typing : Q;
  conf_complexity : Q;
  conf_overall : Q
}.

Record FileReport : Type := {
  fr_path : string;
  fr_loc : Z;
  fr_role : string;
  fr_metrics : FileMetrics;
  fr_grade : Q;
  fr_confidence : FileConfidence;
  missing_reasons : list string
}.

Record ProjectSummary : Type := {
  sum_duplication : Q;
  sum_lint : Q;
  sum_typing : Q;
  sum_complexity : Q;
  sum_grade : Q
}.

Record PerMetric : Type := {
  pm_duplication : Q;
  pm_lint : Q;
  pm_typing : Q;
  pm_complexity : Q
}.

Record ProjectConfidence : Type := {
  per_metric : PerMetric;
  interval_grade : list Q;
  degraded : list string
}.

Record ProjectReport : Type := {
  pr_path : string;
  pr_summary : ProjectSummary;
  pr_confidence : ProjectConfidence;
  architecture_violations : list ArchitectureViolation
}.

Record Report : Type := {
  project : ProjectReport;
  files : list FileReport
}.

(** ** [cq/config.py] *)

Record BootstrapConfig : Type := { iterations : Z; seed : Z }.

Record ScoringConfig : Type := {
  complexity_scale : ComplexityScale;
  typing_error_scale : TypingScale
}.

Record Config : Type := {
  arch : ArchConfig;
  weights_metrics : gmap string Q;
  weights_pylint_categories : gmap string Q;
  weights_roles : gmap string Q;
  duplication : DuplicationConfig;
  bootstrap : BootstrapConfig;
  scoring : ScoringConfig
}.

Definition DEFAULT_ARCH : ArchConfig :=
  {| layers := ["core"; "api"; "ui"];
     mapping := [("src/core", "core"); ("src/api", "api"); ("src/ui", "ui")];
     allowed_edges := [["core"; "core"]; ["api"; "core"]; ["api"; "api"];
                       ["ui"; "api"]; ["ui"; "core"]; ["ui"; "ui"]] |}.

Definition DEFAULT_DUPLICATION : DuplicationConfig :=
  {| dup_k := 25; dup_w := 4;
     normalize := {| strip_literals := true; strip_comments := true;
                     identifier_placeholder := "ID" |} |}.

Definition DEFAULT_TYPING_SCALE : TypingScale :=
  {| max_score_at_0 := 100%Q; zero_score_at_20 := 0%Q |}.

Definition DEFAULT_CONFIG : Config :=
  {| arch := DEFAULT_ARCH;
     weights_metrics :=
       <["complexity" := 25 # 100]> (<["typing" := 20 # 100]>
         (<["lint" := 30 # 100]> (<["duplication" := 25 # 100]> ∅)));
     weights_pylint_categories :=
       <["E" := 1%Q]> (<["R" := 4 # 10]> (<["W" := 5 # 10]> (<["C" := 25 # 100]> ∅)));
     weights_roles :=
       <["generated" := 0%Q]> (<["vendor" := 2 # 10]> (<["config" := 35 # 100]>
         (<["test" := 35 # 100]> (<["default" := 1%Q]> ∅))));
     duplication := DEFAULT_DUPLICATION;
     bootstrap := {| iterations := 100; seed := 1337 |};
     scoring := {| complexity_scale := {| target_per_loc := 25 # 100; hard_cap := 50 |};
                   typing_error_scale := DEFAULT_TYPING_SCALE |} |}.

(** *** [_deep_merge]

    A configuration value, as [yaml.safe_load] and [json.loads] build
    them; only a dictionary is an instance of [Mapping]. A dictionary is
    the list of its items in insertion order. *)
Inductive pyobject : Type :=
| PyNone
| PyBool (b : bool)
| PyInt (n : Z)
| PyFloat (x : Q)
| PyStr (s : string)
| PyList (items : list pyobject)
| PyDict (items : list (string * pyobject)).

(** The first loop of [_deep_merge]: [result[key] = value] for every item
    of [base], starting from the empty dictionary. *)
Definition dict_copy {V : Type} (d : list (string * V)) : list (string * V) :=
  fold_left (fun result item => dict_set result (fst item) (snd item)) d [].

(** [_deep_merge(base, override)] with [override] as a value; the
    recursion descends into the values of [override]. [_deep_merge] only
    calls itself when both values are dictionaries, so the last case is
    never reached from a dictionary. *)
Fixpoint merge_override (base : list (string * pyobject)) (override : pyobject) {struct override}
  : list (string * pyobject) :=
  match override with
  | PyDict items =>
      fold_left
        (fun result item =>
           match dict_get result (fst item), snd item with
           | Some (PyDict sub), PyDict _ =>
               dict_set result (fst item) (PyDict (merge_override sub (snd item)))
           | _, _ => dict_set result (fst item) (snd item)
           end)
        items (dict_copy base)
  | _ => dict_copy base
  end.

Definition _deep_merge (base override : list (string * pyobject)) : list (string * pyobject) :=
  merge_override base (PyDict override).

(** ** [cq/runner.py] *)

(** [sum(d.values())] *)
Definition sum_values (d : gmap string Q) : Q :=
  map_fold (fun _ v total => (total + v)%Q) 0%Q d.

(** The grade of a file, and below the metrics of the project summary:
    quotients of weighted sums, exact here and rounded in the code, where
    the value of four scores of 100 can be [100.00000000000001]. *)
Definition _weighted_grade (metrics : FileMetrics) (weights : gmap string Q) : Q :=
  ((((1 - duplication_ratio metrics) * get_or weights "duplication" 0 * 100
     + lint_weighted_score metrics * get_or weights "lint" 0
     + fm_typing_score metrics * get_or weights "typing" 0
     + fm_complexity_score metrics * get_or weights "complexity" 0))
   / Qmax (1 # 1000000) (sum_values weights))%Q.

Definition role_factor (role_weights : gmap string Q) (f : FileReport) : Q :=
  (get_or role_weights (fr_role f) (get_or role_weights "default" 1) * inject_Z (fr_loc f))%Q.

(** One key of the dictionary that [_aggregate_project] returns. *)
Definition aggregate (role_weights : gmap string Q) (metric : FileReport -> Q)
    (files : list FileReport) : Q :=
  let total := Qsum (List.map (fun f => (metric f * role_factor role_weights f)%Q) files) in
  let weight_total := Qsum (List.map (role_factor role_weights) files) in
  if Qeq_bool weight_total 0 then 0%Q
  else (total / Qmax (1 # 1000000) weight_total)%Q.

Definition _aggregate_project (files : list FileReport) (role_weights : gmap string Q)
  : ProjectSummary :=
  {| sum_duplication :=
       aggregate role_weights (fun f => (1 - duplication_ratio (fr_metrics f)) * 100)%Q files;
     sum_lint := aggregate role_weights (fun f => lint_weighted_score (fr_metrics f)) files;
     sum_typing := aggregate role_weights (fun f => fm_typing_score (fr_metrics f)) files;
     sum_complexity := aggregate role_weights (fun f => fm_complexity_score (fr_metrics f)) files;
     sum_grade := aggregate role_weights fr_grade files |}.

(** [list.sort()] on floats. *)
Fixpoint insert_sorted (x : Q) (l : list Q) : list Q :=
  match l with
  | [] => [x]
  | y :: l' => if Qleb x y then x :: l else y :: insert_sorted x l'
  end.

Definition sort_floats (l : list Q) : list Q := fold_right insert_sorted [] l.

Section Bootstrap.

(** [random.Random]: the generator state, its seeding, and the index that
    [choice] draws for a sequence of the given length. *)
Variable rng : Type.
Variable Random : Z -> rng.
Variable randbelow : rng -> nat -> nat * rng.

Definition choice (values : list Q) (g : rng) : pyresult Q * rng :=
  let '(i, g') := randbelow g (length values) in
  (py_index values (Z.of_nat i), g').

(** [[rng.choice(values) for _ in values]] *)
Fixpoint draw_sample (values : list Q) (n : nat) (g : rng) : pyresult (list Q) * rng :=
  match n with
  | O => (Returns [], g)
  | S n' =>
      let '(x, g) := choice values g in
      let '(xs, g) := draw_sample values n' g in
      (do x <- x; do xs <- xs; Returns (x :: xs), g)
  end.

(** The body of [for _ in range(iterations)]. *)
Fixpoint draw_means (values : list Q) (iterations : nat) (g : rng) : pyresult (list Q) :=
  match iterations with
  | O => Returns []
  | S n' =>
      let '(sample, g) := draw_sample values (length values) g in
      do sample <- sample;
      do rest <- draw_means values n' g;
      Returns (mean sample :: rest)
  end.

Definition lower_idx (n : Z) : Z := Z.max 0 (py_int ((5 # 100) * inject_Z (n - 1))).

Definition upper_idx (n : Z) : Z := Z.min (n - 1) (py_int ((95 # 100) * inject_Z (n - 1))).

Definition _bootstrap_interval (values : list Q) (iterations : Z) (seed : Z)
  : pyresult (list Q) :=
  match values with
  | [] => Returns [0%Q; 0%Q]
  | _ =>
      do samples <- draw_means values (Z.to_nat iterations) (Random seed);
      let samples := sort_floats samples in
      let n := Z.of_nat (length samples) in
      do lower <- py_index samples (lower_idx n);
      do upper <- py_index samples (upper_idx n);
      Returns [lower; upper]
  end.

End Bootstrap.

(** [sorted(s)] for a set of strings. *)
Fixpoint insert_string (x : string) (l : list string) : list string :=
  match l with
  | [] => [x]
  | y :: l' => if String.leb x y then x :: l else y :: insert_string x l'
  end.

Definition sorted_strings (s : gset string) : list string :=
  fold_right insert_string [] (elements s).

Section Runner.

Variable ast_parse : string -> option module_.

(** [math.log1p] on the line count. *)
Variable log1p : Z -> Q.

Variable rng : Type.
Variable Random : Z -> rng.
Variable randbelow : rng -> nat -> nat * rng.

Variable config : Config.

(** The dictionaries filled by the first loop of [run]. *)
Record Scanned : Type := {
  sources : list (string * string);
  loc_map : list (string * Z);
  roles : gmap string string;
  coverage_ratio : gmap string Q;
  parser_success : gmap string bool
}.

Definition scan_file (root_path : string) (acc : pyresult Scanned) (item : string * string)
  : pyresult Scanned :=
  do sc <- acc;
  let '(path, text) := item in
  let loc := loc_of text in
  do rel_path <- relative_to path root_path;
  let '(tree, success) := safe_parse ast_parse text in
  let coverage :=
    match tree with
    | Some tree =>
        if success then
          let '(annotated, total) := count_annotation_coverage tree in
          match total with
          | O => 0%Q
          | _ => (inject_Z (Z.of_nat annotated) / inject_Z (Z.of_nat total))%Q
          end
        else 0%Q
    | None => 0%Q
    end in
  Returns {| sources := dict_set (sources sc) rel_path text;
             loc_map := dict_set (loc_map sc) rel_path loc;
             roles := <[rel_path := detect_role path]> (roles sc);
             coverage_ratio := <[rel_path := coverage]> (coverage_ratio sc);
             parser_success := <[rel_path := success]> (parser_success sc) |}.

Definition scan (root_path : string) (enumerated : list (string * string)) : pyresult Scanned :=
  fold_left (scan_file root_path) enumerated
    (Returns {| sources := []; loc_map := []; roles := ∅;
                coverage_ratio := ∅; parser_success := ∅ |}).

Definition base_confidence (success : bool) (loc : Z) : Q :=
  (Qmin 1 (log1p loc / log1p 300) * (if success then 1 else 6 # 10))%Q.

(** The body of the loop over [loc_map.items()]: the report of one file
    and the metrics it adds to [degraded_metrics]. *)
Definition report_file (root_path : string) (sc : Scanned) (dup : DuplicationResult)
    (cx : ComplexityResult) (lint : LintResult) (typing : TypingResult)
    (rel_path : string) (loc : Z) : FileReport * gset string :=
  let joined := path_join root_path rel_path in
  let lint_counts := get_or (lint_counts lint) joined zero_counts in
  let lint_score := get_or (lint_weighted_scores lint) joined 100%Q in
  let lint_conf := if lint_degraded lint then (4 # 10)%Q else 1%Q in
  let missing :=
    if lint_degraded lint then
      [or_else (match lint_missing_reason lint with Some r => r | None => EmptyString end)
               "pylint degraded"]
    else [] in
  let typing_errors := get_or (typing_errors typing) joined O in
  let typing_score := get_or (typing_scores typing) joined 100%Q in
  let typing_conf := if typing_degraded typing then (4 # 10)%Q else 1%Q in
  let missing :=
    if typing_degraded typing then
      missing ++
      [or_else (match typing_missing_reason typing with Some r => r | None => EmptyString end)
               "mypy degraded"]
    else missing in
  let duplication_ratio := get_or (dup_ratios dup) rel_path 0%Q in
  let duplication_conf :=
    if get_or (dup_parser_success dup) rel_path false then 1%Q else (5 # 10)%Q in
  let complexity_score := get_or (cx_scores cx) rel_path 100%Q in
  let complexity_raw := get_or (cx_raw cx) rel_path 0 in
  let complexity_per_loc := get_or (cx_per_loc cx) rel_path 0%Q in
  let success := get_or (parser_success sc) rel_path false in
  let complexity_conf := if success then 1%Q else (5 # 10)%Q in
  let base_conf := base_confidence success loc in
  let c_dup := (base_conf * duplication_conf)%Q in
  let c_lint := (base_conf * lint_conf)%Q in
  let c_typing := (base_conf * typing_conf)%Q in
  let c_complexity := (base_conf * complexity_conf)%Q in
  let metrics :=
    {| duplication_ratio := duplication_ratio;
       fm_lint_counts := lint_counts;
       lint_weighted_score := lint_score;
       fm_typing_errors := typing_errors;
       fm_typing_score := typing_score;
       annotation_coverage := get_or (coverage_ratio sc) rel_path 0%Q;
       cognitive_complexity := complexity_raw;
       fm_complexity_score := complexity_score;
       complexity_per_loc := complexity_per_loc |} in
  ({| fr_path := rel_path;
      fr_loc := loc;
      fr_role := get_or (roles sc) rel_path "default";
      fr_metrics := metrics;
      fr_grade := _weighted_grade metrics (weights_metrics config);
      fr_confidence :=
        {| conf_duplication := c_dup; conf_lint := c_lint;
           conf_typing := c_typing; conf_complexity := c_complexity;
           conf_overall := Qmin 1 (mean [c_dup; c_lint; c_typing; c_complexity]) |};
      missing_reasons := missing |},
   (if lint_degraded lint then {["lint"]} else ∅)
   ∪ (if typing_degraded typing then {["typing"]} else ∅)).

Definition mean_or_zero (xs : list Q) : Q :=
  match xs with [] => 0%Q | _ => mean xs end.

(** [Runner.run].  [enumerated] lists what [fs.iter_python_files] yields:
    each path with the text read from it.  The result is the [Report] that
    [run] builds; its [meta] block (timestamps, tool versions) carries no
    score and is left out. *)
Definition Runner_run (root_path : string) (enumerated : list (string * string))
    (lint_run : run_outcome (option (list LintMessage))) (typing_run : run_outcome string)
  : pyresult Report :=
  do sc <- scan root_path enumerated;
  let dup := DuplicationAnalyzer_analyze ast_parse (duplication config) (sources sc) in
  let architecture := ArchitectureAnalyzer_analyze ast_parse (arch config) (sources sc) in
  let cx := ComplexityAnalyzer_analyze ast_parse (complexity_scale (scoring config))
              (sources sc) (loc_map sc) in
  let lint := LintAnalyzer_analyze (weights_pylint_categories config) lint_run in
  do typing <- TypingAnalyzer_analyze (typing_error_scale (scoring config)) typing_run
                 (loc_map sc) (coverage_ratio sc);
  let reported :=
    List.map (fun item => report_file root_path sc dup cx lint typing (fst item) (snd item))
             (loc_map sc) in
  let files_report := List.map fst reported in
  let degraded_metrics : gset string := ⋃ (List.map snd reported) in
  do bootstrap_interval <-
    _bootstrap_interval rng Random randbelow (List.map fr_grade files_report)
      (iterations (bootstrap config)) (seed (bootstrap config));
  Returns
    {| project :=
         {| pr_path := root_path;
            pr_summary := _aggregate_project files_report (weights_roles config);
            pr_confidence :=
              {| per_metric :=
                   {| pm_duplication :=
                        mean_or_zero (List.map (fun f => conf_duplication (fr_confidence f)) files_report);
                      pm_lint :=
                        mean_or_zero (List.map (fun f => conf_lint (fr_confidence f)) files_report);
                      pm_typing :=
                        mean_or_zero (List.map (fun f => conf_typing (fr_confidence f)) files_report);
                      pm_complexity :=
                        mean_or_zero (List.map (fun f => conf_complexity (fr_confidence f)) files_report) |};
                 interval_grade := bootstrap_interval;
                 degraded := sorted_strings degraded_metrics |};
            architecture_violations := architecture |};
       files := files_report |}.

End Runner.

(** ** The overlap count in the words of the specification

    [overlap_count(f)] sums, over the other files [g], the elements of
    [F_g] that lie in [S_f = set(F_f)]. The first reading counts every
    occurrence in the list [F_g]; the second counts each hash of [F_g]
    once. *)

Definition other_files (items : list (string * list Z)) (path : string)
  : list (string * list Z) :=
  List.filter (fun g => negb (String.eqb (fst g) path)) items.

Definition occurrences_in (fprints other : list Z) : nat :=
  length (List.filter (fun h => bool_decide (h ∈ fprints)) other).

Definition overlap_count_multiset (items : list (string * list Z)) (path : string)
    (fprints : list Z) : nat :=
  list_sum (List.map (fun g => occurrences_in fprints (snd g)) (other_files items path)).

Definition overlap_count_distinct (items : list (string * list Z)) (path : string)
    (fprints : list Z) : nat :=
  list_sum (List.map (fun g => occurrences_in fprints (remove_dups (snd g)))
                     (other_files items path)).

(** [min(1.0, overlap / max(1, |S_f|))], and 0 for an empty list. *)
Definition ratio_from (overlap : nat) (fprints : list Z) : Q :=
  match fprints with
  | [] => 0%Q
  | _ => Qmin 1 (inject_Z (Z.of_nat overlap)
                 / inject_Z (Z.max 1 (Z.of_nat (length (remove_dups fprints)))))
  end.

(** ** What the complexity visitor adds

    [visit_stmt] threads the counter and the stack; the amount a node adds
    to the counter only depends on the depth of the stack when the node is
    entered. [cost_stmt generic d s] is that amount at depth [d]. *)

Definition sumZ (l : list Z) : Z := fold_right Z.add 0 l.

Module Cost.

Fixpoint cost_expr (e : expr) : Z :=
  match e with
  | BoolOp _ values =>
      Z.max 0 (Z.of_nat (length values) - 1) + sumZ (List.map cost_expr values)
  | BinOp l _ r => cost_expr l + cost_expr r
  | UnaryOp _ operand => cost_expr operand
  | Compare l _ comparators => cost_expr l + sumZ (List.map cost_expr comparators)
  | Call func args keywords =>
      cost_expr func + sumZ (List.map cost_expr args)
      + sumZ (List.map (fun kw => cost_expr (snd kw)) keywords)
  | Constant _ => 0
  | Attribute value _ _ => cost_expr value
  | Name _ _ => 0
  end.

Definition cost_generic_expr (e : expr) : Z :=
  match e with
  | BoolOp _ values => sumZ (List.map cost_expr values)
  | _ => cost_expr e
  end.

Definition cost_option {A : Type} (cost : A -> Z) (o : option A) : Z :=
  match o with Some a => cost a | None => 0 end.

Definition cost_arg (a : arg) : Z := cost_option cost_expr (annotation a).

Definition cost_arguments (a : arguments) : Z :=
  sumZ (List.map cost_arg (args_args a)) + cost_option cost_arg (args_vararg a)
  + sumZ (List.map cost_arg (args_kwonlyargs a)) + cost_option cost_arg (args_kwarg a)
  + sumZ (List.map cost_expr (args_defaults a)).

Definition cost_withitem (w : withitem) : Z :=
  cost_expr (context_expr w) + cost_option cost_expr (optional_vars w).

(** What [enter] adds at depth [d]. *)
Definition entering (d : nat) : Z := 1 + Z.of_nat d.

Fixpoint cost_stmt (generic : bool) (d : nat) (s : stmt) {struct s} : Z :=
  let costs d body := sumZ (List.map (cost_stmt false d) body) in
  match s with
  | FunctionDef _ args body decorator_list returns =>
      cost_arguments args + costs d body + sumZ (List.map cost_expr decorator_list)
      + cost_option cost_expr returns
  | ClassDef _ bases body decorator_list =>
      sumZ (List.map cost_expr bases) + costs d body + sumZ (List.map cost_expr decorator_list)
  | Return value => 1 + cost_option cost_expr value
  | Assign targets value => sumZ (List.map cost_expr targets) + cost_expr value
  | For target iter body orelse =>
      entering d + cost_expr target + cost_expr iter + costs (S d) body + costs (S d) orelse
  | While test body orelse =>
      entering d + cost_expr test + costs (S d) body + costs (S d) orelse
  | If test body orelse =>
      if generic then cost_expr test + costs d body + costs d orelse
      else
        entering d
        + sumZ (List.map (fun s' => if isinstance_If s'
                                    then entering (S d) + cost_stmt true (S (S d)) s'
                                    else 0) orelse)
        + cost_generic_expr test
        + costs (S d) body
        + sumZ (List.map (fun s' => if isinstance_If s' then 0
                                    else cost_stmt false (S d) s') orelse)
  | With items body =>
      entering d + sumZ (List.map cost_withitem items) + costs (S d) body
  | Try body handlers orelse finalbody =>
      entering d
      + sumZ (List.map (fun h => entering (S d) + cost_handler (S (S d)) h) handlers)
      + match finalbody with
        | [] => 0
        | _ => entering (S d) + costs (S (S d)) finalbody
        end
      + costs (S d) body + costs (S d) orelse
  | Import _ => 0
  | ImportFrom _ _ _ => 0
  | Global _ => 0
  | Expr value => cost_expr value
  | Pass => 0
  end
with cost_handler (d : nat) (h : excepthandler) {struct h} : Z :=
  match h with
  | ExceptHandler type _ body =>
      cost_option cost_expr type + sumZ (List.map (cost_stmt false d) body)
  end.

Definition costs (d : nat) (body : list stmt) : Z := sumZ (List.map (cost_stmt false d) body).

(** One statement in the [orelse] of an [If] at depth [d]. *)
Definition cost_in_orelse (d : nat) (s : stmt) : Z :=
  if isinstance_If s then entering (S d) + cost_stmt true (S (S d)) s
  else cost_stmt false (S d) s.

End Cost.

(** ** Editing a tree

    [insert_in_block x old new]: the statement list [new] is [old] with
    the statement [x] inserted, in the list itself or in any statement
    list below it. *)

Inductive insert_in_block (x : stmt) : list stmt -> list stmt -> Prop :=
| insert_here (pre post : list stmt) :
    insert_in_block x (pre ++ post) (pre ++ x :: post)
| insert_below (pre post : list stmt) (s s' : stmt) :
    insert_in_stmt x s s' -> insert_in_block x (pre ++ s :: post) (pre ++ s' :: post)
with insert_in_stmt (x : stmt) : stmt -> stmt -> Prop :=
| insert_FunctionDef name args body body' decorator_list returns :
    insert_in_block x body body' ->
    insert_in_stmt x (FunctionDef name args body decorator_list returns)
                     (FunctionDef name args body' decorator_list returns)
| insert_ClassDef name bases body body' decorator_list :
    insert_in_block x body body' ->
    insert_in_stmt x (ClassDef name bases body decorator_list)
                     (ClassDef name bases body' decorator_list)
| insert_For_body target iter body body' orelse :
    insert_in_block x body body' ->
    insert_in_stmt x (For target iter body orelse) (For target iter body' orelse)
| insert_For_orelse target iter body orelse orelse' :
    insert_in_block x orelse orelse' ->
    insert_in_stmt x (For target iter body orelse) (For target iter body orelse')
| insert_While_body test body body' orelse :
    insert_in_block x body body' ->
    insert_in_stmt x (While test body orelse) (While test body' orelse)
| insert_While_orelse test body orelse orelse' :
    insert_in_block x orelse orelse' ->
    insert_in_stmt x (While test body orelse) (While test body orelse')
| insert_If_body test body body' orelse :
    insert_in_block x body body' ->
    insert_in_stmt x (If test body orelse) (If test body' orelse)
| insert_If_orelse test body orelse orelse' :
    insert_in_block x orelse orelse' ->
    insert_in_stmt x (If test body orelse) (If test body orelse')
| insert_With_body items body body' :
    insert_in_block x body body' ->
    insert_in_stmt x (With items body) (With items body')
| insert_Try_body body body' handlers orelse finalbody :
    insert_in_block x body body' ->
    insert_in_stmt x (Try body handlers orelse finalbody) (Try body' handlers orelse finalbody)
| insert_Try_handler body pre h h' post orelse finalbody :
    insert_in_handler x h h' ->
    insert_in_stmt x (Try body (pre ++ h :: post) orelse finalbody)
                     (Try body (pre ++ h' :: post) orelse finalbody)
| insert_Try_orelse body handlers orelse orelse' finalbody :
    insert_in_block x orelse orelse' ->
    insert_in_stmt x (Try body handlers orelse finalbody) (Try body handlers orelse' finalbody)
| insert_Try_finalbody body handlers orelse finalbody finalbody' :
    insert_in_block x finalbody finalbody' ->
    insert_in_stmt x (Try body handlers orelse finalbody) (Try body handlers orelse finalbody')
with insert_in_handler (x : stmt) : excepthandler -> excepthandler -> Prop :=
| insert_ExceptHandler type name body body' :
    insert_in_block x body body' ->
    insert_in_handler x (ExceptHandler type name body) (ExceptHandler type name body').

(** [if t1: b1 / elif t2: b2 / ... / else: orelse]: every [elif] is an
    [If] that is the only statement of the enclosing [orelse]. *)
Fixpoint elif_chain (branches : list (expr * list stmt)) (orelse : list stmt) : list stmt :=
  match branches with
  | [] => orelse
  | (test, body) :: rest => [If test body (elif_chain rest orelse)]
  end.

(** ** Renaming a tree

    Identifiers are renamed by [rho] where they are [Name]s, attribute
    suffixes, and names of functions, classes and parameters; literals are
    replaced through [kappa]. [plain] renames the identifiers that the
    tree keeps as plain strings: the name of a keyword argument at a call,
    the name bound by [except ... as], the names of a [global] statement
    and the [as] name of an import. [in_annotations] tells whether the
    annotation of a parameter is renamed too. *)

Section Rename.

Variable rho : string -> string.
Variable kappa : constant -> constant.
Variable plain : string -> string.
Variable in_annotations : bool.

Fixpoint rename_expr (e : expr) : expr :=
  match e with
  | BoolOp op values => BoolOp op (List.map rename_expr values)
  | BinOp l op r => BinOp (rename_expr l) op (rename_expr r)
  | UnaryOp op operand => UnaryOp op (rename_expr operand)
  | Compare l ops comparators => Compare (rename_expr l) ops (List.map rename_expr comparators)
  | Call func args keywords =>
      Call (rename_expr func) (List.map rename_expr args)
           (List.map (fun kw => (option_map plain (fst kw), rename_expr (snd kw))) keywords)
  | Constant value => Constant (kappa value)
  | Attribute value attr ctx => Attribute (rename_expr value) (rho attr) ctx
  | Name id ctx => Name (rho id) ctx
  end.

Definition rename_arg (a : arg) : arg :=
  Arg (rho (arg_name a))
      (if in_annotations then option_map rename_expr (annotation a) else annotation a).

Definition rename_arguments (a : arguments) : arguments :=
  Arguments (List.map rename_arg (args_args a))
            (option_map rename_arg (args_vararg a))
            (List.map rename_arg (args_kwonlyargs a))
            (option_map rename_arg (args_kwarg a))
            (List.map rename_expr (args_defaults a)).

Definition rename_withitem (w : withitem) : withitem :=
  WithItem (rename_expr (context_expr w)) (option_map rename_expr (optional_vars w)).

Definition rename_alias (a : alias) : alias :=
  Alias (alias_name a) (option_map plain (asname a)).

Fixpoint rename_stmt (s : stmt) : stmt :=
  match s with
  | FunctionDef name args body decorator_list returns =>
      FunctionDef (rho name) (rename_arguments args) (List.map rename_stmt body)
                  (List.map rename_expr decorator_list) (option_map rename_expr returns)
  | ClassDef name bases body decorator_list =>
      ClassDef (rho name) (List.map rename_expr bases) (List.map rename_stmt body)
               (List.map rename_expr decorator_list)
  | Return value => Return (option_map rename_expr value)
  | Assign targets value => Assign (List.map rename_expr targets) (rename_expr value)
  | For target iter body orelse =>
      For (rename_expr target) (rename_expr iter)
          (List.map rename_stmt body) (List.map rename_stmt orelse)
  | While test body orelse =>
      While (rename_expr test) (List.map rename_stmt body) (List.map rename_stmt orelse)
  | If test body orelse =>
      If (rename_expr test) (List.map rename_stmt body) (List.map rename_stmt orelse)
  | With items body => With (List.map rename_withitem items) (List.map rename_stmt body)
  | Try body handlers orelse finalbody =>
      Try (List.map rename_stmt body) (List.map rename_handler handlers)
          (List.map rename_stmt orelse) (List.map rename_stmt finalbody)
  | Import names => Import (List.map rename_alias names)
  | ImportFrom module names level => ImportFrom module (List.map rename_alias names) level
  | Global names => Global (List.map plain names)
  | Expr value => Expr (rename_expr value)
  | Pass => Pass
  end
with rename_handler (h : excepthandler) : excepthandler :=
  match h with
  | ExceptHandler type name body =>
      ExceptHandler (option_map rename_expr type) (option_map plain name)
                    (List.map rename_stmt body)
  end.

Definition rename_module (m : module_) : module_ := Module (List.map rename_stmt (mod_body m)).

End Rename.

(** The fingerprint list of a source file. *)
Definition file_fingerprints (ast_parse : string -> option module_) (config : DuplicationConfig)
    (text : string) : list Z :=
  _fingerprints config (fst (_normalize ast_parse config text)).

(** ** Notions for the winnowing loop

    The state after [n] iterations, the hash of the k-gram at a position,
    the window that the iteration for position [i] leaves, and the least
    hash of a window. *)

Definition least_hash (x : Z) (hashes : list Z) : Z := fold_left Z.min hashes x.

Section Winnow.

Variable hash : string -> Z.
Variable k w : nat.

Definition kgram_hash (tokens : list string) (i : nat) : Z :=
  hash (join " " (firstn k (skipn i tokens))).

Definition entry (tokens : list string) (i : nat) : Z * Z :=
  (kgram_hash tokens i, Z.of_nat i).

Definition window_at (tokens : list string) (i : nat) : list (Z * Z) :=
  List.map (entry tokens) (seq (S i - Nat.min (S i) w) (Nat.min (S i) w)).

Definition winnow (tokens : list string) (n : nat) : winnow_state :=
  fold_left (winnow_step hash tokens k w) (seq 0 n)
            {| ws_window := []; ws_min := None; ws_hashes := [] |}.

(** The hash selected in the window over the first [w] k-grams of a run
    of tokens. *)
Definition shared_hash (shared : list string) : Z :=
  least_hash (hash (join " " (firstn k shared)))
             (List.map (fun j => hash (join " " (firstn k (skipn j shared)))) (seq 1 (w - 1))).

End Winnow.

(** ** Ranges

    A score lies in [0, 100]; a ratio or a confidence in [0, 1]. *)

Definition in_range (lo hi x : Q) : Prop := (lo <= x)%Q /\ (x <= hi)%Q.

Definition is_score (x : Q) : Prop := in_range 0 100 x.

Definition is_fraction (x : Q) : Prop := in_range 0 1 x.

Definition non_negative (weights : gmap string Q) : Prop :=
  map_Forall (fun _ w => (0 <= w)%Q) weights.

(** The values of a file that the code bounds with [min] and [max]: the
    ratio, the three scores and the five confidences. The grade is a
    quotient of sums that [_weighted_grade] does not clamp. *)
Record file_scores_in_range (f : FileReport) : Prop := {
  range_loc : 0 <= fr_loc f;
  range_duplication_ratio : is_fraction (duplication_ratio (fr_metrics f));
  range_lint_score : is_score (lint_weighted_score (fr_metrics f));
  range_typing_score : is_score (fm_typing_score (fr_metrics f));
  range_complexity_score : is_score (fm_complexity_score (fr_metrics f));
  range_conf_duplication : is_fraction (conf_duplication (fr_confidence f));
  range_conf_lint : is_fraction (conf_lint (fr_confidence f));
  range_conf_typing : is_fraction (conf_typing (fr_confidence f));
  range_conf_complexity : is_fraction (conf_complexity (fr_confidence f));
  range_conf_overall : is_fraction (conf_overall (fr_confidence f))
}.

Record summary_in_range (s : ProjectSummary) : Prop := {
  range_sum_duplication : is_score (sum_duplication s);
  range_sum_lint : is_score (sum_lint s);
  range_sum_typing : is_score (sum_typing s);
  range_sum_complexity : is_score (sum_complexity s);
  range_sum_grade : is_score (sum_grade s)
}.

Record per_metric_in_range (p : PerMetric) : Prop := {
  range_pm_duplication : is_fraction (pm_duplication p);
  range_pm_lint : is_fraction (pm_lint p);
  range_pm_typing : is_fraction (pm_typing p);
  range_pm_complexity : is_fraction (pm_complexity p)
}.

(** ** Notions used in the proofs *)

(** The visitor adds the cost of a node and restores the stack. *)
Definition stmt_cost_spec (s : stmt) : Prop :=
  ∀ generic st,
    Visitor.visit_stmt generic s st = bump (Cost.cost_stmt generic (length (stack st)) s) st.

Definition handler_cost_spec (h : excepthandler) : Prop :=
  ∀ st, Visitor.visit_handler h st = bump (Cost.cost_handler (length (stack st)) h) st.

(** Costs are never negative. *)
Definition stmt_nonneg (s : stmt) : Prop := ∀ generic d, 0 <= Cost.cost_stmt generic d s.

Definition handler_nonneg (h : excepthandler) : Prop := ∀ d, 0 <= Cost.cost_handler d h.

(** A block, a statement, a handler costs more after an insertion. *)
Definition block_grows (old new : list stmt) : Prop :=
  ∀ d, Cost.costs d old < Cost.costs d new
       ∧ sumZ (List.map (Cost.cost_in_orelse d) old) < sumZ (List.map (Cost.cost_in_orelse d) new).

Definition stmt_grows (s s' : stmt) : Prop :=
  isinstance_If s = isinstance_If s'
  ∧ ∀ generic d, Cost.cost_stmt generic d s < Cost.cost_stmt generic d s'.

Definition handler_grows (h h' : excepthandler) : Prop :=
  ∀ d, Cost.cost_handler d h < Cost.cost_handler d h'.

(** What holds for every item of [loc_map] after scanning resolved
    paths under [root_path]: the key is a relative path under an absolute
    root, the value a number of lines. *)
Definition scanned_ok (root_path : string) (sc : Scanned) : Prop :=
  forall item, In item (loc_map sc) ->
               is_absolute root_path = true /\ is_absolute (fst item) = false /\ 0 <= snd item.

Definition lines_ok (sc : Scanned) : Prop :=
  forall item, In item (loc_map sc) -> 0 <= snd item.

(** ** Sample inputs *)

(** A parser defined on two sample sources: the first is the
    module [import src.core.service], the second is not Python. *)
Definition two_file_parser (source : string) : option module_ :=
  if String.eqb source "import src.core.service" then
    Some (Module [Import [Alias "src.core.service" None]])
  else None.

Definition ui_core_config : ArchConfig :=
  {| layers := ["core"; "ui"]%string;
     mapping := [("src/core", "core"); ("src/ui", "ui")]%string;
     allowed_edges := [["core"; "core"]; ["ui"; "ui"]]%string |}.

Definition two_files : list (string * string) :=
  [("src/ui/view.py", "import src.core.service"); ("src/ui/broken.py", "def (:")]%string.


(** Two fingerprint lists; the second repeats a hash of the first. *)
Definition repeated_hash_files : list (string * list Z) :=
  [("a.py"%string, [1; 2]); ("b.py"%string, [1; 1])].

(** A linear congruential generator, to run the bootstrap on. *)
Definition lcg_Random (seed : Z) : Z := seed mod 2147483648.

Definition lcg_randbelow (g : Z) (n : nat) : nat * Z :=
  let g' := (1103515245 * g + 12345) mod 2147483648 in
  (Z.to_nat (g' mod Z.of_nat n), g').

(** A small duplication configuration and a run of tokens of length
    [k + w - 1]. *)
Definition small_window_config : DuplicationConfig :=
  {| dup_k := 2; dup_w := 2; normalize := normalize DEFAULT_DUPLICATION |}.

Definition shared_run : list string := ["def"; "ID(ID):"; "return"]%string.

Definition stream_prefix : list string := ["import"; "os"]%string.
Definition stream_suffix : list string := ["x"]%string.
Definition other_suffix : list string := ["y"; "z"]%string.

(** [def f(x): if x: return 1 / else: return 2], the statement
    [if y: pass], and the function with that statement inserted at the
    head of the first branch. *)
Definition nested_if : stmt := If (Name "y" Load) [Pass] [].

Definition branching_function (first_branch : list stmt) : stmt :=
  FunctionDef "f" (Arguments [Arg "x" None] None [] None [])
    [If (Name "x" Load) first_branch [Return (Some (Constant (CInt 2)))]] [] None.

Definition simple_branches (n : nat) : list (expr * list stmt) :=
  repeat (Name "c" Load, [Pass]) n.

(** A function with one parameter, called with a keyword argument, and
    the same program with the parameter renamed from [a] to [b]. *)
Definition keyword_call_source : string :=
  "def f(a):" +:+ LF +:+ "    return a" +:+ LF +:+ "f(a=1)" +:+ LF.

Definition keyword_call_renamed_source : string :=
  "def f(b):" +:+ LF +:+ "    return b" +:+ LF +:+ "f(b=1)" +:+ LF.

Definition keyword_call_tree : module_ :=
  Module [FunctionDef "f" (Arguments [Arg "a" None] None [] None [])
            [Return (Some (Name "a" Load))] [] None;
          Expr (Call (Name "f" Load) [] [(Some "a"%string, Constant (CInt 1))])].

Definition a_to_b (id : string) : string := if String.eqb id "a" then "b"%string else id.

Definition keep_constant (c : constant) : constant := c.

Definition keep_name (id : string) : string := id.

(** A parser defined on these two sources. *)
Definition keyword_call_parser (source : string) : option module_ :=
  if String.eqb source keyword_call_source then Some keyword_call_tree
  else if String.eqb source keyword_call_renamed_source then
    Some (rename_module a_to_b keep_constant a_to_b true keyword_call_tree)
  else None.

(** The same function without the call, and a parser for it and its
    renamed form. *)
Definition plain_function_source : string :=
  "def f(a):" +:+ LF +:+ "    return a + 1" +:+ LF.

Definition plain_function_renamed_source : string :=
  "def g(b):" +:+ LF +:+ "    return b + 2" +:+ LF.

Definition plain_function_tree : module_ :=
  Module [FunctionDef "f" (Arguments [Arg "a" None] None [] None [])
            [Return (Some (BinOp (Name "a" Load) Add (Constant (CInt 1))))] [] None].

Definition f_a_to_g_b (id : string) : string :=
  if String.eqb id "a" then "b"%string else if String.eqb id "f" then "g"%string else id.

Definition one_to_two (c : constant) : constant :=
  match c with CInt 1 => CInt 2 | _ => c end.

Definition plain_function_parser (source : string) : option module_ :=
  if String.eqb source plain_function_source then Some plain_function_tree
  else if String.eqb source plain_function_renamed_source then
    Some (rename_module f_a_to_g_b one_to_two keep_name false plain_function_tree)
  else None.

(** What [Path.resolve] guarantees for the enumerated files: an absolute
    path without an empty segment. *)
Definition resolved (path : string) : bool :=
  is_absolute path && negb (Unparse.contains path "//").

(** A rational stand-in for [math.log1p] to run the runner on: the binary
    logarithm of [1 + n], rounded down. Like [log1p] it is 0 at 0, never
    negative on line counts, and positive at 300. *)
Definition log1p_floor (n : Z) : Q := inject_Z (Z.log2 (1 + n)).

(** A project with one file, for which the type checker reports an error
    under the relative path. *)
Definition one_file_parser (source : string) : option module_ :=
  if String.eqb source ("x = 1" +:+ LF) then
    Some (Module [Assign [Name "x" Store] (Constant (CInt 1))])
  else None.

Definition one_file_project : list (string * string) :=
  [("/proj/mod.py"%string, "x = 1" +:+ LF)].

Definition lint_clean : run_outcome (option (list LintMessage)) :=
  Completed {| returncode := 0; stdout := Some []; stderr := EmptyString |}.

Definition lint_unavailable : run_outcome (option (list LintMessage)) :=
  Unavailable "[Errno 2] No such file or directory: 'pylint'".

Definition typing_one_error : run_outcome string :=
  Completed {| returncode := 1; stdout := "mod.py:1: error: Bad  [misc]" +:+ LF;
               stderr := EmptyString |}.

Definition typing_clean : run_outcome string :=
  Completed {| returncode := 0; stdout := EmptyString; stderr := EmptyString |}.

Definition sample_run (enumerated : list (string * string))
    (lint_run : run_outcome (option (list LintMessage))) (typing_run : run_outcome string)
  : pyresult Report :=
  Runner_run one_file_parser log1p_floor Z lcg_Random lcg_randbelow DEFAULT_CONFIG
             "/proj" enumerated lint_run typing_run.

(** Configurations outside the usual ranges: a typing scale that starts
    at 200, a negative lint category weight, a negative metric weight and
    a negative role weight. *)
Definition steep_typing_scale : TypingScale :=
  {| max_score_at_0 := 200%Q; zero_score_at_20 := 20%Q |}.

Definition rewarding_categories : gmap string Q := <["C"%string := (-1)%Q]> ∅.

Definition one_convention : gmap string nat := <["C"%string := 1%nat]> zero_counts.

Definition offsetting_weights : gmap string Q :=
  <["lint"%string := (- (1 # 2))%Q]> (<["duplication"%string := 1%Q]> ∅).

Definition unlinted_metrics : FileMetrics :=
  {| duplication_ratio := 0; fm_lint_counts := zero_counts; lint_weighted_score := 0;
     fm_typing_errors := 0; fm_typing_score := 100; annotation_coverage := 0;
     cognitive_complexity := 0; fm_complexity_score := 100; complexity_per_loc := 0 |}.

Definition offsetting_roles : gmap string Q :=
  <["test"%string := (- (1 # 2))%Q]> (<["default"%string := 1%Q]> ∅).

Definition graded_file (role : string) (grade : Q) : FileReport :=
  {| fr_path := "f.py"; fr_loc := 10; fr_role := role; fr_metrics := unlinted_metrics;
     fr_grade := grade;
     fr_confidence := {| conf_duplication := 1; conf_lint := 1; conf_typing := 1;
                         conf_complexity := 1; conf_overall := 1 |};
     missing_reasons := [] |}.

(** ** Further notions used in the proofs *)

(** The longest prefixes come first. *)
Fixpoint longest_first (l : list (string * string)) : Prop :=
  match l with
  | [] => True
  | x :: l' =>
      (forall y, In y l' -> (String.length (fst y) <= String.length (fst x))%nat)
      /\ longest_first l'
  end.

(** The pairs that [iter_imports] yields for the statements [d] levels
    below a statement list, and the pairs it yields at some level. *)
Definition imports_at (d : nat) (block : list stmt) : list (string * string) :=
  flat_map imports_of_stmt (flat_map (level d) block).

Definition imported_below (block : list stmt) (p : string * string) : Prop :=
  exists d, In p (imports_at d block).

Definition handler_body (h : excepthandler) : list stmt :=
  match h with ExceptHandler _ _ body => body end.

(** ** Further sample inputs *)

(** Two records as pylint prints them: [symbol] is the name of the check,
    [type] its category. *)
Definition unused_import_message : LintMessage :=
  {| msg_path := "/proj/a.py"; msg_symbol := Some "unused-import"%string;
     msg_type := Some "warning"%string |}.

Definition missing_docstring_message : LintMessage :=
  {| msg_path := "/proj/a.py"; msg_symbol := Some "missing-module-docstring"%string;
     msg_type := Some "convention"%string |}.

Definition two_messages : list LintMessage :=
  [unused_import_message; missing_docstring_message].

(** The defaults without resampling, and a project with a file that lies
    outside the scanned root. *)
Definition unsampled_config : Config :=
  {| arch := arch DEFAULT_CONFIG;
     weights_metrics := weights_metrics DEFAULT_CONFIG;
     weights_pylint_categories := weights_pylint_categories DEFAULT_CONFIG;
     weights_roles := weights_roles DEFAULT_CONFIG;
     duplication := duplication DEFAULT_CONFIG;
     bootstrap := {| iterations := 0; seed := 1337 |};
     scoring := scoring DEFAULT_CONFIG |}.

Definition stray_file_project : list (string * string) :=
  [("/proj/mod.py"%string, "x = 1" +:+ LF); ("/usr/lib/site.py"%string, EmptyString)].

(** A default and a user's value for the [bootstrap] key. *)
Definition bootstrap_defaults : list (string * pyobject) :=
  [("bootstrap"%string, PyDict [("iterations"%string, PyInt 100); ("seed"%string, PyInt 1337)])].

Definition bootstrap_seed_override : list (string * pyobject) :=
  [("bootstrap"%string, PyDict [("seed"%string, PyInt 7)])].

(** * Properties

    ** The hash agrees with [hashlib] on sample inputs *)

Example stable_hash_empty : _stable_hash "" = 3558706393.
Proof. vm_compute. reflexivity. Qed.

Example stable_hash_a : _stable_hash "a" = 214005177.
Proof. vm_compute. reflexivity. Qed.

Example stable_hash_long :
  _stable_hash "hello world hello world hello world hello world hello world hello world hello world hello world hello world hello world " = 2520526805.
Proof. vm_compute. reflexivity. Qed.



(** ** The typing score curve (typing.py) *)

Lemma density_nonneg (err_count : nat) (loc : Z) :
  (0 <= inject_Z (Z.of_nat err_count * 1000) / inject_Z (Z.max 1 loc))%Q.
Proof.
  apply Qle_shift_div_l.
  - change 0%Q with (inject_Z 0). rewrite <- Zlt_Qlt. lia.
  - rewrite Qmult_0_l. change 0%Q with (inject_Z 0). rewrite <- Zle_Qle. lia.
Qed.

(** With the threshold at zero the comparison [density >= zero_score_at]
    always holds: the division is never reached and every file scores 0. *)
Lemma typing_score_zero_threshold (max_score : Q) (err_count : nat) (loc : Z) :
  typing_score {| max_score_at_0 := max_score; zero_score_at_20 := 0 |} err_count loc
  = Returns 0%Q.
Proof.
  unfold typing_score, Qleb. cbn [zero_score_at_20 max_score_at_0].
  destruct (Qle_bool 0 _) eqn:E; [reflexivity|].
  exfalso. pose proof (density_nonneg err_count loc) as H.
  apply Qle_bool_iff in H. rewrite H in E. discriminate.
Qed.

(** The curve never raises: the slope is only computed below a positive
    threshold. *)
Lemma typing_score_returns (scale : TypingScale) (err_count : nat) (loc : Z) :
  ∃ s, typing_score scale err_count loc = Returns s.
Proof.
  unfold typing_score, Qleb, py_div.
  destruct (Qle_bool (zero_score_at_20 scale) _) eqn:E; [eauto|].
  destruct (Qeq_bool (zero_score_at_20 scale) 0) eqn:Z0; [|cbn; eauto].
  exfalso. apply Qeq_bool_iff in Z0.
  assert (Qle_bool (zero_score_at_20 scale)
            (inject_Z (Z.of_nat err_count * 1000) / inject_Z (Z.max 1 loc)) = true) as H.
  { apply Qle_bool_iff. rewrite Z0. apply density_nonneg. }
  congruence.
Qed.

(** C1, evaluated on the code: under the default scale
    ([max_score_at_0 = 100], [zero_score_at_20 = 0]) a file of ten lines
    for which the type checker printed nothing has density 0 and is scored
    0 by [TypingAnalyzer.analyze], not [max_score_at_0]. *)
Theorem C1_zero_errors_scored_zero :
  ∃ result,
    TypingAnalyzer_analyze DEFAULT_TYPING_SCALE
      (Completed {| returncode := 0; stdout := EmptyString; stderr := EmptyString |})
      [("mod.py"%string, 10)] ∅ = Returns result
    ∧ typing_errors result !! "mod.py"%string = None
    ∧ typing_scores result !! "mod.py"%string = Some 0%Q
    ∧ ¬ (0 == max_score_at_0 DEFAULT_TYPING_SCALE)%Q.
Proof.
  eexists. split; [vm_compute; reflexivity|].
  split; [reflexivity|]. split; [reflexivity|].
  cbn. intros H. discriminate H.
Qed.


(** ** Architecture conformance (architecture.py) *)

Section ArchitectureFacts.

Variable ast_parse : string -> option module_.
Variable config : ArchConfig.

Lemma safe_parse_failed (source : string) :
  snd (safe_parse ast_parse source) = false → safe_parse ast_parse source = (None, false).
Proof. unfold safe_parse. destruct (ast_parse source); [discriminate|reflexivity]. Qed.

Lemma violations_of_file_file (path : string) (tree : module_) (v : ArchitectureViolation) :
  In v (violations_of_file config path tree) → file v = path.
Proof.
  unfold violations_of_file.
  destruct (_layer_for_path config path) as [from|]; [|intros []].
  rewrite in_flat_map. intros ([full root] & _ & Hv).
  destruct (_layer_for_module _ _); [|destruct Hv].
  destruct (existsb _ _); [destruct Hv|].
  destruct Hv as [<-|[]]. reflexivity.
Qed.

(** Every violation comes from an item of the dictionary whose source
    parsed. *)
Lemma analyze_violation_origin (files : list (string * string)) (v : ArchitectureViolation) :
  In v (ArchitectureAnalyzer_analyze ast_parse config files) →
  ∃ source tree, In (file v, source) files ∧ safe_parse ast_parse source = (Some tree, true).
Proof.
  unfold ArchitectureAnalyzer_analyze. rewrite in_flat_map.
  intros ([path source] & Hin & Hv). cbn [fst snd] in Hv.
  destruct (safe_parse ast_parse source) as [[tree|] [|]] eqn:E; try destruct Hv.
  apply violations_of_file_file in Hv. subst path. eauto.
Qed.

End ArchitectureFacts.

(** C10. A file whose source does not parse ([safe_parse] answers
    [ok = false]) has no violation attributed to it, whatever the layer
    mapping and the allowed edges. *)
Theorem C10_unparsed_file_has_no_violation
    (ast_parse : string -> option module_) (config : ArchConfig)
    (files : list (string * string)) (path : string) :
  (∀ source, In (path, source) files → snd (safe_parse ast_parse source) = false) →
  ∀ v, In v (ArchitectureAnalyzer_analyze ast_parse config files) → file v ≠ path.
Proof.
  intros Hfail v Hv Heq.
  destruct (analyze_violation_origin ast_parse config files v Hv) as (source & tree & Hin & Hok).
  rewrite Heq in Hin. specialize (Hfail source Hin).
  rewrite Hok in Hfail. discriminate.
Qed.

Lemma C10_witness :
  ArchitectureAnalyzer_analyze two_file_parser ui_core_config two_files
  = [{| file := "src/ui/view.py"; from_layer := "ui"; to_layer := "core";
        import_name := "src.core.service" |}]
  ∧ ∀ v, In v (ArchitectureAnalyzer_analyze two_file_parser ui_core_config two_files) →
         file v ≠ "src/ui/broken.py"%string.
Proof.
  split; [vm_compute; reflexivity|].
  apply (C10_unparsed_file_has_no_violation two_file_parser ui_core_config two_files).
  intros source Hin. cbn in Hin.
  destruct Hin as [H|[H|[]]]; inversion H; subst. vm_compute. reflexivity.
Defined.


(** ** Overlap ratios (duplication.py, [_compute_ratios]) *)

Lemma intersection_size_distinct (fprints other : list Z) :
  intersection_size (list_to_set fprints) other
  = occurrences_in fprints (remove_dups other).
Proof.
  unfold intersection_size, occurrences_in.
  assert (list_to_set fprints ∩ list_to_set other
          = (list_to_set (List.filter (fun h => bool_decide (h ∈ fprints)) (remove_dups other))
             : gset Z)) as ->.
  { apply set_eq. intros h.
    rewrite elem_of_intersection, !elem_of_list_to_set.
    rewrite (list_elem_of_In (List.filter _ _) h), filter_In.
    rewrite <- list_elem_of_In, elem_of_remove_dups, bool_decide_eq_true. tauto. }
  apply size_list_to_set.
  apply NoDup_ListNoDup, List.NoDup_filter, NoDup_ListNoDup, NoDup_remove_dups.
Qed.

Lemma overlaps_fold (set_self : gset Z) (path : string) (items : list (string * list Z))
    (acc : nat) :
  fold_left (fun overlaps other =>
               if String.eqb (fst other) path then overlaps
               else (overlaps + intersection_size set_self (snd other))%nat) items acc
  = (acc + list_sum (List.map (fun g => intersection_size set_self (snd g))
                              (other_files items path)))%nat.
Proof.
  unfold other_files.
  revert acc. induction items as [|g items IH]; intros acc; cbn [fold_left List.filter].
  - cbn. lia.
  - rewrite IH. destruct (String.eqb (fst g) path); cbn [negb List.map list_sum].
    + reflexivity.
    + symmetry. apply Nat.add_assoc.
Qed.

Lemma overlaps_of_distinct (items : list (string * list Z)) (path : string) (fprints : list Z) :
  overlaps_of items path fprints = overlap_count_distinct items path fprints.
Proof.
  unfold overlaps_of, overlap_count_distinct. rewrite overlaps_fold. cbn.
  f_equal. apply map_ext. intros g. apply intersection_size_distinct.
Qed.

Lemma size_set_distinct (fprints : list Z) :
  size (list_to_set fprints : gset Z) = length (remove_dups fprints).
Proof.
  rewrite <- (size_list_to_set (C := gset Z) (remove_dups fprints)) by apply NoDup_remove_dups.
  f_equal. apply set_eq. intros h.
  rewrite !elem_of_list_to_set, elem_of_remove_dups. tauto.
Qed.

Lemma ratio_of_distinct (items : list (string * list Z)) (path : string) (fprints : list Z) :
  ratio_of items path fprints
  = ratio_from (overlap_count_distinct items path fprints) fprints.
Proof.
  unfold ratio_of, ratio_from. destruct fprints as [|h t]; [reflexivity|].
  rewrite overlaps_of_distinct, size_set_distinct. reflexivity.
Qed.

(** The dictionary that the loop fills: looking a path up gives the ratio
    computed for its item. *)
Lemma compute_ratios_fold (all items : list (string * list Z)) (acc : gmap string Q)
    (path : string) (fprints : list Z) :
  NoDup (List.map fst items) → In (path, fprints) items →
  fold_left (fun ratio item => <[fst item := ratio_of all (fst item) (snd item)]> ratio)
            items acc !! path
  = Some (ratio_of all path fprints).
Proof.
  revert acc. induction items as [|g items IH]; intros acc Hnd Hin; [destruct Hin|].
  cbn in Hnd. apply NoDup_cons in Hnd as [Hfresh Hnd]. cbn.
  destruct Hin as [->|Hin]; [|apply IH; assumption].
  cbn [fst snd] in *. clear IH.
  assert (∀ acc : gmap string Q, acc !! path = Some (ratio_of all path fprints) →
            fold_left (fun ratio item => <[fst item := ratio_of all (fst item) (snd item)]> ratio)
                      items acc !! path = Some (ratio_of all path fprints)) as Hkeep.
  { clear Hnd. induction items as [|g' items IH]; intros acc' Hacc; [exact Hacc|].
    cbn in Hfresh. apply not_elem_of_cons in Hfresh as [Hne Hfresh].
    cbn. apply IH; [exact Hfresh|].
    rewrite lookup_insert_ne; [exact Hacc|]. congruence. }
  apply Hkeep. apply lookup_insert_eq.
Qed.

(** C3, as the code has it. For the fingerprint lists of a set of files
    (a dictionary: no path occurs twice), the ratio stored for a file [f]
    is [min(1, overlap_count(f) / max(1, |S_f|))], and 0 when [F_f] is
    empty, where [overlap_count(f)] sums over every other file [g] the
    number of distinct hashes of [F_g] that lie in [S_f]: a hash that
    occurs several times in [F_g] is counted once. *)
Theorem C3_overlap_counts_distinct_hashes
    (fingerprints : list (string * list Z)) (path : string) (fprints : list Z) :
  NoDup (List.map fst fingerprints) →
  In (path, fprints) fingerprints →
  overlaps_of fingerprints path fprints = overlap_count_distinct fingerprints path fprints
  ∧ _compute_ratios fingerprints !! path
    = Some (ratio_from (overlap_count_distinct fingerprints path fprints) fprints)
  ∧ (fprints = [] → _compute_ratios fingerprints !! path = Some 0%Q).
Proof.
  intros Hnd Hin.
  assert (_compute_ratios fingerprints !! path
          = Some (ratio_from (overlap_count_distinct fingerprints path fprints) fprints)) as H.
  { unfold _compute_ratios. rewrite (compute_ratios_fold _ _ _ path fprints Hnd Hin).
    rewrite ratio_of_distinct. reflexivity. }
  split; [apply overlaps_of_distinct|]. split; [exact H|].
  intros ->. exact H.
Qed.

Lemma C3_witness :
  overlaps_of repeated_hash_files "a.py" [1; 2]
  = overlap_count_distinct repeated_hash_files "a.py" [1; 2]
  ∧ _compute_ratios repeated_hash_files !! "a.py"%string
    = Some (ratio_from (overlap_count_distinct repeated_hash_files "a.py" [1; 2]) [1; 2])
  ∧ (([1; 2] : list Z) = [] → _compute_ratios repeated_hash_files !! "a.py"%string = Some 0%Q).
Proof.
  apply (C3_overlap_counts_distinct_hashes repeated_hash_files "a.py" [1; 2]).
  - cbn. apply NoDup_cons. split; [|apply NoDup_singleton].
    rewrite list_elem_of_singleton. discriminate.
  - cbn. left. reflexivity.
Defined.

(** C3 as stated fails: with [F_a = [1, 2]] and [F_b = [1, 1]] the hash 1
    occurs twice in [F_b], the count with multiplicity is 2 and would give
    ratio 1, while the code counts it once and stores 1/2. *)
Lemma C3_multiplicity_counterexample :
  overlap_count_multiset repeated_hash_files "a.py" [1; 2] = 2%nat
  ∧ overlaps_of repeated_hash_files "a.py" [1; 2] = 1%nat
  ∧ ∃ r, _compute_ratios repeated_hash_files !! "a.py"%string = Some r
         ∧ (r == 1 # 2)%Q
         ∧ ¬ (r == ratio_from (overlap_count_multiset repeated_hash_files "a.py" [1; 2]%Z)
                               [1; 2]%Z)%Q.
Proof.
  split; [reflexivity|]. split; [vm_compute; reflexivity|].
  eexists. split; [vm_compute; reflexivity|].
  split; [reflexivity|]. vm_compute. discriminate.
Qed.

From Stdlib Require Import Sorting.Sorted.

(** ** The bootstrap interval (runner.py, [_bootstrap_interval]) *)

Lemma py_index_in_bounds {A : Type} (l : list A) (i : Z) :
  0 <= i < Z.of_nat (length l) →
  ∃ a, py_index l i = Returns a ∧ nth_error l (Z.to_nat i) = Some a.
Proof.
  intros Hi. unfold py_index.
  destruct (Z.ltb_spec i 0); [lia|].
  destruct (Z.leb_spec 0 i); [|lia].
  destruct (Z.ltb_spec i (Z.of_nat (length l))); [|lia]. cbn.
  destruct (nth_error l (Z.to_nat i)) as [a|] eqn:E; [eauto|].
  apply nth_error_None in E. lia.
Qed.

Lemma py_index_empty {A : Type} (i : Z) : py_index (@nil A) i = Raises IndexError.
Proof.
  unfold py_index. cbn [length].
  destruct (_ && _); [|reflexivity].
  destruct (Z.to_nat _); reflexivity.
Qed.

(** *** [int(0.05 * (n - 1))] and [int(0.95 * (n - 1))] *)

Lemma py_int_scaled (c : Z) (m : Z) :
  py_int ((c # 100) * inject_Z m) = Z.quot (c * m) 100.
Proof. reflexivity. Qed.

Lemma idx_bounds (n : Z) :
  1 <= n →
  lower_idx n = py_int ((5 # 100) * inject_Z (n - 1))
  ∧ upper_idx n = py_int ((95 # 100) * inject_Z (n - 1))
  ∧ 0 <= lower_idx n ∧ lower_idx n <= upper_idx n ∧ upper_idx n <= n - 1.
Proof.
  intros Hn. unfold lower_idx, upper_idx. rewrite !py_int_scaled.
  rewrite !Z.quot_div_nonneg by lia.
  assert (0 <= 5 * (n - 1) / 100) by (apply Z.div_pos; lia).
  assert (5 * (n - 1) / 100 <= 95 * (n - 1) / 100) by (apply Z.div_le_mono; lia).
  assert (95 * (n - 1) / 100 <= n - 1) by (apply Z.div_le_upper_bound; lia).
  lia.
Qed.

Lemma idx_of_zero : lower_idx 0 = 0 ∧ upper_idx 0 = -1.
Proof. split; reflexivity. Qed.

(** *** [samples.sort()] *)

Lemma Qleb_total (x y : Q) : Qleb x y = false → (y <= x)%Q.
Proof.
  unfold Qleb. intros H. destruct (Qlt_le_dec y x) as [Hlt|Hle].
  - apply Qlt_le_weak. exact Hlt.
  - apply Qle_bool_iff in Hle. congruence.
Qed.

Lemma insert_sorted_perm (x : Q) (l : list Q) : Permutation (x :: l) (insert_sorted x l).
Proof.
  induction l as [|y l IH]; cbn; [reflexivity|].
  destruct (Qleb x y); [reflexivity|].
  rewrite perm_swap. apply perm_skip. exact IH.
Qed.

Lemma sort_floats_perm (l : list Q) : Permutation l (sort_floats l).
Proof.
  induction l as [|x l IH]; cbn; [reflexivity|].
  rewrite <- insert_sorted_perm. apply perm_skip. exact IH.
Qed.

Lemma insert_sorted_sorted (x : Q) (l : list Q) :
  StronglySorted Qle l → StronglySorted Qle (insert_sorted x l).
Proof.
  induction 1 as [|y l Hs IH Hall]; cbn.
  - constructor; constructor.
  - destruct (Qleb x y) eqn:E.
    + apply Qle_bool_iff in E. constructor; [constructor; assumption|].
      constructor; [exact E|].
      eapply Forall_impl; [exact Hall|]. intros z Hz. cbn. eapply Qle_trans; eassumption.
    + apply Qleb_total in E. constructor; [exact IH|].
      eapply Permutation_Forall; [apply insert_sorted_perm|].
      constructor; assumption.
Qed.

Lemma sort_floats_sorted (l : list Q) : StronglySorted Qle (sort_floats l).
Proof.
  induction l as [|x l IH]; cbn; [constructor|].
  apply insert_sorted_sorted. exact IH.
Qed.

Lemma sorted_nth_le (l : list Q) (i j : nat) (a b : Q) :
  StronglySorted Qle l → (i <= j)%nat →
  nth_error l i = Some a → nth_error l j = Some b → (a <= b)%Q.
Proof.
  intros Hs. revert i j. induction Hs as [|x l Hs IH Hall]; intros i j Hij Hi Hj.
  - destruct i; discriminate.
  - destruct i as [|i], j as [|j]; cbn in Hi, Hj.
    + injection Hi as <-. injection Hj as <-. apply Qle_refl.
    + injection Hi as <-. apply nth_error_In in Hj.
      rewrite Forall_forall in Hall. apply Hall. apply list_elem_of_In. exact Hj.
    + lia.
    + apply (IH i j); [lia|assumption..].
Qed.

Section BootstrapFacts.

Variable rng : Type.
Variable Random : Z -> rng.
Variable randbelow : rng -> nat -> nat * rng.

(** [random.Random.choice] indexes the sequence below its length. *)
Hypothesis randbelow_lt : ∀ g n, (0 < n)%nat → (fst (randbelow g n) < n)%nat.

Lemma choice_returns (values : list Q) (g : rng) :
  values ≠ [] → ∃ x, fst (choice rng randbelow values g) = Returns x.
Proof.
  intros Hne. unfold choice.
  pose proof (randbelow_lt g (length values)) as Hlt.
  destruct (randbelow g (length values)) as [i g'] eqn:E. cbn in *.
  assert (0 < length values)%nat by (destruct values; [congruence|cbn; lia]).
  destruct (py_index_in_bounds values (Z.of_nat i)) as (a & Ha & _); [lia|]. eauto.
Qed.

Lemma draw_sample_returns (values : list Q) (n : nat) (g : rng) :
  values ≠ [] → ∃ xs, fst (draw_sample rng randbelow values n g) = Returns xs.
Proof.
  intros Hne. revert g. induction n as [|n IH]; intros g; cbn; [eauto|].
  destruct (choice_returns values g Hne) as (x & Hx).
  destruct (choice rng randbelow values g) as [rx g1]. cbn in Hx. subst rx.
  destruct (IH g1) as (xs & Hxs).
  destruct (draw_sample rng randbelow values n g1) as [rxs g2]. cbn in Hxs. subst rxs.
  cbn. eauto.
Qed.

Lemma draw_means_returns (values : list Q) (n : nat) (g : rng) :
  values ≠ [] →
  ∃ means, draw_means rng randbelow values n g = Returns means ∧ length means = n.
Proof.
  intros Hne. revert g. induction n as [|n IH]; intros g; cbn; [eauto|].
  destruct (draw_sample_returns values (length values) g Hne) as (xs & Hxs).
  destruct (draw_sample rng randbelow values (length values) g) as [rxs g1].
  cbn in Hxs. subst rxs. cbn.
  destruct (IH g1) as (means & -> & Hlen). cbn. eexists. split; [reflexivity|].
  cbn. congruence.
Qed.

Lemma bootstrap_interval_spec (values : list Q) (iterations seed : Z) :
  values ≠ [] →
  1 <= iterations →
  ∃ means lo hi,
    draw_means rng randbelow values (Z.to_nat iterations) (Random seed) = Returns means
    ∧ Z.of_nat (length means) = iterations
    ∧ py_index (sort_floats means) (lower_idx iterations) = Returns lo
    ∧ py_index (sort_floats means) (upper_idx iterations) = Returns hi
    ∧ _bootstrap_interval rng Random randbelow values iterations seed = Returns [lo; hi]
    ∧ (lo <= hi)%Q ∧ In lo means ∧ In hi means.
Proof.
  intros Hne Hit.
  destruct (draw_means_returns values (Z.to_nat iterations) (Random seed) Hne)
    as (means & Hmeans & Hlen).
  assert (Z.of_nat (length means) = iterations) as Hn by lia.
  assert (length (sort_floats means) = length means) as Hslen.
  { symmetry. apply Permutation_length, sort_floats_perm. }
  destruct (idx_bounds iterations Hit) as (_ & _ & H0 & Hlu & Hu).
  destruct (py_index_in_bounds (sort_floats means) (lower_idx iterations)) as (lo & Hlo & Hnlo);
    [lia|].
  destruct (py_index_in_bounds (sort_floats means) (upper_idx iterations)) as (hi & Hhi & Hnhi);
    [lia|].
  exists means, lo, hi. repeat split; try assumption.
  - unfold _bootstrap_interval. destruct values as [|v values]; [congruence|].
    rewrite Hmeans. cbn [pybind]. rewrite Hslen, Hn, Hlo. cbn [pybind].
    rewrite Hhi. reflexivity.
  - eapply (sorted_nth_le (sort_floats means)); [apply sort_floats_sorted| |eassumption..].
    lia.
  - eapply Permutation_in; [symmetry; apply sort_floats_perm|].
    eapply nth_error_In; eassumption.
  - eapply Permutation_in; [symmetry; apply sort_floats_perm|].
    eapply nth_error_In; eassumption.
Qed.

Lemma bootstrap_interval_no_iterations (values : list Q) (iterations seed : Z) :
  values ≠ [] → iterations <= 0 →
  _bootstrap_interval rng Random randbelow values iterations seed = Raises IndexError.
Proof.
  intros Hne Hit. unfold _bootstrap_interval.
  destruct values as [|v values]; [congruence|].
  replace (Z.to_nat iterations) with O by lia. cbn [draw_means pybind sort_floats fold_right].
  rewrite py_index_empty. reflexivity.
Qed.

End BootstrapFacts.

(** C9. For a non-empty list of grades and a generator whose [choice]
    indexes within the list: with [iterations >= 1] the two indices are
    [int(0.05 * (n - 1))] and [int(0.95 * (n - 1))] for [n = iterations],
    they satisfy [0 <= lower <= upper <= n - 1], both accesses succeed and
    [_bootstrap_interval] returns [[lo, hi]] with [lo <= hi], both among
    the sampled means; with [iterations <= 0] no mean is sampled and the
    access raises [IndexError]. *)
Theorem C9_bootstrap_interval_in_bounds
    (rng : Type) (Random : Z -> rng) (randbelow : rng -> nat -> nat * rng)
    (values : list Q) (iterations seed : Z) :
  (∀ g n, (0 < n)%nat → (fst (randbelow g n) < n)%nat) →
  values ≠ [] →
  (1 <= iterations →
     lower_idx iterations = py_int ((5 # 100) * inject_Z (iterations - 1))
     ∧ upper_idx iterations = py_int ((95 # 100) * inject_Z (iterations - 1))
     ∧ 0 <= lower_idx iterations
     ∧ lower_idx iterations <= upper_idx iterations
     ∧ upper_idx iterations <= iterations - 1
     ∧ ∃ means lo hi,
         draw_means rng randbelow values (Z.to_nat iterations) (Random seed) = Returns means
         ∧ Z.of_nat (length means) = iterations
         ∧ py_index (sort_floats means) (lower_idx iterations) = Returns lo
         ∧ py_index (sort_floats means) (upper_idx iterations) = Returns hi
         ∧ _bootstrap_interval rng Random randbelow values iterations seed = Returns [lo; hi]
         ∧ (lo <= hi)%Q ∧ In lo means ∧ In hi means)
  ∧ (iterations <= 0 →
     _bootstrap_interval rng Random randbelow values iterations seed = Raises IndexError).
Proof.
  intros Hrng Hne. split.
  - intros Hit. destruct (idx_bounds iterations Hit) as (Hl & Hu & H0 & Hlu & Hun).
    repeat (split; [assumption|]).
    apply bootstrap_interval_spec; assumption.
  - intros Hit. apply bootstrap_interval_no_iterations; assumption.
Qed.

Lemma lcg_randbelow_lt (g : Z) (n : nat) : (0 < n)%nat → (fst (lcg_randbelow g n) < n)%nat.
Proof.
  intros Hn. unfold lcg_randbelow. cbn [fst].
  pose proof (Z.mod_pos_bound ((1103515245 * g + 12345) mod 2147483648) (Z.of_nat n)).
  lia.
Qed.

Lemma C9_witness :
  (∃ lo hi,
     _bootstrap_interval Z lcg_Random lcg_randbelow [80; 60; 100]%Q 100 1337 = Returns [lo; hi]
     ∧ (lo <= hi)%Q)
  ∧ _bootstrap_interval Z lcg_Random lcg_randbelow [80; 60; 100]%Q 0 1337 = Raises IndexError.
Proof.
  assert ([80; 60; 100]%Q ≠ []) as Hne by discriminate.
  destruct (C9_bootstrap_interval_in_bounds Z lcg_Random lcg_randbelow
              [80; 60; 100]%Q 100 1337 lcg_randbelow_lt Hne) as [H1 _].
  destruct (C9_bootstrap_interval_in_bounds Z lcg_Random lcg_randbelow
              [80; 60; 100]%Q 0 1337 lcg_randbelow_lt Hne) as [_ H0].
  split; [|apply H0; lia].
  destruct H1 as (_ & _ & _ & _ & _ & means & lo & hi & _ & _ & _ & _ & Hres & Hle & _); [lia|].
  exists lo, hi. split; assumption.
Defined.

Example bootstrap_interval_sample :
  _bootstrap_interval Z lcg_Random lcg_randbelow [80; 60; 100]%Q 100 1337
  = Returns [(200 # 3)%Q; (280 # 3)%Q].
Proof. vm_compute. reflexivity. Qed.


(** ** Winnowing (duplication.py, [_fingerprints]) *)

(** The hash that [min] selects only depends on the hashes in the window. *)
Lemma smaller_pair_fst (x best : Z * Z) :
  fst (if pair_ltb x best then x else best) = Z.min (fst best) (fst x).
Proof.
  unfold pair_ltb.
  destruct (Z.ltb_spec (fst x) (fst best)); cbn [orb]; [lia|].
  destruct (Z.eqb_spec (fst x) (fst best)); cbn [andb]; [|lia].
  destruct (snd x <? snd best); lia.
Qed.

Lemma min_from_fst (best : Z * Z) (l : list (Z * Z)) :
  fst (min_from best l) = least_hash (fst best) (List.map fst l).
Proof.
  revert best. induction l as [|x l IH]; intros best; [reflexivity|].
  cbn [min_from List.map]. rewrite IH, smaller_pair_fst. reflexivity.
Qed.

Lemma window_min_fst (x : Z * Z) (l : list (Z * Z)) :
  fst (window_min (x :: l)) = least_hash (fst x) (List.map fst l).
Proof. apply min_from_fst. Qed.

Lemma seq_head (a n : nat) : (1 <= n)%nat → seq a n = a :: seq (S a) (n - 1).
Proof. destruct n as [|n]; [lia|]. intros _. cbn. rewrite Nat.sub_0_r. reflexivity. Qed.

Lemma seq_offset (a b n : nat) : seq (a + b) n = List.map (fun j => (a + j)%nat) (seq b n).
Proof.
  revert b. induction n as [|n IH]; intros b; [reflexivity|].
  cbn. f_equal. rewrite <- IH. f_equal. lia.
Qed.

Section WinnowingFacts.

Variable hash : string -> Z.
Variable k w : nat.
Hypothesis w_pos : (1 <= w)%nat.

Section OneStream.

Variable tokens : list string.

Local Abbreviation kgram_hash := (kgram_hash hash k tokens).
Local Abbreviation entry := (entry hash k tokens).
Local Abbreviation window_at := (window_at hash k w tokens).
Local Abbreviation winnow := (winnow hash k w tokens).

Lemma winnow_S (n : nat) : winnow (S n) = winnow_step hash tokens k w (winnow n) n.
Proof. unfold winnow. rewrite seq_S, fold_left_app. reflexivity. Qed.

Lemma winnow_window (n : nat) :
  ws_window (winnow n) = List.map entry (seq (n - Nat.min n w) (Nat.min n w)).
Proof.
  induction n as [|n IH]; [reflexivity|].
  rewrite winnow_S. unfold winnow_step. rewrite IH.
  remember (Nat.min n w) as m eqn:Hm.
  assert (List.map entry (seq (n - m) m) ++ [(hash (join " " (firstn k (skipn n tokens))), Z.of_nat n)]
          = List.map entry (seq (n - m) (S m))) as ->.
  { rewrite seq_S, List.map_app. cbn. unfold entry at 3, kgram_hash.
    replace (n - m + m)%nat with n by lia. reflexivity. }
  assert (ws_window
            (if decide (ws_min (winnow n) =
                        Some (window_min (if (w <? length (List.map entry (seq (n - m) (S m))))%nat
                                          then tl (List.map entry (seq (n - m) (S m)))
                                          else List.map entry (seq (n - m) (S m)))))
             then _ else _)
          = (if (w <? length (List.map entry (seq (n - m) (S m))))%nat
             then tl (List.map entry (seq (n - m) (S m)))
             else List.map entry (seq (n - m) (S m)))) as ->.
  { destruct (decide _); reflexivity. }
  rewrite length_map, length_seq.
  destruct (Nat.ltb_spec w (S m)) as [Hlt|Hge].
  - assert (m = w) as Hmw by lia.
    replace (Nat.min (S n) w) with w by lia.
    cbn [seq List.map tl].
    replace (S (n - m)) with (S n - w)%nat by lia. rewrite Hmw. reflexivity.
  - replace (Nat.min (S n) w) with (S m) by lia.
    replace (S n - S m)%nat with (n - m)%nat by lia. reflexivity.
Qed.

Lemma winnow_step_window (n : nat) :
  ∃ st_min st_hashes,
    winnow (S n) = {| ws_window := window_at n; ws_min := st_min; ws_hashes := st_hashes |}.
Proof.
  pose proof (winnow_window (S n)) as H. unfold window_at.
  destruct (winnow (S n)) as [win mn hs]. cbn in H. subst win. eauto.
Qed.

(** The iteration for position [n] computes the minimum of [window_at n]
    and makes sure its hash is in the list. *)
Lemma winnow_step_spec (n : nat) :
  let st := winnow n in
  let current_min := window_min (window_at n) in
  (ws_min st = Some current_min ∧ winnow (S n) = {| ws_window := window_at n; ws_min := ws_min st;
                                                     ws_hashes := ws_hashes st |})
  ∨ (ws_min st ≠ Some current_min
     ∧ winnow (S n) = {| ws_window := window_at n; ws_min := Some current_min;
                         ws_hashes := ws_hashes st ++ [fst current_min] |}).
Proof.
  cbn zeta.
  assert (ws_window (winnow (S n)) = window_at n) as Hwin.
  { destruct (winnow_step_window n) as (a & b & ->). reflexivity. }
  revert Hwin. rewrite winnow_S. unfold winnow_step.
  set (win := if (w <? _)%nat then _ else _).
  destruct (decide (ws_min (winnow n) = Some (window_min win))) as [Heq|Hne];
    cbn [ws_window]; intros <-.
  - left. split; [exact Heq|reflexivity].
  - right. split; [exact Hne|reflexivity].
Qed.

Lemma winnow_invariant (n : nat) :
  (∀ c, ws_min (winnow n) = Some c → In (fst c) (ws_hashes (winnow n)))
  ∧ (∀ i, (i < n)%nat → In (fst (window_min (window_at i))) (ws_hashes (winnow n))).
Proof.
  induction n as [|n [IHmin IHall]].
  - split; [intros c H; discriminate|intros i Hi; lia].
  - destruct (winnow_step_spec n) as [[Heq ->]|[Hne ->]]; cbn [ws_min ws_hashes].
    + split; [exact IHmin|].
      intros i Hi. destruct (Nat.eq_dec i n) as [->|Hin].
      * apply IHmin. exact Heq.
      * apply IHall. lia.
    + split.
      * intros c [= <-]. apply in_or_app. right. left. reflexivity.
      * intros i Hi. apply in_or_app. destruct (Nat.eq_dec i n) as [->|Hin].
        -- right. left. reflexivity.
        -- left. apply IHall. lia.
Qed.

(** Every full window contributes the least of its hashes. *)
Lemma full_window_selected (a : nat) :
  (k <= length tokens)%nat → (a + w + k <= length tokens + 1)%nat →
  In (least_hash (kgram_hash a) (List.map kgram_hash (seq (S a) (w - 1))))
     (fingerprints_with hash k w tokens).
Proof.
  intros Hk Ha. unfold fingerprints_with.
  destruct (Nat.ltb_spec (length tokens) k); [lia|].
  destruct (winnow_invariant (length tokens - k + 1)) as [_ Hall].
  specialize (Hall (a + w - 1)%nat).
  unfold window_at in Hall.
  replace (Nat.min (S (a + w - 1)) w) with w in Hall by lia.
  replace (S (a + w - 1) - w)%nat with a in Hall by lia.
  rewrite (seq_head a w w_pos) in Hall.
  cbn [List.map] in Hall. rewrite window_min_fst in Hall.
  rewrite List.map_map in Hall. cbn [entry fst] in Hall.
  apply Hall. lia.
Qed.

End OneStream.

Lemma kgram_of_shared (pre shared post : list string) (j : nat) :
  (j + k <= length shared)%nat →
  kgram_hash hash k (pre ++ shared ++ post) (length pre + j)
  = hash (join " " (firstn k (skipn j shared))).
Proof.
  intros Hj. unfold kgram_hash. do 2 f_equal.
  rewrite skipn_app. rewrite skipn_all2 by lia. cbn [app].
  replace (length pre + j - length pre)%nat with j by lia.
  rewrite skipn_app, firstn_app.
  rewrite length_skipn.
  replace (k - (length shared - j))%nat with O by lia.
  cbn [firstn]. rewrite app_nil_r. reflexivity.
Qed.

Lemma shared_hash_selected (pre shared post : list string) :
  (k + w <= length shared + 1)%nat →
  In (shared_hash hash k w shared) (fingerprints_with hash k w (pre ++ shared ++ post)).
Proof.
  intros Hlen.
  pose proof (full_window_selected (pre ++ shared ++ post) (length pre)) as H.
  rewrite !length_app in H.
  assert (kgram_hash hash k (pre ++ shared ++ post) (length pre)
          = hash (join " " (firstn k shared))) as E0.
  { rewrite <- (Nat.add_0_r (length pre)). rewrite kgram_of_shared by lia. reflexivity. }
  assert (List.map (kgram_hash hash k (pre ++ shared ++ post)) (seq (S (length pre)) (w - 1))
          = List.map (fun j => hash (join " " (firstn k (skipn j shared)))) (seq 1 (w - 1))) as E1.
  { rewrite <- (Nat.add_1_r (length pre)), seq_offset, List.map_map.
    apply map_ext_in. intros j Hj. apply in_seq in Hj.
    apply kgram_of_shared. lia. }
  unfold shared_hash. rewrite <- E0, <- E1. apply H; lia.
Qed.

End WinnowingFacts.

(** C5. With [k >= 1] and [w >= 1], two token streams that share a
    contiguous run of at least [k + w - 1] tokens have a common hash in the
    fingerprint lists that [_fingerprints] selects. *)
Theorem C5_shared_run_shares_a_fingerprint
    (config : DuplicationConfig) (shared pre_a post_a pre_b post_b : list string) :
  1 <= dup_k config → 1 <= dup_w config →
  dup_k config + dup_w config - 1 <= Z.of_nat (length shared) →
  ∃ h, In h (_fingerprints config (pre_a ++ shared ++ post_a))
       ∧ In h (_fingerprints config (pre_b ++ shared ++ post_b)).
Proof.
  intros Hk Hw Hlen. unfold _fingerprints.
  exists (shared_hash _stable_hash (Z.to_nat (Z.max 1 (dup_k config)))
                      (Z.to_nat (Z.max 1 (dup_w config))) shared).
  split; apply shared_hash_selected; lia.
Qed.

Lemma C5_witness :
  ∃ h, In h (_fingerprints small_window_config (stream_prefix ++ shared_run ++ stream_suffix))
       ∧ In h (_fingerprints small_window_config ([] ++ shared_run ++ other_suffix)).
Proof.
  apply (C5_shared_run_shares_a_fingerprint small_window_config shared_run).
  - cbn. lia.
  - cbn. lia.
  - cbn. lia.
Defined.

Example winnowing_sample :
  _fingerprints small_window_config (stream_prefix ++ shared_run ++ stream_suffix)
  = [3986639759; 1025930528; 950102143]
  ∧ _fingerprints small_window_config ([] ++ shared_run ++ other_suffix)
    = [2908977123; 950102143; 3004401453].
Proof. vm_compute. split; reflexivity. Qed.


(** ** Cognitive complexity (complexity.py, [_compute]) *)

(** *** Induction on syntax trees *)

Section ExprInduction.

Variable P : expr → Prop.

Hypothesis H_BoolOp : ∀ op values, Forall P values → P (BoolOp op values).
Hypothesis H_BinOp : ∀ l op r, P l → P r → P (BinOp l op r).
Hypothesis H_UnaryOp : ∀ op operand, P operand → P (UnaryOp op operand).
Hypothesis H_Compare : ∀ l ops comparators, P l → Forall P comparators → P (Compare l ops comparators).
Hypothesis H_Call : ∀ func args keywords,
  P func → Forall P args → Forall (fun kw => P (snd kw)) keywords → P (Call func args keywords).
Hypothesis H_Constant : ∀ value, P (Constant value).
Hypothesis H_Attribute : ∀ value attr ctx, P value → P (Attribute value attr ctx).
Hypothesis H_Name : ∀ id ctx, P (Name id ctx).

Fixpoint expr_induction (e : expr) : P e :=
  let all := fix all (l : list expr) : Forall P l :=
    match l with
    | [] => @List.Forall_nil _ P
    | x :: l' => @List.Forall_cons _ P x l' (expr_induction x) (all l')
    end in
  match e with
  | BoolOp op values => H_BoolOp op values (all values)
  | BinOp l op r => H_BinOp l op r (expr_induction l) (expr_induction r)
  | UnaryOp op operand => H_UnaryOp op operand (expr_induction operand)
  | Compare l ops comparators => H_Compare l ops comparators (expr_induction l) (all comparators)
  | Call func args keywords =>
      H_Call func args keywords (expr_induction func) (all args)
        ((fix kws (l : list (option string * expr)) : Forall (fun kw => P (snd kw)) l :=
            match l with
            | [] => @List.Forall_nil _ (fun kw => P (snd kw))
            | kw :: l' =>
                @List.Forall_cons _ (fun kw => P (snd kw)) kw l'
                  (match kw return P (snd kw) with (_, v) => expr_induction v end) (kws l')
            end) keywords)
  | Constant value => H_Constant value
  | Attribute value attr ctx => H_Attribute value attr ctx (expr_induction value)
  | Name id ctx => H_Name id ctx
  end.

End ExprInduction.

Section StmtInduction.

Variable P : stmt → Prop.
Variable Q : excepthandler → Prop.

Hypothesis H_FunctionDef : ∀ name args body decorator_list returns,
  Forall P body → P (FunctionDef name args body decorator_list returns).
Hypothesis H_ClassDef : ∀ name bases body decorator_list,
  Forall P body → P (ClassDef name bases body decorator_list).
Hypothesis H_Return : ∀ value, P (Return value).
Hypothesis H_Assign : ∀ targets value, P (Assign targets value).
Hypothesis H_For : ∀ target iter body orelse,
  Forall P body → Forall P orelse → P (For target iter body orelse).
Hypothesis H_While : ∀ test body orelse,
  Forall P body → Forall P orelse → P (While test body orelse).
Hypothesis H_If : ∀ test body orelse,
  Forall P body → Forall P orelse → P (If test body orelse).
Hypothesis H_With : ∀ items body, Forall P body → P (With items body).
Hypothesis H_Try : ∀ body handlers orelse finalbody,
  Forall P body → Forall Q handlers → Forall P orelse → Forall P finalbody →
  P (Try body handlers orelse finalbody).
Hypothesis H_Import : ∀ names, P (Import names).
Hypothesis H_ImportFrom : ∀ module names level, P (ImportFrom module names level).
Hypothesis H_Global : ∀ names, P (Global names).
Hypothesis H_Expr : ∀ value, P (Expr value).
Hypothesis H_Pass : P Pass.
Hypothesis H_ExceptHandler : ∀ type name body, Forall P body → Q (ExceptHandler type name body).

Fixpoint stmt_induction (s : stmt) : P s :=
  let all := fix all (l : list stmt) : Forall P l :=
    match l with
    | [] => @List.Forall_nil _ P
    | x :: l' => @List.Forall_cons _ P x l' (stmt_induction x) (all l')
    end in
  match s with
  | FunctionDef name args body decorator_list returns =>
      H_FunctionDef name args body decorator_list returns (all body)
  | ClassDef name bases body decorator_list => H_ClassDef name bases body decorator_list (all body)
  | Return value => H_Return value
  | Assign targets value => H_Assign targets value
  | For target iter body orelse => H_For target iter body orelse (all body) (all orelse)
  | While test body orelse => H_While test body orelse (all body) (all orelse)
  | If test body orelse => H_If test body orelse (all body) (all orelse)
  | With items body => H_With items body (all body)
  | Try body handlers orelse finalbody =>
      H_Try body handlers orelse finalbody (all body)
        ((fix hs (l : list excepthandler) : Forall Q l :=
            match l with
            | [] => @List.Forall_nil _ Q
            | h :: l' => @List.Forall_cons _ Q h l' (handler_induction h) (hs l')
            end) handlers)
        (all orelse) (all finalbody)
  | Import names => H_Import names
  | ImportFrom module names level => H_ImportFrom module names level
  | Global names => H_Global names
  | Expr value => H_Expr value
  | Pass => H_Pass
  end
with handler_induction (h : excepthandler) : Q h :=
  match h with
  | ExceptHandler type name body =>
      H_ExceptHandler type name body
        ((fix all (l : list stmt) : Forall P l :=
            match l with
            | [] => @List.Forall_nil _ P
            | x :: l' => @List.Forall_cons _ P x l' (stmt_induction x) (all l')
            end) body)
  end.

End StmtInduction.

(** *** The visitor adds [cost] and restores the stack *)

Lemma bump_0 (st : cstate) : bump 0 st = st.
Proof. destruct st as [c s]. unfold bump. cbn. f_equal. lia. Qed.

Lemma bump_bump (a b : Z) (st : cstate) : bump b (bump a st) = bump (a + b) st.
Proof. unfold bump. cbn. f_equal. lia. Qed.

(** Both sides are one [bump] of the same state: compare the amounts. *)
Ltac same_bump := rewrite ?bump_bump; apply (f_equal (fun c => bump c _)); lia.

Lemma stack_bump (a : Z) (st : cstate) : stack (bump a st) = stack st.
Proof. reflexivity. Qed.

Lemma leave_bump_enter (c : Z) (st : cstate) :
  leave (bump c (enter st)) = bump (Cost.entering (length (stack st)) + c) st.
Proof.
  unfold leave, bump, enter, Cost.entering. cbn.
  rewrite removelast_last. f_equal. lia.
Qed.

Lemma depth_enter (st : cstate) : length (stack (enter st)) = S (length (stack st)).
Proof. unfold enter. cbn. rewrite length_app. cbn. lia. Qed.

(** A loop that visits every element of a list. *)
Lemma visit_loop {A : Type} (visit : A → cstate → cstate) (cost : nat → A → Z) (l : list A) :
  Forall (fun a => ∀ st, visit a st = bump (cost (length (stack st)) a) st) l →
  ∀ st, fold_left (fun st a => visit a st) l st
        = bump (sumZ (List.map (cost (length (stack st))) l)) st.
Proof.
  induction 1 as [|a l Ha Hl IH]; intros st; cbn.
  - symmetry. apply bump_0.
  - rewrite Ha, IH, stack_bump, bump_bump. reflexivity.
Qed.

Lemma visit_expr_cost (e : expr) :
  ∀ st, Visitor.visit_expr e st = bump (Cost.cost_expr e) st.
Proof.
  induction e as [op values IH|l op r IHl IHr|op operand IH|l ops comparators IHl IH
                 |func args keywords IHf IHa IHk|value|value attr ctx IH|id ctx]
    using expr_induction; intros st; cbn [Visitor.visit_expr Cost.cost_expr].
  - rewrite (visit_loop Visitor.visit_expr (fun _ => Cost.cost_expr)) by exact IH.
    rewrite bump_bump. reflexivity.
  - rewrite IHl, IHr, bump_bump. reflexivity.
  - apply IH.
  - rewrite (visit_loop Visitor.visit_expr (fun _ => Cost.cost_expr)) by exact IH.
    rewrite IHl, bump_bump. reflexivity.
  - rewrite (visit_loop (fun kw => Visitor.visit_expr (snd kw)) (fun _ kw => Cost.cost_expr (snd kw)))
      by exact IHk.
    rewrite (visit_loop Visitor.visit_expr (fun _ => Cost.cost_expr)) by exact IHa.
    rewrite IHf. same_bump.
  - symmetry. apply bump_0.
  - apply IH.
  - symmetry. apply bump_0.
Qed.

Lemma visit_exprs_cost (l : list expr) (st : cstate) :
  visit_all Visitor.visit_expr l st = bump (sumZ (List.map Cost.cost_expr l)) st.
Proof.
  unfold visit_all.
  apply (visit_loop Visitor.visit_expr (fun _ => Cost.cost_expr)).
  apply Forall_forall. intros e _. apply visit_expr_cost.
Qed.

Lemma generic_visit_expr_cost (e : expr) (st : cstate) :
  Visitor.generic_visit_expr e st = bump (Cost.cost_generic_expr e) st.
Proof.
  destruct e; cbn [Visitor.generic_visit_expr Cost.cost_generic_expr];
    try apply visit_expr_cost.
  apply visit_exprs_cost.
Qed.

Lemma visit_option_cost {A : Type} (visit : A → cstate → cstate) (cost : A → Z) (o : option A) :
  (∀ a st, visit a st = bump (cost a) st) →
  ∀ st, visit_option visit o st = bump (Cost.cost_option cost o) st.
Proof.
  intros H st. destruct o as [a|]; cbn; [apply H|symmetry; apply bump_0].
Qed.

Lemma visit_arg_cost (a : arg) (st : cstate) :
  Visitor.visit_arg a st = bump (Cost.cost_arg a) st.
Proof. apply visit_option_cost. intros e st'. apply visit_expr_cost. Qed.

Lemma visit_arguments_cost (a : arguments) (st : cstate) :
  Visitor.visit_arguments a st = bump (Cost.cost_arguments a) st.
Proof.
  unfold Visitor.visit_arguments, Cost.cost_arguments, visit_all.
  rewrite (visit_loop Visitor.visit_arg (fun _ => Cost.cost_arg) (args_args a))
    by (apply Forall_forall; intros x _ st'; apply visit_arg_cost).
  rewrite (visit_option_cost Visitor.visit_arg Cost.cost_arg) by apply visit_arg_cost.
  rewrite (visit_loop Visitor.visit_arg (fun _ => Cost.cost_arg) (args_kwonlyargs a))
    by (apply Forall_forall; intros x _ st'; apply visit_arg_cost).
  rewrite (visit_option_cost Visitor.visit_arg Cost.cost_arg) by apply visit_arg_cost.
  rewrite (visit_loop Visitor.visit_expr (fun _ => Cost.cost_expr))
    by (apply Forall_forall; intros x _ st'; apply visit_expr_cost).
  same_bump.
Qed.

Lemma visit_withitem_cost (w : withitem) (st : cstate) :
  Visitor.visit_withitem w st = bump (Cost.cost_withitem w) st.
Proof.
  unfold Visitor.visit_withitem, Cost.cost_withitem.
  rewrite (visit_option_cost Visitor.visit_expr Cost.cost_expr) by apply visit_expr_cost.
  rewrite visit_expr_cost. same_bump.
Qed.

Lemma visits_cost (body : list stmt) :
  Forall stmt_cost_spec body →
  ∀ st, fold_left (fun st s' => Visitor.visit_stmt false s' st) body st
        = bump (sumZ (List.map (Cost.cost_stmt false (length (stack st))) body)) st.
Proof.
  intros H. apply (visit_loop (Visitor.visit_stmt false) (Cost.cost_stmt false)).
  eapply Forall_impl; [exact H|]. intros s Hs st. apply Hs.
Qed.

Lemma elif_loop_cost (orelse : list stmt) :
  Forall stmt_cost_spec orelse →
  ∀ st,
    fold_left (fun st s' => if isinstance_If s'
                            then leave (Visitor.visit_stmt true s' (enter st)) else st) orelse st
    = bump (sumZ (List.map (fun s' => if isinstance_If s'
                                      then Cost.entering (length (stack st))
                                           + Cost.cost_stmt true (S (length (stack st))) s'
                                      else 0) orelse)) st.
Proof.
  intros H.
  apply (visit_loop
           (fun s' st => if isinstance_If s'
                         then leave (Visitor.visit_stmt true s' (enter st)) else st)
           (fun d s' => if isinstance_If s'
                        then Cost.entering d + Cost.cost_stmt true (S d) s' else 0)).
  eapply Forall_impl; [exact H|]. intros s Hs st. cbn beta.
  destruct (isinstance_If s); [|symmetry; apply bump_0].
  rewrite Hs, leave_bump_enter, depth_enter. reflexivity.
Qed.

Lemma else_loop_cost (orelse : list stmt) :
  Forall stmt_cost_spec orelse →
  ∀ st,
    fold_left (fun st s' => if isinstance_If s' then st
                            else Visitor.visit_stmt false s' st) orelse st
    = bump (sumZ (List.map (fun s' => if isinstance_If s' then 0
                                      else Cost.cost_stmt false (length (stack st)) s')
                           orelse)) st.
Proof.
  intros H.
  apply (visit_loop
           (fun s' st => if isinstance_If s' then st else Visitor.visit_stmt false s' st)
           (fun d s' => if isinstance_If s' then 0 else Cost.cost_stmt false d s')).
  eapply Forall_impl; [exact H|]. intros s Hs st. cbn beta.
  destruct (isinstance_If s); [symmetry; apply bump_0|apply Hs].
Qed.

Lemma handler_loop_cost (handlers : list excepthandler) :
  Forall handler_cost_spec handlers →
  ∀ st,
    fold_left (fun st h => leave (Visitor.visit_handler h (enter st))) handlers st
    = bump (sumZ (List.map (fun h => Cost.entering (length (stack st))
                                     + Cost.cost_handler (S (length (stack st))) h)
                           handlers)) st.
Proof.
  intros H.
  apply (visit_loop (fun h st => leave (Visitor.visit_handler h (enter st)))
                    (fun d h => Cost.entering d + Cost.cost_handler (S d) h)).
  eapply Forall_impl; [exact H|]. intros h Hh st. cbn beta.
  rewrite Hh, leave_bump_enter, depth_enter. reflexivity.
Qed.

Ltac visit_costs :=
  repeat first
    [ rewrite visits_cost by assumption
    | rewrite elif_loop_cost by assumption
    | rewrite else_loop_cost by assumption
    | rewrite handler_loop_cost by assumption
    | rewrite visit_expr_cost
    | rewrite generic_visit_expr_cost
    | rewrite visit_exprs_cost
    | rewrite visit_arguments_cost
    | rewrite (visit_option_cost Visitor.visit_expr Cost.cost_expr) by apply visit_expr_cost
    | rewrite (visit_loop Visitor.visit_withitem (fun _ => Cost.cost_withitem))
        by (apply Forall_forall; intros ? _ ?; apply visit_withitem_cost)
    | rewrite stack_bump
    | rewrite depth_enter
    | rewrite bump_bump ].

Lemma visit_stmt_cost (s : stmt) : stmt_cost_spec s.
Proof.
  apply (stmt_induction stmt_cost_spec handler_cost_spec); clear s;
    unfold stmt_cost_spec, handler_cost_spec; intros;
    cbn [Visitor.visit_stmt Visitor.visit_handler Cost.cost_stmt Cost.cost_handler].
  - visit_costs. same_bump.
  - visit_costs. same_bump.
  - visit_costs. same_bump.
  - visit_costs. same_bump.
  - visit_costs. rewrite leave_bump_enter. same_bump.
  - visit_costs. rewrite leave_bump_enter. same_bump.
  - destruct generic.
    + visit_costs. same_bump.
    + visit_costs. rewrite leave_bump_enter. same_bump.
  - unfold visit_all. visit_costs. rewrite leave_bump_enter. same_bump.
  - destruct finalbody as [|f finalbody].
    + visit_costs. rewrite leave_bump_enter. same_bump.
    + visit_costs. rewrite leave_bump_enter. visit_costs. rewrite leave_bump_enter. same_bump.
  - symmetry. apply bump_0.
  - symmetry. apply bump_0.
  - symmetry. apply bump_0.
  - visit_costs. reflexivity.
  - symmetry. apply bump_0.
  - visit_costs. same_bump.
Qed.

Lemma visit_handler_cost (h : excepthandler) : handler_cost_spec h.
Proof.
  destruct h as [type name body]. intros st. cbn [Visitor.visit_handler Cost.cost_handler].
  rewrite (visits_cost body) by (apply Forall_forall; intros s _; apply visit_stmt_cost).
  visit_costs. same_bump.
Qed.

(** [_compute] is the cost of the module body at depth 0. *)
Lemma compute_cost (body : list stmt) : _compute (Module body) = Cost.costs 0 body.
Proof.
  unfold _compute, Visitor.visit_module, Cost.costs. cbn [mod_body].
  rewrite (visits_cost body) by (apply Forall_forall; intros s _; apply visit_stmt_cost).
  cbn. lia.
Qed.

(** *** Costs are never negative; an [If] costs at least one *)

Lemma sumZ_app (a b : list Z) : sumZ (a ++ b) = sumZ a + sumZ b.
Proof. unfold sumZ. induction a as [|x a IH]; cbn [app fold_right]; lia. Qed.

Lemma sumZ_nonneg {A : Type} (f : A → Z) (l : list A) :
  Forall (fun a => 0 <= f a) l → 0 <= sumZ (List.map f l).
Proof. unfold sumZ. induction 1 as [|a l Ha Hl IH]; cbn [List.map fold_right]; lia. Qed.

Lemma cost_expr_nonneg (e : expr) : 0 <= Cost.cost_expr e.
Proof.
  induction e using expr_induction; cbn [Cost.cost_expr];
    repeat match goal with
           | H : Forall _ ?l |- _ => apply (sumZ_nonneg _ l) in H
           end; lia.
Qed.

Lemma cost_exprs_nonneg (l : list expr) : 0 <= sumZ (List.map Cost.cost_expr l).
Proof. apply sumZ_nonneg, Forall_forall. intros e _. apply cost_expr_nonneg. Qed.

Lemma cost_generic_expr_nonneg (e : expr) : 0 <= Cost.cost_generic_expr e.
Proof.
  destruct e; cbn [Cost.cost_generic_expr]; try apply cost_expr_nonneg.
  apply cost_exprs_nonneg.
Qed.

Lemma cost_option_nonneg {A : Type} (cost : A → Z) (o : option A) :
  (∀ a, 0 <= cost a) → 0 <= Cost.cost_option cost o.
Proof. intros H. destruct o; cbn; [apply H|lia]. Qed.

Lemma cost_arg_nonneg (a : arg) : 0 <= Cost.cost_arg a.
Proof. apply cost_option_nonneg, cost_expr_nonneg. Qed.

Lemma cost_arguments_nonneg (a : arguments) : 0 <= Cost.cost_arguments a.
Proof.
  unfold Cost.cost_arguments.
  pose proof (sumZ_nonneg Cost.cost_arg (args_args a)
                (proj2 (Forall_forall _ _) (fun x _ => cost_arg_nonneg x))).
  pose proof (sumZ_nonneg Cost.cost_arg (args_kwonlyargs a)
                (proj2 (Forall_forall _ _) (fun x _ => cost_arg_nonneg x))).
  pose proof (cost_option_nonneg Cost.cost_arg (args_vararg a) cost_arg_nonneg).
  pose proof (cost_option_nonneg Cost.cost_arg (args_kwarg a) cost_arg_nonneg).
  pose proof (cost_exprs_nonneg (args_defaults a)).
  lia.
Qed.

Lemma cost_withitems_nonneg (items : list withitem) :
  0 <= sumZ (List.map Cost.cost_withitem items).
Proof.
  apply sumZ_nonneg, Forall_forall. intros w _. unfold Cost.cost_withitem.
  pose proof (cost_expr_nonneg (context_expr w)).
  pose proof (cost_option_nonneg Cost.cost_expr (optional_vars w) cost_expr_nonneg). lia.
Qed.

Lemma entering_pos (d : nat) : 1 <= Cost.entering d.
Proof. unfold Cost.entering. lia. Qed.

Lemma costs_nonneg_of (body : list stmt) (d : nat) :
  Forall stmt_nonneg body → 0 <= sumZ (List.map (Cost.cost_stmt false d) body).
Proof.
  intros H. apply sumZ_nonneg. eapply Forall_impl; [exact H|]. intros s Hs. apply Hs.
Qed.

Lemma cost_stmt_nonneg (s : stmt) : stmt_nonneg s.
Proof.
  apply (stmt_induction stmt_nonneg handler_nonneg); clear s;
    unfold stmt_nonneg, handler_nonneg; intros;
    cbn [Cost.cost_stmt Cost.cost_handler];
    repeat match goal with
           | |- context [Cost.cost_arguments ?a] =>
               pose proof (cost_arguments_nonneg a); generalize dependent (Cost.cost_arguments a);
               intros
           | |- context [Cost.cost_option Cost.cost_expr ?o] =>
               pose proof (cost_option_nonneg Cost.cost_expr o cost_expr_nonneg);
               generalize dependent (Cost.cost_option Cost.cost_expr o); intros
           end.
  - pose proof (costs_nonneg_of body d H). pose proof (cost_exprs_nonneg decorator_list). lia.
  - pose proof (costs_nonneg_of body d H). pose proof (cost_exprs_nonneg decorator_list).
    pose proof (cost_exprs_nonneg bases). lia.
  - lia.
  - pose proof (cost_exprs_nonneg targets). pose proof (cost_expr_nonneg value). lia.
  - pose proof (costs_nonneg_of body (S d) H). pose proof (costs_nonneg_of orelse (S d) H0).
    pose proof (cost_expr_nonneg target). pose proof (cost_expr_nonneg iter).
    pose proof (entering_pos d). lia.
  - pose proof (costs_nonneg_of body (S d) H). pose proof (costs_nonneg_of orelse (S d) H0).
    pose proof (cost_expr_nonneg test). pose proof (entering_pos d). lia.
  - destruct generic.
    + pose proof (costs_nonneg_of body d H). pose proof (costs_nonneg_of orelse d H0).
      pose proof (cost_expr_nonneg test). lia.
    + pose proof (costs_nonneg_of body (S d) H). pose proof (cost_generic_expr_nonneg test).
      pose proof (entering_pos d).
      assert (0 <= sumZ (List.map (fun s' => if isinstance_If s'
                                             then Cost.entering (S d) + Cost.cost_stmt true (S (S d)) s'
                                             else 0) orelse)).
      { apply sumZ_nonneg. eapply Forall_impl; [exact H0|]. intros s Hs. cbn beta.
        destruct (isinstance_If s); [|lia].
        pose proof (Hs true (S (S d))). pose proof (entering_pos (S d)). lia. }
      assert (0 <= sumZ (List.map (fun s' => if isinstance_If s' then 0
                                             else Cost.cost_stmt false (S d) s') orelse)).
      { apply sumZ_nonneg. eapply Forall_impl; [exact H0|]. intros s Hs. cbn beta.
        destruct (isinstance_If s); [lia|apply Hs]. }
      lia.
  - pose proof (costs_nonneg_of body (S d) H). pose proof (cost_withitems_nonneg items).
    pose proof (entering_pos d). lia.
  - pose proof (costs_nonneg_of body (S d) H). pose proof (costs_nonneg_of orelse (S d) H1).
    pose proof (costs_nonneg_of finalbody (S (S d)) H2).
    pose proof (entering_pos d). pose proof (entering_pos (S d)).
    assert (0 <= sumZ (List.map (fun h => Cost.entering (S d) + Cost.cost_handler (S (S d)) h)
                                handlers)).
    { apply sumZ_nonneg. eapply Forall_impl; [exact H0|]. intros h Hh. cbn beta.
      pose proof (Hh (S (S d))). lia. }
    destruct finalbody; lia.
  - lia.
  - lia.
  - lia.
  - apply cost_expr_nonneg.
  - lia.
  - pose proof (costs_nonneg_of body d H). lia.
Qed.

Lemma costs_nonneg (d : nat) (body : list stmt) : 0 <= Cost.costs d body.
Proof.
  apply costs_nonneg_of, Forall_forall. intros s _. apply cost_stmt_nonneg.
Qed.

Lemma cost_If_pos (x : stmt) (d : nat) :
  isinstance_If x = true → 1 <= Cost.cost_stmt false d x ∧ 1 <= Cost.cost_in_orelse d x.
Proof.
  intros HIf. unfold Cost.cost_in_orelse. rewrite HIf.
  pose proof (cost_stmt_nonneg x true (S (S d))). pose proof (entering_pos (S d)).
  split; [|lia].
  destruct x; try discriminate. cbn [Cost.cost_stmt].
  pose proof (cost_stmt_nonneg (If test body orelse) false d) as Hn.
  cbn [Cost.cost_stmt] in Hn.
  pose proof (entering_pos d).
  pose proof (costs_nonneg (S d) body). unfold Cost.costs in *.
  pose proof (cost_generic_expr_nonneg test).
  assert (0 <= sumZ (List.map (fun s' => if isinstance_If s'
                                         then Cost.entering (S d) + Cost.cost_stmt true (S (S d)) s'
                                         else 0) orelse)).
  { apply sumZ_nonneg, Forall_forall. intros s _. cbn beta.
    destruct (isinstance_If s); [|lia].
    pose proof (cost_stmt_nonneg s true (S (S d))). pose proof (entering_pos (S d)). lia. }
  assert (0 <= sumZ (List.map (fun s' => if isinstance_If s' then 0
                                         else Cost.cost_stmt false (S d) s') orelse)).
  { apply sumZ_nonneg, Forall_forall. intros s _. cbn beta.
    destruct (isinstance_If s); [lia|apply cost_stmt_nonneg]. }
  lia.
Qed.

(** *** Inserting an [if] *)

Scheme insert_block_min := Minimality for insert_in_block Sort Prop
  with insert_stmt_min := Minimality for insert_in_stmt Sort Prop
  with insert_handler_min := Minimality for insert_in_handler Sort Prop.

Combined Scheme insert_mutual_ind from insert_block_min, insert_stmt_min, insert_handler_min.

(** The two loops of [visit_If] over [orelse] together visit every
    statement once. *)
Lemma orelse_loops (d : nat) (orelse : list stmt) :
  sumZ (List.map (fun s' => if isinstance_If s'
                            then Cost.entering (S d) + Cost.cost_stmt true (S (S d)) s'
                            else 0) orelse)
  + sumZ (List.map (fun s' => if isinstance_If s' then 0
                              else Cost.cost_stmt false (S d) s') orelse)
  = sumZ (List.map (Cost.cost_in_orelse d) orelse).
Proof.
  unfold sumZ, Cost.cost_in_orelse.
  induction orelse as [|s l IH]; cbn [List.map fold_right]; [reflexivity|].
  destruct (isinstance_If s); lia.
Qed.

Lemma cost_If_visit (d : nat) (test : expr) (body orelse : list stmt) :
  Cost.cost_stmt false d (If test body orelse)
  = Cost.entering d + Cost.cost_generic_expr test + Cost.costs (S d) body
    + sumZ (List.map (Cost.cost_in_orelse d) orelse).
Proof.
  cbn [Cost.cost_stmt]. rewrite <- orelse_loops. unfold Cost.costs. lia.
Qed.

Lemma cost_If_generic (d : nat) (test : expr) (body orelse : list stmt) :
  Cost.cost_stmt true d (If test body orelse)
  = Cost.cost_expr test + Cost.costs d body + Cost.costs d orelse.
Proof. reflexivity. Qed.

Lemma sumZ_replace {A : Type} (f : A → Z) (pre post : list A) (a a' : A) :
  sumZ (List.map f (pre ++ a' :: post)) - sumZ (List.map f (pre ++ a :: post)) = f a' - f a.
Proof.
  rewrite !List.map_app, !sumZ_app. cbn [List.map]. unfold sumZ. cbn [fold_right]. lia.
Qed.

Lemma sumZ_insert {A : Type} (f : A → Z) (pre post : list A) (a : A) :
  sumZ (List.map f (pre ++ a :: post)) = sumZ (List.map f (pre ++ post)) + f a.
Proof.
  rewrite !List.map_app, !sumZ_app. cbn [List.map]. unfold sumZ. cbn [fold_right]. lia.
Qed.

Lemma insertion_grows (x : stmt) :
  isinstance_If x = true →
  (∀ old new, insert_in_block x old new → block_grows old new)
  ∧ (∀ s s', insert_in_stmt x s s' → stmt_grows s s')
  ∧ (∀ h h', insert_in_handler x h h' → handler_grows h h').
Proof.
  intros HIf.
  apply (insert_mutual_ind x block_grows stmt_grows handler_grows);
    unfold block_grows, stmt_grows, handler_grows, Cost.costs; intros.
  - destruct (cost_If_pos x d HIf). rewrite !sumZ_insert. lia.
  - destruct H0 as [Hkind Hlt].
    pose proof (sumZ_replace (Cost.cost_stmt false d) pre post s s').
    pose proof (sumZ_replace (Cost.cost_in_orelse d) pre post s s').
    pose proof (Hlt false d). unfold Cost.cost_in_orelse in *. rewrite <- Hkind in *.
    destruct (isinstance_If s).
    + pose proof (Hlt true (S (S d))). lia.
    + pose proof (Hlt false (S d)). lia.
  - split; [reflexivity|]. intros generic d. cbn [Cost.cost_stmt]. destruct (H0 d). lia.
  - split; [reflexivity|]. intros generic d. cbn [Cost.cost_stmt]. destruct (H0 d). lia.
  - split; [reflexivity|]. intros generic d. cbn [Cost.cost_stmt]. destruct (H0 (S d)). lia.
  - split; [reflexivity|]. intros generic d. cbn [Cost.cost_stmt]. destruct (H0 (S d)). lia.
  - split; [reflexivity|]. intros generic d. cbn [Cost.cost_stmt]. destruct (H0 (S d)). lia.
  - split; [reflexivity|]. intros generic d. cbn [Cost.cost_stmt]. destruct (H0 (S d)). lia.
  - split; [reflexivity|]. intros generic d. destruct generic.
    + rewrite !cost_If_generic. unfold Cost.costs. destruct (H0 d). lia.
    + rewrite !cost_If_visit. unfold Cost.costs. destruct (H0 (S d)). lia.
  - split; [reflexivity|]. intros generic d. destruct generic.
    + rewrite !cost_If_generic. unfold Cost.costs. destruct (H0 d). lia.
    + rewrite !cost_If_visit. destruct (H0 d). lia.
  - split; [reflexivity|]. intros generic d. cbn [Cost.cost_stmt]. destruct (H0 (S d)). lia.
  - split; [reflexivity|]. intros generic d. cbn [Cost.cost_stmt]. destruct (H0 (S d)). lia.
  - split; [reflexivity|]. intros generic d. cbn [Cost.cost_stmt].
    pose proof (sumZ_replace (fun h => Cost.entering (S d) + Cost.cost_handler (S (S d)) h)
                             pre post h h') as Hs. cbn beta in Hs.
    pose proof (H0 (S (S d))). lia.
  - split; [reflexivity|]. intros generic d. cbn [Cost.cost_stmt]. destruct (H0 (S d)). lia.
  - split; [reflexivity|]. intros generic d. cbn [Cost.cost_stmt].
    destruct (H0 (S (S d))) as [Hlt _].
    pose proof (costs_nonneg (S (S d)) finalbody) as Hn. unfold Cost.costs in Hn.
    pose proof (entering_pos (S d)).
    destruct finalbody, finalbody'; cbn [List.map] in *; unfold sumZ in *; cbn [fold_right] in *;
      lia.
  - cbn [Cost.cost_handler]. destruct (H0 d). lia.
Qed.

Lemma insert_if_increases (x : stmt) (old new : list stmt) :
  isinstance_If x = true → insert_in_block x old new →
  _compute (Module old) < _compute (Module new).
Proof.
  intros HIf Hins. rewrite !compute_cost.
  destruct (insertion_grows x HIf) as (Hblock & _ & _).
  apply (Hblock old new Hins 0%nat).
Qed.

(** *** Chains of [elif] *)

Lemma elif_chain_cost (branches : list (expr * list stmt)) (orelse : list stmt) :
  ∀ d, Z.of_nat (length branches) <= Cost.costs d (elif_chain branches orelse)
       ∧ Z.of_nat (length branches) <= sumZ (List.map (Cost.cost_in_orelse d)
                                                       (elif_chain branches orelse)).
Proof.
  induction branches as [|[test body] rest IH]; intros d.
  - cbn [length elif_chain]. split; [apply costs_nonneg|].
    apply sumZ_nonneg, Forall_forall. intros s _. unfold Cost.cost_in_orelse.
    pose proof (cost_stmt_nonneg s true (S (S d))). pose proof (cost_stmt_nonneg s false (S d)).
    pose proof (entering_pos (S d)). destruct (isinstance_If s); lia.
  - cbn [length elif_chain]. unfold Cost.costs, Cost.cost_in_orelse.
    cbn [List.map isinstance_If]. unfold sumZ. cbn [fold_right]. fold (sumZ []).
    rewrite cost_If_visit, cost_If_generic.
    destruct (IH d) as [_ Horelse]. destruct (IH (S (S d))) as [Hcosts _].
    pose proof (entering_pos d). pose proof (entering_pos (S d)).
    pose proof (cost_generic_expr_nonneg test). pose proof (cost_expr_nonneg test).
    pose proof (costs_nonneg (S d) body). pose proof (costs_nonneg (S (S d)) body).
    cbn [sumZ fold_right]. split; lia.
Qed.

Lemma elif_chain_at_least (branches : list (expr * list stmt)) (orelse : list stmt) :
  Z.of_nat (length branches) <= _compute (Module (elif_chain branches orelse)).
Proof. rewrite compute_cost. apply elif_chain_cost. Qed.

(** Branches that cost nothing themselves: the [i]-th [if] of the chain
    adds [1 + (i - 1)], once. *)
Lemma simple_chain_cost (n : nat) :
  ∀ d, 2 * Cost.costs d (elif_chain (simple_branches n) [])
       = Z.of_nat n * (Z.of_nat n + 1) + 2 * Z.of_nat n * Z.of_nat d
     ∧ 2 * sumZ (List.map (Cost.cost_in_orelse d) (elif_chain (simple_branches n) []))
       = Z.of_nat n * (Z.of_nat n + 1) + 2 * Z.of_nat n * (Z.of_nat d + 1).
Proof.
  induction n as [|n IH]; intros d.
  - cbn. lia.
  - cbn [simple_branches repeat elif_chain]. fold (simple_branches n).
    unfold Cost.costs, Cost.cost_in_orelse.
    cbn [List.map isinstance_If]. unfold sumZ. cbn [fold_right]. fold (sumZ []).
    rewrite cost_If_visit, cost_If_generic.
    destruct (IH d) as [_ Horelse]. destruct (IH (S (S d))) as [Hcosts _].
    unfold Cost.costs in *. cbn [List.map Cost.cost_stmt Cost.cost_generic_expr Cost.cost_expr].
    unfold Cost.entering. cbn [sumZ fold_right]. split; nia.
Qed.

(** C6. Inserting an [if] statement into any statement list of a module,
    at any nesting level, strictly increases the raw complexity; a module
    that is an [if]/[elif] chain with [n] tests has raw complexity at least
    [n]; and when the tests and bodies add nothing themselves the chain
    counts exactly [1 + 2 + ... + n]: every [elif] once, one nesting frame
    deeper than the one before. *)
Theorem C6_nested_if_and_elif_chain :
  (∀ x old new,
     isinstance_If x = true → insert_in_block x old new →
     _compute (Module old) < _compute (Module new))
  ∧ (∀ branches orelse,
       Z.of_nat (length branches) <= _compute (Module (elif_chain branches orelse)))
  ∧ (∀ n, 2 * _compute (Module (elif_chain (simple_branches n) []))
          = Z.of_nat n * (Z.of_nat n + 1)).
Proof.
  split; [exact insert_if_increases|]. split; [exact elif_chain_at_least|].
  intros n. rewrite compute_cost. destruct (simple_chain_cost n 0) as [H _]. lia.
Qed.

Lemma C6_witness :
  _compute (Module [branching_function [Return (Some (Constant (CInt 1)))]])
  < _compute (Module [branching_function [nested_if; Return (Some (Constant (CInt 1)))]]).
Proof.
  apply (proj1 C6_nested_if_and_elif_chain nested_if); [reflexivity|].
  apply (insert_below nested_if [] []). apply insert_FunctionDef.
  apply (insert_below nested_if [] []). apply insert_If_body.
  apply (insert_here nested_if []).
Defined.

Example complexity_samples :
  _compute (Module [branching_function [Return (Some (Constant (CInt 1)))]]) = 3
  ∧ _compute (Module [branching_function [nested_if; Return (Some (Constant (CInt 1)))]]) = 5
  ∧ _compute (Module (elif_chain (simple_branches 3) [])) = 6.
Proof. repeat split; reflexivity. Qed.


(** ** Normalisation for duplication (ast_tools.py, [NormalizingTransformer]) *)

Section RenameFacts.

Variable placeholder : string.
Variable rho : string → string.
Variable kappa : constant → constant.

Local Abbreviation renamed_expr := (rename_expr rho kappa keep_name).
Local Abbreviation renamed_stmt := (rename_stmt rho kappa keep_name false).
Local Abbreviation renamed_handler := (rename_handler rho kappa keep_name false).

Lemma map_visit_rename {A : Type} (visit : A → A) (rename : A → A) (l : list A) :
  Forall (fun a => visit (rename a) = visit a) l →
  List.map visit (List.map rename l) = List.map visit l.
Proof.
  intros H. rewrite List.map_map. apply map_ext_in. intros a Ha.
  rewrite Forall_forall in H. apply H. apply list_elem_of_In. exact Ha.
Qed.

Lemma visit_rename_expr (e : expr) :
  visit_expr placeholder (renamed_expr e) = visit_expr placeholder e.
Proof.
  induction e as [op values IH|l op r IHl IHr|op operand IH|l ops comparators IHl IH
                 |func args keywords IHf IHa IHk|value|value attr ctx IH|id ctx]
    using expr_induction; cbn [rename_expr visit_expr].
  - rewrite (map_visit_rename _ _ values IH). reflexivity.
  - rewrite IHl, IHr. reflexivity.
  - rewrite IH. reflexivity.
  - rewrite IHl, (map_visit_rename _ _ comparators IH). reflexivity.
  - rewrite IHf, (map_visit_rename _ _ args IHa). f_equal.
    rewrite List.map_map. apply map_ext_in. intros [k v] Hkv. cbn [fst snd].
    rewrite Forall_forall in IHk. specialize (IHk (k, v)). cbn [snd] in IHk.
    rewrite IHk by (apply list_elem_of_In; exact Hkv).
    destruct k; reflexivity.
  - reflexivity.
  - rewrite IH. reflexivity.
  - reflexivity.
Qed.

Lemma visit_rename_exprs (l : list expr) :
  List.map (visit_expr placeholder) (List.map renamed_expr l)
  = List.map (visit_expr placeholder) l.
Proof. apply map_visit_rename, Forall_forall. intros e _. apply visit_rename_expr. Qed.

Lemma visit_rename_option (o : option expr) :
  option_map (visit_expr placeholder) (option_map renamed_expr o)
  = option_map (visit_expr placeholder) o.
Proof. destruct o; cbn; [rewrite visit_rename_expr|]; reflexivity. Qed.

Lemma visit_rename_arg (a : arg) :
  visit_arg placeholder (rename_arg rho kappa keep_name false a) = visit_arg placeholder a.
Proof. reflexivity. Qed.

Lemma visit_rename_arguments (a : arguments) :
  visit_arguments placeholder (rename_arguments rho kappa keep_name false a)
  = visit_arguments placeholder a.
Proof.
  unfold visit_arguments, rename_arguments.
  cbn [args_args args_vararg args_kwonlyargs args_kwarg args_defaults].
  rewrite visit_rename_exprs, !List.map_map.
  destruct (args_vararg a), (args_kwarg a); reflexivity.
Qed.

Lemma visit_rename_withitems (items : list withitem) :
  List.map (visit_withitem placeholder) (List.map (rename_withitem rho kappa keep_name) items)
  = List.map (visit_withitem placeholder) items.
Proof.
  rewrite List.map_map. apply map_ext. intros [c o].
  unfold visit_withitem, rename_withitem. cbn [context_expr optional_vars].
  rewrite visit_rename_expr, visit_rename_option. reflexivity.
Qed.

Lemma rename_alias_keep (names : list alias) :
  List.map (rename_alias keep_name) names = names.
Proof.
  induction names as [|[n a] names IH]; [reflexivity|].
  cbn [List.map]. rewrite IH. unfold rename_alias. cbn. destruct a; reflexivity.
Qed.

Lemma map_keep_name (names : list string) : List.map keep_name names = names.
Proof. induction names as [|n names IH]; [reflexivity|]. cbn. rewrite IH. reflexivity. Qed.

Lemma option_keep_name (name : option string) : option_map keep_name name = name.
Proof. destruct name; reflexivity. Qed.

Lemma rename_Try (body : list stmt) (handlers : list excepthandler) (orelse finalbody : list stmt) :
  renamed_stmt (Try body handlers orelse finalbody)
  = Try (List.map renamed_stmt body) (List.map renamed_handler handlers)
        (List.map renamed_stmt orelse) (List.map renamed_stmt finalbody).
Proof. reflexivity. Qed.

Lemma visit_Try (body : list stmt) (handlers : list excepthandler) (orelse finalbody : list stmt) :
  visit_stmt placeholder (Try body handlers orelse finalbody)
  = Try (List.map (visit_stmt placeholder) body) (List.map (visit_handler placeholder) handlers)
        (List.map (visit_stmt placeholder) orelse) (List.map (visit_stmt placeholder) finalbody).
Proof. reflexivity. Qed.

Lemma rename_ExceptHandler (type : option expr) (name : option string) (body : list stmt) :
  renamed_handler (ExceptHandler type name body)
  = ExceptHandler (option_map renamed_expr type) (option_map keep_name name)
                  (List.map renamed_stmt body).
Proof. reflexivity. Qed.

Lemma visit_ExceptHandler (type : option expr) (name : option string) (body : list stmt) :
  visit_handler placeholder (ExceptHandler type name body)
  = ExceptHandler (option_map (visit_expr placeholder) type) name
                  (List.map (visit_stmt placeholder) body).
Proof. reflexivity. Qed.

Ltac rename_away :=
  rewrite ?visit_rename_arguments, ?visit_rename_exprs, ?visit_rename_option,
          ?visit_rename_expr, ?visit_rename_withitems, ?rename_alias_keep,
          ?map_keep_name, ?option_keep_name;
  repeat match goal with
         | H : Forall _ ?l |- _ => rewrite (map_visit_rename _ _ l H); clear H
         end;
  reflexivity.

Lemma visit_rename_stmt (s : stmt) :
  visit_stmt placeholder (renamed_stmt s) = visit_stmt placeholder s.
Proof.
  apply (stmt_induction
           (fun s => visit_stmt placeholder (renamed_stmt s) = visit_stmt placeholder s)
           (fun h => visit_handler placeholder (renamed_handler h) = visit_handler placeholder h));
    clear s; intros.
  1-8: cbn [rename_stmt visit_stmt]; rename_away.
  - rewrite rename_Try, !visit_Try. rename_away.
  - cbn [rename_stmt visit_stmt]; rename_away.
  - cbn [rename_stmt visit_stmt]; rename_away.
  - cbn [rename_stmt visit_stmt]; rename_away.
  - cbn [rename_stmt visit_stmt]; rename_away.
  - reflexivity.
  - rewrite rename_ExceptHandler, !visit_ExceptHandler. rename_away.
Qed.

Lemma visit_rename_module (tree : module_) :
  visit_module placeholder (rename_module rho kappa keep_name false tree)
  = visit_module placeholder tree.
Proof.
  unfold visit_module, rename_module. cbn [mod_body]. f_equal.
  apply map_visit_rename, Forall_forall. intros s _. apply visit_rename_stmt.
Qed.

End RenameFacts.

(** C4, as the code has it, for the syntax of [stmt] and [expr]:
    [def] (without positional-only parameters and without defaults of
    keyword-only parameters), [class] (without keywords), [return], plain
    assignment, [for], [while], [if], [with], [try], [import],
    [from ... import], [global], expression statements and [pass]; [and]
    and [or], the operators [+ - * / %], [not] and unary minus, the
    comparisons [== != < <= > >=], calls, attribute access, names and the
    constants [None], [True], [False], integers and strings. With literal
    stripping enabled (the default), for every source that parses to such
    a tree: renaming the identifiers that are [Name]s, attribute suffixes
    and the names of functions, classes and parameters, and replacing
    every constant by any other constant, leaves the fingerprint list of
    the file unchanged, as long as the names of keyword arguments at calls,
    [except ... as] names, [global] names, import aliases and the
    annotations of parameters stay as they are. Other syntax is not
    covered: a literal that is not a [Constant] node (the [None] of
    [case None:]) is beyond [visit_Constant]. *)
Theorem C4_fingerprints_stable_under_renaming
    (ast_parse : string → option module_) (config : DuplicationConfig)
    (rho : string → string) (kappa : constant → constant)
    (text text' : string) (tree : module_) :
  strip_literals (normalize config) = true →
  ast_parse text = Some tree →
  ast_parse text' = Some (rename_module rho kappa keep_name false tree) →
  file_fingerprints ast_parse config text' = file_fingerprints ast_parse config text.
Proof.
  intros Hstrip Hparse Hparse'.
  unfold file_fingerprints, _normalize, safe_parse.
  rewrite Hparse, Hparse', Hstrip. cbn [andb].
  rewrite visit_rename_module. reflexivity.
Qed.

Lemma C4_witness :
  file_fingerprints plain_function_parser DEFAULT_DUPLICATION plain_function_renamed_source
  = file_fingerprints plain_function_parser DEFAULT_DUPLICATION plain_function_source.
Proof.
  apply (C4_fingerprints_stable_under_renaming plain_function_parser DEFAULT_DUPLICATION
           f_a_to_g_b one_to_two _ _ plain_function_tree).
  - reflexivity.
  - vm_compute. reflexivity.
  - vm_compute. reflexivity.
Defined.

(** C4 as stated fails: renaming the parameter [a] of [f] to [b]
    everywhere, the call [f(a=1)] included, changes the fingerprint list,
    because the name of a keyword argument is kept by the normalisation. *)
Lemma C4_keyword_counterexample :
  keyword_call_parser keyword_call_source = Some keyword_call_tree
  ∧ keyword_call_parser keyword_call_renamed_source
    = Some (rename_module a_to_b keep_constant a_to_b true keyword_call_tree)
  ∧ fst (_normalize keyword_call_parser DEFAULT_DUPLICATION keyword_call_source)
    = ["def"; "ID(ID):"; "return"; "ID"; "ID(a='CONST')"]%string
  ∧ fst (_normalize keyword_call_parser DEFAULT_DUPLICATION keyword_call_renamed_source)
    = ["def"; "ID(ID):"; "return"; "ID"; "ID(b='CONST')"]%string
  ∧ file_fingerprints keyword_call_parser DEFAULT_DUPLICATION keyword_call_renamed_source
    ≠ file_fingerprints keyword_call_parser DEFAULT_DUPLICATION keyword_call_source.
Proof.
  split; [vm_compute; reflexivity|]. split; [vm_compute; reflexivity|].
  split; [vm_compute; reflexivity|]. split; [vm_compute; reflexivity|].
  vm_compute. discriminate.
Qed.


(** ** The runner (runner.py) *)

(** *** Paths *)

Lemma strip_prefix_app (p s rest : string) :
  strip_prefix p s = Some rest → s = (p +:+ rest)%string.
Proof.
  revert s. induction p as [|a p IH]; intros s H.
  - cbn in H. injection H as ->. reflexivity.
  - destruct s as [|b s]; [discriminate|]. cbn in H.
    destruct (Ascii.eqb_spec a b); [|discriminate]. subst.
    change (String b s = String b (p +:+ rest)). f_equal. apply IH. exact H.
Qed.

Lemma append_assoc (a b c : string) : ((a +:+ b) +:+ c = a +:+ (b +:+ c))%string.
Proof.
  induction a as [|x a IH]; [reflexivity|].
  change (String x ((a +:+ b) +:+ c) = String x (a +:+ (b +:+ c))). f_equal. exact IH.
Qed.

Lemma contains_app (a b sub : string) :
  String.prefix sub b = true → Unparse.contains (a +:+ b) sub = true.
Proof.
  intros H. induction a as [|c a IH].
  - change (EmptyString +:+ b) with b. destruct b; cbn [Unparse.contains]; rewrite H; reflexivity.
  - change (String c a +:+ b) with (String c (a +:+ b)).
    cbn [Unparse.contains]. rewrite IH. apply orb_true_r.
Qed.

Lemma is_absolute_spec (s : string) :
  is_absolute s = true ↔ ∃ rest, s = String "/" rest.
Proof.
  unfold is_absolute, startswith. destruct s as [|c s].
  - split; [discriminate|]. intros [rest H]. discriminate.
  - change (String.prefix "/" (String c s))
      with (if Ascii.ascii_dec "/" c then String.prefix EmptyString s else false).
    destruct (Ascii.ascii_dec "/" c) as [<-|Hne].
    + split; [eauto|]. intros _. destruct s; reflexivity.
    + split; [discriminate|]. intros [rest H]. congruence.
Qed.

Lemma is_absolute_app (a b : string) : is_absolute a = true → is_absolute (a +:+ b) = true.
Proof.
  rewrite !is_absolute_spec. intros [rest ->]. exists (rest +:+ b)%string. reflexivity.
Qed.

(** A resolved path relative to a root: the root is absolute and the
    relative path is not. *)
Lemma relative_to_resolved (path root rel : string) :
  resolved path = true → relative_to path root = Returns rel →
  is_absolute root = true ∧ is_absolute rel = false.
Proof.
  unfold resolved, relative_to. intros Hres Hrel.
  apply andb_true_iff in Hres as [Habs Hno]. apply negb_true_iff in Hno.
  rewrite Habs in Hrel. destruct (is_absolute root) eqn:Hroot; [|discriminate].
  split; [reflexivity|]. cbn [Bool.eqb negb] in Hrel.
  destruct (String.eqb path root); [injection Hrel as <-; reflexivity|].
  destruct (strip_prefix _ path) as [rest|] eqn:Hstrip; [|discriminate].
  injection Hrel as ->. apply strip_prefix_app in Hstrip.
  destruct (is_absolute rel) eqn:Hrelabs; [|reflexivity]. exfalso.
  apply is_absolute_spec in Hrelabs as [tail ->].
  assert (∃ front, path = (front +:+ String "/" (String "/" tail))%string) as [front ->].
  { destruct (String.eqb root "/").
    - exists EmptyString. exact Hstrip.
    - destruct (String.eqb_spec root ".") as [->|]; [discriminate|].
      exists root. rewrite Hstrip. rewrite append_assoc. reflexivity. }
  rewrite contains_app in Hno; [discriminate|].
  change (String.prefix "//" (String "/" (String "/" tail))) with (String.prefix EmptyString tail).
  destruct tail; reflexivity.
Qed.

Lemma path_join_absolute (root rel : string) :
  is_absolute root = true → is_absolute (path_join root rel) = true.
Proof.
  intros Hroot. unfold path_join.
  destruct (is_absolute rel) eqn:Hrel; [exact Hrel|].
  destruct (_ || _); [exact Hroot|].
  destruct (String.eqb_spec root ".") as [->|]; [discriminate|].
  destruct (String.eqb root "/"); [apply is_absolute_spec; eauto|].
  apply is_absolute_app. exact Hroot.
Qed.

(** *** Dictionaries *)

Lemma dict_set_keys {V : Type} (d : list (string * V)) (k : string) (v : V) (k' : string) :
  In k' (dict_keys (dict_set d k v)) → k' = k ∨ In k' (dict_keys d).
Proof.
  unfold dict_keys. induction d as [|[k0 v0] d IH]; cbn.
  - intros [<-|[]]. left. reflexivity.
  - destruct (String.eqb k0 k); cbn; intros [<-|H]; auto.
    destruct (IH H); auto.
Qed.

Lemma dict_set_key {V : Type} (d : list (string * V)) (k : string) (v : V) :
  In k (dict_keys (dict_set d k v)).
Proof.
  unfold dict_keys. induction d as [|[k0 v0] d IH]; cbn; [left; reflexivity|].
  destruct (String.eqb k0 k); cbn; auto.
Qed.

Lemma dict_set_keeps {V : Type} (d : list (string * V)) (k : string) (v : V) (k' : string) :
  In k' (dict_keys d) → In k' (dict_keys (dict_set d k v)).
Proof.
  unfold dict_keys. induction d as [|[k0 v0] d IH]; cbn; [tauto|].
  destruct (String.eqb_spec k0 k) as [->|_]; cbn; tauto.
Qed.

Lemma get_or_lookup {V : Type} (m : gmap string V) (k : string) (dflt : V) (P : V → Prop) :
  P dflt → (∀ v, m !! k = Some v → P v) → P (get_or m k dflt).
Proof. intros Hd Hm. unfold get_or. destruct (m !! k); [apply Hm; reflexivity|exact Hd]. Qed.

Lemma dict_set_items {V : Type} (d : list (string * V)) (k : string) (v : V) (item : string * V) :
  In item (dict_set d k v) → item = (k, v) ∨ In item d.
Proof.
  induction d as [|[k0 v0] d IH]; cbn.
  - intros [<-|[]]. left. reflexivity.
  - destruct (String.eqb k0 k); cbn; intros [<-|H]; auto.
    destruct (IH H); auto.
Qed.

(** *** The first loop of [run] *)

Section RunnerFacts.

Variable ast_parse : string → option module_.
Variable log1p : Z → Q.
Variable rng : Type.
Variable Random : Z → rng.
Variable randbelow : rng → nat → nat * rng.
Variable config : Config.
Variable root_path : string.

Local Abbreviation scanned_ok := (scanned_ok root_path).

Lemma scan_file_raises (item : string * string) (e : exn) :
  scan_file ast_parse root_path (Raises e) item = Raises e.
Proof. reflexivity. Qed.

Lemma scan_raises (enumerated : list (string * string)) (e : exn) :
  fold_left (scan_file ast_parse root_path) enumerated (Raises e) = Raises e.
Proof. induction enumerated as [|item l IH]; [reflexivity|]. cbn. exact IH. Qed.

Lemma scan_file_returns (sc0 sc : Scanned) (path text : string) :
  scan_file ast_parse root_path (Returns sc0) (path, text) = Returns sc →
  ∃ rel, relative_to path root_path = Returns rel
         ∧ loc_map sc = dict_set (loc_map sc0) rel (loc_of text).
Proof.
  unfold scan_file. cbn [pybind].
  destruct (relative_to path root_path) as [rel|e]; [|discriminate]. cbn [pybind].
  destruct (safe_parse ast_parse text) as [tree success].
  intros [= <-]. exists rel. split; reflexivity.
Qed.

Lemma scan_fold_ok (enumerated : list (string * string)) (sc0 sc : Scanned) :
  Forall (fun item => resolved (fst item) = true) enumerated →
  scanned_ok sc0 →
  fold_left (scan_file ast_parse root_path) enumerated (Returns sc0) = Returns sc →
  scanned_ok sc.
Proof.
  intros Hres. revert sc0. induction Hres as [|[path text] l Hpath Hl IH]; intros sc0 Hok Hscan.
  - cbn in Hscan. injection Hscan as <-. exact Hok.
  - cbn [fold_left] in Hscan.
    destruct (scan_file ast_parse root_path (Returns sc0) (path, text)) as [sc1|e] eqn:Hfile.
    + apply (IH sc1); [|exact Hscan].
      apply scan_file_returns in Hfile as (rel & Hrel & Hmap).
      destruct (relative_to_resolved path root_path rel Hpath Hrel) as [Hroot Hrelabs].
      intros item Hitem. rewrite Hmap in Hitem. apply dict_set_items in Hitem as [->|Hitem].
      * cbn [fst snd]. repeat split; try assumption. unfold loc_of. lia.
      * apply Hok. exact Hitem.
    + rewrite scan_raises in Hscan. discriminate.
Qed.

Lemma scan_ok (enumerated : list (string * string)) (sc : Scanned) :
  Forall (fun item => resolved (fst item) = true) enumerated →
  scan ast_parse root_path enumerated = Returns sc → scanned_ok sc.
Proof.
  intros Hres Hscan. eapply scan_fold_ok; [exact Hres| |exact Hscan].
  intros item [].
Qed.

Lemma scan_fold_lines (enumerated : list (string * string)) (sc0 sc : Scanned) :
  lines_ok sc0 →
  fold_left (scan_file ast_parse root_path) enumerated (Returns sc0) = Returns sc →
  lines_ok sc.
Proof.
  revert sc0. induction enumerated as [|[path text] l IH]; intros sc0 Hok Hscan.
  - cbn in Hscan. injection Hscan as <-. exact Hok.
  - cbn [fold_left] in Hscan.
    destruct (scan_file ast_parse root_path (Returns sc0) (path, text)) as [sc1|e] eqn:Hfile.
    + apply (IH sc1); [|exact Hscan].
      apply scan_file_returns in Hfile as (rel & Hrel & Hmap).
      intros item Hitem. rewrite Hmap in Hitem. apply dict_set_items in Hitem as [->|Hitem].
      * cbn [snd]. unfold loc_of. lia.
      * apply Hok. exact Hitem.
    + rewrite scan_raises in Hscan. discriminate.
Qed.

Lemma scan_lines (enumerated : list (string * string)) (sc : Scanned) :
  scan ast_parse root_path enumerated = Returns sc → lines_ok sc.
Proof. intros Hscan. eapply scan_fold_lines; [|exact Hscan]. intros item []. Qed.

(** Every scanned file has its relative path among the keys of
    [loc_map]. *)
Lemma scan_fold_covers (enumerated : list (string * string)) (sc0 sc : Scanned) :
  fold_left (scan_file ast_parse root_path) enumerated (Returns sc0) = Returns sc →
  (∀ key, In key (dict_keys (loc_map sc0)) → In key (dict_keys (loc_map sc)))
  ∧ ∀ path text, In (path, text) enumerated →
                 ∃ rel, relative_to path root_path = Returns rel
                        ∧ In rel (dict_keys (loc_map sc)).
Proof.
  revert sc0. induction enumerated as [|[path text] l IH]; intros sc0 Hscan.
  - cbn in Hscan. injection Hscan as <-. split; [tauto|]. intros path text [].
  - cbn [fold_left] in Hscan.
    destruct (scan_file ast_parse root_path (Returns sc0) (path, text)) as [sc1|e] eqn:Hfile.
    + apply scan_file_returns in Hfile as (rel & Hrel & Hmap).
      destruct (IH sc1 Hscan) as [Hkeep Hcover]. split.
      * intros key Hkey. apply Hkeep. rewrite Hmap. apply dict_set_keeps. exact Hkey.
      * intros path' text' [[= <- <-]|Hin]; [|exact (Hcover path' text' Hin)].
        exists rel. split; [exact Hrel|]. apply Hkeep. rewrite Hmap. apply dict_set_key.
    + rewrite scan_raises in Hscan. discriminate.
Qed.

Lemma scan_covers (enumerated : list (string * string)) (sc : Scanned) (path text : string) :
  scan ast_parse root_path enumerated = Returns sc → In (path, text) enumerated →
  ∃ rel loc, relative_to path root_path = Returns rel ∧ In (rel, loc) (loc_map sc).
Proof.
  intros Hscan Hin. destruct (scan_fold_covers enumerated _ sc Hscan) as [_ Hcover].
  destruct (Hcover path text Hin) as (rel & Hrel & Hkey).
  unfold dict_keys in Hkey. apply in_map_iff in Hkey as ([rel' loc] & Hfst & Hitem).
  cbn [fst] in Hfst. subst rel'. exists rel, loc. split; assumption.
Qed.

End RunnerFacts.

(** *** The scores that [TypingAnalyzer.analyze] stores *)

Section TypingFacts.

Variable scale : TypingScale.
Variable errors : gmap string nat.
Variable P : string → Q → Prop.

Local Abbreviation score_step := (score_step scale errors).

Lemma score_fold_raises (loc_map : list (string * Z)) (e : exn) :
  fold_left score_step loc_map (Raises e) = Raises e.
Proof. induction loc_map as [|item l IH]; [reflexivity|]. cbn. exact IH. Qed.

Lemma score_fold_inv (loc_map : list (string * Z)) (acc scores : gmap string Q) :
  (∀ item s, In item loc_map →
             typing_score scale (get_or errors (fst item) O) (snd item) = Returns s →
             P (fst item) s) →
  map_Forall P acc →
  fold_left score_step loc_map (Returns acc) = Returns scores →
  map_Forall P scores.
Proof.
  revert acc. induction loc_map as [|item l IH]; intros acc Hstep Hacc Hfold.
  - cbn in Hfold. injection Hfold as <-. exact Hacc.
  - cbn [fold_left] in Hfold. unfold score_step at 2 in Hfold. cbn [pybind] in Hfold.
    destruct (typing_score scale (get_or errors (fst item) O) (snd item)) as [s|e] eqn:Hs.
    + cbn [pybind] in Hfold. apply (IH (<[fst item := s]> acc)); [| |exact Hfold].
      * intros item' s' Hin. apply Hstep. right. exact Hin.
      * apply map_Forall_insert_2; [|exact Hacc]. apply Hstep; [left; reflexivity|exact Hs].
    + cbn [pybind] in Hfold. rewrite score_fold_raises in Hfold. discriminate.
Qed.

End TypingFacts.

Lemma typing_scores_inv (scale : TypingScale) (run : run_outcome string)
    (loc_map : list (string * Z)) (coverage : gmap string Q) (typing : TypingResult)
    (P : string → Q → Prop) :
  TypingAnalyzer_analyze scale run loc_map coverage = Returns typing →
  (∀ item err_count s, In item loc_map →
                       typing_score scale err_count (snd item) = Returns s → P (fst item) s) →
  map_Forall P (typing_scores typing).
Proof.
  unfold TypingAnalyzer_analyze. intros Hrun HP.
  destruct run as [exc|p].
  - injection Hrun as <-. cbn. apply map_Forall_empty.
  - destruct (negb _).
    + injection Hrun as <-. cbn. apply map_Forall_empty.
    + set (errors := fold_left count_error _ _) in Hrun.
      destruct (fold_left (score_step scale errors) loc_map (Returns ∅)) as [scores|e] eqn:Hfold;
        [|discriminate].
      cbn [pybind] in Hrun. injection Hrun as <-. cbn [typing_scores].
      apply (score_fold_inv scale errors P loc_map ∅ scores); [|apply map_Forall_empty|exact Hfold].
      intros item s Hin Hs. eapply HP; eassumption.
Qed.

(** The scores are keyed by the paths of [loc_map]. *)
Lemma typing_scores_keys (scale : TypingScale) (run : run_outcome string)
    (loc_map : list (string * Z)) (coverage : gmap string Q) (typing : TypingResult)
    (k : string) (v : Q) :
  TypingAnalyzer_analyze scale run loc_map coverage = Returns typing →
  typing_scores typing !! k = Some v → In k (dict_keys loc_map).
Proof.
  intros Hrun Hk.
  pose proof (typing_scores_inv scale run loc_map coverage typing
                (fun k _ => In k (dict_keys loc_map)) Hrun) as H.
  apply (H (fun item _ _ Hin _ => in_map fst _ _ Hin) k v Hk).
Qed.

(** *** What [run] returns *)

Section RunFacts.

Variable ast_parse : string → option module_.
Variable log1p : Z → Q.
Variable rng : Type.
Variable Random : Z → rng.
Variable randbelow : rng → nat → nat * rng.
Variable config : Config.
Variable root_path : string.
Variable enumerated : list (string * string).
Variable lint_run : run_outcome (option (list LintMessage)).
Variable typing_run : run_outcome string.

Local Abbreviation run :=
  (Runner_run ast_parse log1p rng Random randbelow config root_path enumerated lint_run typing_run).

Local Abbreviation lint_result := (LintAnalyzer_analyze (weights_pylint_categories config) lint_run).

Local Abbreviation reported sc typing :=
  (fun item : string * Z =>
     report_file log1p config root_path sc
       (DuplicationAnalyzer_analyze ast_parse (duplication config) (sources sc))
       (ComplexityAnalyzer_analyze ast_parse (complexity_scale (scoring config))
          (sources sc) (loc_map sc))
       lint_result typing (fst item) (snd item)).

Lemma run_returns (report : Report) :
  run = Returns report →
  ∃ sc typing,
    scan ast_parse root_path enumerated = Returns sc
    ∧ TypingAnalyzer_analyze (typing_error_scale (scoring config)) typing_run
        (loc_map sc) (coverage_ratio sc) = Returns typing
    ∧ files report = List.map (fun item => fst (reported sc typing item)) (loc_map sc)
    ∧ degraded (pr_confidence (project report))
      = sorted_strings (⋃ (List.map (fun item => snd (reported sc typing item)) (loc_map sc)))
    ∧ pr_summary (project report) = _aggregate_project (files report) (weights_roles config)
    ∧ per_metric (pr_confidence (project report))
      = {| pm_duplication :=
             mean_or_zero (List.map (fun f => conf_duplication (fr_confidence f)) (files report));
           pm_lint := mean_or_zero (List.map (fun f => conf_lint (fr_confidence f)) (files report));
           pm_typing :=
             mean_or_zero (List.map (fun f => conf_typing (fr_confidence f)) (files report));
           pm_complexity :=
             mean_or_zero (List.map (fun f => conf_complexity (fr_confidence f)) (files report)) |}.
Proof.
  unfold Runner_run.
  destruct (scan ast_parse root_path enumerated) as [sc|e]; [|discriminate]. cbn [pybind].
  destruct (TypingAnalyzer_analyze _ typing_run (loc_map sc) (coverage_ratio sc))
    as [typing|e] eqn:Htyping; [|discriminate]. cbn [pybind].
  destruct (_bootstrap_interval _ _ _ _ _ _) as [interval|e]; [|discriminate]. cbn [pybind].
  intros [= <-]. exists sc, typing. cbn [files project pr_confidence pr_summary degraded per_metric].
  rewrite !List.map_map. split; [reflexivity|]. split; [exact Htyping|].
  repeat split; reflexivity.
Qed.

(** The typing score stored for a file is the default whenever the
    looked-up key is an absolute path. *)
Lemma stored_typing_score (report : Report) :
  Forall (fun item => resolved (fst item) = true) enumerated →
  run = Returns report →
  ∀ fr, In fr (files report) → fm_typing_score (fr_metrics fr) = 100%Q.
Proof.
  intros Hres Hrun fr Hfr.
  destruct (run_returns report Hrun) as (sc & typing & Hscan & Htyping & Hfiles & _).
  rewrite Hfiles in Hfr. apply in_map_iff in Hfr as ([rel loc] & <- & Hitem).
  cbn [fst snd report_file fr_metrics fm_typing_score].
  destruct (scan_ok ast_parse root_path enumerated sc Hres Hscan (rel, loc) Hitem)
    as (Hroot & _ & _).
  unfold get_or.
  destruct (typing_scores typing !! path_join root_path rel) as [v|] eqn:Hlookup; [|reflexivity].
  exfalso. apply (typing_scores_keys _ _ _ _ _ _ _ Htyping) in Hlookup.
  unfold dict_keys in Hlookup. apply in_map_iff in Hlookup as (item' & Hkey & Hitem').
  destruct (scan_ok ast_parse root_path enumerated sc Hres Hscan item' Hitem') as (_ & Hrel & _).
  rewrite Hkey, (path_join_absolute root_path rel Hroot) in Hrel. discriminate.
Qed.

(** Every scanned file has a [FileReport], filed under its relative
    path, which differs from the key that is looked up. *)
Lemma every_file_is_reported (report : Report) (path text : string) :
  Forall (fun item => resolved (fst item) = true) enumerated →
  run = Returns report → In (path, text) enumerated →
  ∃ rel fr, relative_to path root_path = Returns rel
            ∧ In fr (files report) ∧ fr_path fr = rel
            ∧ path_join root_path rel ≠ rel.
Proof.
  intros Hres Hrun Hin.
  destruct (run_returns report Hrun) as (sc & typing & Hscan & _ & Hfiles & _).
  destruct (scan_covers ast_parse root_path enumerated sc path text Hscan Hin)
    as (rel & loc & Hrel & Hitem).
  exists rel, (fst (reported sc typing (rel, loc))).
  split; [exact Hrel|]. split; [|split; [reflexivity|]].
  - rewrite Hfiles. apply in_map_iff. exists (rel, loc). split; [reflexivity|exact Hitem].
  - rewrite Forall_forall in Hres. pose proof (Hres (path, text)) as Hpath.
    rewrite list_elem_of_In in Hpath. specialize (Hpath Hin). cbn [fst] in Hpath.
    destruct (relative_to_resolved path root_path rel Hpath Hrel) as [Hroot Hrelabs].
    intros Heq. pose proof (path_join_absolute root_path rel Hroot) as Habs.
    rewrite Heq in Habs. congruence.
Qed.

End RunFacts.

(** C2. In every scan of resolved files that returns a report, every
    scanned file has a [FileReport], filed under its relative path; the
    looked-up key [str(root_path / rel_path)] differs from that path, and
    the typing score in the [FileReport] is exactly 100.0, whatever the
    type checker printed: the scores are stored under the relative paths
    of [loc_map] and looked up under the joined path. The same holds of
    every [FileReport] of the report. *)
Theorem C2_typing_score_lookup_misses
    (ast_parse : string → option module_) (log1p : Z → Q)
    (rng : Type) (Random : Z → rng) (randbelow : rng → nat → nat * rng)
    (config : Config) (root_path : string) (enumerated : list (string * string))
    (lint_run : run_outcome (option (list LintMessage))) (typing_run : run_outcome string)
    (report : Report) :
  Forall (fun item => resolved (fst item) = true) enumerated →
  Runner_run ast_parse log1p rng Random randbelow config root_path enumerated lint_run typing_run
  = Returns report →
  (∀ path text, In (path, text) enumerated →
     ∃ rel fr, relative_to path root_path = Returns rel
               ∧ In fr (files report) ∧ fr_path fr = rel
               ∧ path_join root_path rel ≠ rel
               ∧ fm_typing_score (fr_metrics fr) = 100%Q)
  ∧ (∀ fr, In fr (files report) →
           path_join root_path (fr_path fr) ≠ fr_path fr →
           fm_typing_score (fr_metrics fr) = 100%Q).
Proof.
  intros Hres Hrun. split.
  - intros path text Hin.
    destruct (every_file_is_reported ast_parse log1p rng Random randbelow config root_path
                enumerated lint_run typing_run report path text Hres Hrun Hin)
      as (rel & fr & Hrel & Hfr & Hpath & Hkey).
    exists rel, fr. repeat split; try assumption.
    exact (stored_typing_score ast_parse log1p rng Random randbelow config root_path enumerated
             lint_run typing_run report Hres Hrun fr Hfr).
  - intros fr Hfr _.
    exact (stored_typing_score ast_parse log1p rng Random randbelow config root_path enumerated
             lint_run typing_run report Hres Hrun fr Hfr).
Qed.

Lemma C2_witness :
  ∃ report fr,
    sample_run one_file_project lint_clean typing_one_error = Returns report
    ∧ In fr (files report) ∧ fr_path fr = "mod.py"%string
    ∧ path_join "/proj" "mod.py" ≠ "mod.py"%string
    ∧ fm_typing_score (fr_metrics fr) = 100%Q.
Proof.
  destruct (sample_run one_file_project lint_clean typing_one_error) as [report|e] eqn:Hrun;
    [|vm_compute in Hrun; discriminate].
  destruct (C2_typing_score_lookup_misses one_file_parser log1p_floor Z lcg_Random lcg_randbelow
              DEFAULT_CONFIG "/proj" one_file_project lint_clean typing_one_error report
              ltac:(repeat constructor) Hrun) as [Hfile _].
  destruct (Hfile "/proj/mod.py"%string ("x = 1" +:+ LF) ltac:(left; reflexivity))
    as (rel & fr & Hrel & Hfr & Hpath & Hkey & Hscore).
  vm_compute in Hrel. injection Hrel as <-.
  exists report, fr. repeat split; assumption.
Defined.

(** *** Degraded adapters *)

Lemma union_list_same (X : gset string) (l : list (gset string)) :
  l ≠ [] → Forall (fun Y => Y = X) l → ⋃ l = X.
Proof.
  intros Hne Hall. induction Hall as [|Y l -> Hl IH]; [congruence|].
  rewrite union_list_cons. destruct l as [|Z l].
  - rewrite union_list_nil. apply (right_id_L ∅ (∪)).
  - rewrite IH by discriminate. apply (idemp_L (∪)).
Qed.

Section DegradationFacts.

Variable ast_parse : string → option module_.
Variable log1p : Z → Q.
Variable rng : Type.
Variable Random : Z → rng.
Variable randbelow : rng → nat → nat * rng.
Variable config : Config.
Variable root_path : string.
Variable enumerated : list (string * string).
Variable lint_run : run_outcome (option (list LintMessage)).
Variable typing_run : run_outcome string.

Local Abbreviation run :=
  (Runner_run ast_parse log1p rng Random randbelow config root_path enumerated lint_run typing_run).

Local Abbreviation lint_result := (LintAnalyzer_analyze (weights_pylint_categories config) lint_run).

Lemma lint_degraded_scores : lint_degraded lint_result = true → lint_weighted_scores lint_result = ∅.
Proof.
  unfold LintAnalyzer_analyze. destruct lint_run as [exc|p]; [reflexivity|].
  destruct (negb _); [reflexivity|]. destruct (stdout p); [discriminate|reflexivity].
Qed.

(** For the files of a report, when the lint adapter is degraded and the
    typing adapter is not: the lint score is the neutral 100, the lint
    confidence is the base confidence times 0.4 while the typing
    confidence is the base confidence itself, and a reason is recorded;
    and with at least one file the degraded list is [["lint"]]. *)
Lemma lint_only_degradation (report : Report) (sc : Scanned) (typing : TypingResult) :
  run = Returns report →
  scan ast_parse root_path enumerated = Returns sc →
  TypingAnalyzer_analyze (typing_error_scale (scoring config)) typing_run
    (loc_map sc) (coverage_ratio sc) = Returns typing →
  lint_degraded lint_result = true → typing_degraded typing = false →
  (∀ fr, In fr (files report) →
         lint_weighted_score (fr_metrics fr) = 100%Q
         ∧ (∃ base parsed_factor duplication_factor,
              conf_lint (fr_confidence fr) = (base * (4 # 10))%Q
              ∧ conf_typing (fr_confidence fr) = (base * 1)%Q
              ∧ conf_complexity (fr_confidence fr) = (base * parsed_factor)%Q
              ∧ conf_duplication (fr_confidence fr) = (base * duplication_factor)%Q
              ∧ (parsed_factor = 1%Q ∨ parsed_factor = (5 # 10)%Q)
              ∧ (duplication_factor = 1%Q ∨ duplication_factor = (5 # 10)%Q))
         ∧ missing_reasons fr ≠ [])
  ∧ (files report ≠ [] → degraded (pr_confidence (project report)) = ["lint"%string]).
Proof.
  intros Hrun Hscan Htyping Hlint Htyp.
  destruct (run_returns _ _ _ _ _ _ _ _ _ _ report Hrun)
    as (sc' & typing' & Hscan' & Htyping' & Hfiles & Hdegraded & _).
  rewrite Hscan in Hscan'. injection Hscan' as <-.
  rewrite Htyping in Htyping'. injection Htyping' as <-.
  split.
  - intros fr Hfr. rewrite Hfiles in Hfr. apply in_map_iff in Hfr as ([rel loc] & <- & Hitem).
    cbn [fst snd report_file fr_metrics lint_weighted_score fr_confidence conf_lint conf_typing
         conf_complexity conf_duplication missing_reasons].
    rewrite Hlint, Htyp, lint_degraded_scores by exact Hlint.
    split; [reflexivity|]. split; [|discriminate].
    do 3 eexists. do 4 (split; [reflexivity|]).
    split; [destruct (get_or (parser_success sc) rel false)
           |destruct (get_or (dup_parser_success _) rel false)]; auto.
  - intros Hne. rewrite Hdegraded. rewrite (union_list_same {["lint"%string]}).
    + unfold sorted_strings. rewrite elements_singleton. reflexivity.
    + rewrite Hfiles in Hne. destruct (loc_map sc); [contradiction|discriminate].
    + apply Forall_forall. intros X HX. apply list_elem_of_In, in_map_iff in HX as (item & <- & _).
      cbn [report_file snd]. rewrite Hlint, Htyp. apply (right_id_L ∅ (∪)).
Qed.

(** A file has reasons recorded exactly when one of the two adapters is
    degraded. *)
Lemma missing_reasons_iff (report : Report) (sc : Scanned) (typing : TypingResult) :
  run = Returns report →
  scan ast_parse root_path enumerated = Returns sc →
  TypingAnalyzer_analyze (typing_error_scale (scoring config)) typing_run
    (loc_map sc) (coverage_ratio sc) = Returns typing →
  ∀ fr, In fr (files report) →
        missing_reasons fr ≠ [] ↔ lint_degraded lint_result = true ∨ typing_degraded typing = true.
Proof.
  intros Hrun Hscan Htyping fr Hfr.
  destruct (run_returns _ _ _ _ _ _ _ _ _ _ report Hrun)
    as (sc' & typing' & Hscan' & Htyping' & Hfiles & _).
  rewrite Hscan in Hscan'. injection Hscan' as <-.
  rewrite Htyping in Htyping'. injection Htyping' as <-.
  rewrite Hfiles in Hfr. apply in_map_iff in Hfr as ([rel loc] & <- & Hitem).
  cbn [fst snd report_file missing_reasons].
  destruct (lint_degraded lint_result), (typing_degraded typing); cbn [app];
    split; try discriminate; auto; intros [H|H]; discriminate.
Qed.

End DegradationFacts.

(** C7, as the code has it. In a scan that reports at least one file,
    if the lint adapter is degraded and the typing adapter is not, the
    degraded list of the project is exactly [["lint"]]; whatever the number
    of files, every file then has lint score 100, its lint confidence is
    the base confidence times 0.4 while the typing, complexity and
    duplication confidences carry the factors 1, and 1 or 0.5 by the parse
    result, and its [missing_reasons] is non-empty. For any file of any
    scan, [missing_reasons] is non-empty iff the lint or the typing adapter
    was degraded. *)
Theorem C7_lint_degradation_is_isolated
    (ast_parse : string → option module_) (log1p : Z → Q)
    (rng : Type) (Random : Z → rng) (randbelow : rng → nat → nat * rng)
    (config : Config) (root_path : string) (enumerated : list (string * string))
    (lint_run : run_outcome (option (list LintMessage))) (typing_run : run_outcome string)
    (report : Report) :
  Runner_run ast_parse log1p rng Random randbelow config root_path enumerated lint_run typing_run
  = Returns report →
  ∃ sc typing,
    scan ast_parse root_path enumerated = Returns sc
    ∧ TypingAnalyzer_analyze (typing_error_scale (scoring config)) typing_run
        (loc_map sc) (coverage_ratio sc) = Returns typing
    ∧ (lint_degraded (LintAnalyzer_analyze (weights_pylint_categories config) lint_run) = true →
       typing_degraded typing = false →
       (files report ≠ [] → degraded (pr_confidence (project report)) = ["lint"%string])
       ∧ ∀ fr, In fr (files report) →
               lint_weighted_score (fr_metrics fr) = 100%Q
               ∧ (∃ base parsed_factor duplication_factor,
                    conf_lint (fr_confidence fr) = (base * (4 # 10))%Q
                    ∧ conf_typing (fr_confidence fr) = (base * 1)%Q
                    ∧ conf_complexity (fr_confidence fr) = (base * parsed_factor)%Q
                    ∧ conf_duplication (fr_confidence fr) = (base * duplication_factor)%Q
                    ∧ (parsed_factor = 1%Q ∨ parsed_factor = (5 # 10)%Q)
                    ∧ (duplication_factor = 1%Q ∨ duplication_factor = (5 # 10)%Q))
               ∧ missing_reasons fr ≠ [])
    ∧ (∀ fr, In fr (files report) →
             missing_reasons fr ≠ []
             ↔ lint_degraded (LintAnalyzer_analyze (weights_pylint_categories config) lint_run) = true
               ∨ typing_degraded typing = true).
Proof.
  intros Hrun.
  destruct (run_returns _ _ _ _ _ _ _ _ _ _ report Hrun) as (sc & typing & Hscan & Htyping & _).
  exists sc, typing. split; [exact Hscan|]. split; [exact Htyping|]. split.
  - intros Hlint Htyp.
    destruct (lint_only_degradation _ _ _ _ _ _ _ _ _ _ report sc typing
                Hrun Hscan Htyping Hlint Htyp) as [Hfiles Hdegraded].
    split; assumption.
  - exact (missing_reasons_iff _ _ _ _ _ _ _ _ _ _ report sc typing Hrun Hscan Htyping).
Qed.

Lemma C7_witness :
  ∃ report,
    sample_run one_file_project lint_unavailable typing_clean = Returns report
    ∧ degraded (pr_confidence (project report)) = ["lint"%string]
    ∧ ∀ fr, In fr (files report) →
            lint_weighted_score (fr_metrics fr) = 100%Q ∧ missing_reasons fr ≠ [].
Proof.
  eexists. split; [vm_compute; reflexivity|].
  destruct (C7_lint_degradation_is_isolated one_file_parser log1p_floor Z lcg_Random lcg_randbelow
              DEFAULT_CONFIG "/proj" one_file_project lint_unavailable typing_clean _
              ltac:(vm_compute; reflexivity))
    as (sc & typing & Hscan & Htyping & Hlint & _).
  assert (typing_degraded typing = false) as Htyp.
  { vm_compute in Hscan. injection Hscan as <-.
    vm_compute in Htyping. injection Htyping as <-. reflexivity. }
  destruct (Hlint ltac:(reflexivity) Htyp) as [Hdegraded Hfiles].
  split; [apply Hdegraded; discriminate|].
  intros fr Hfr. destruct (Hfiles fr Hfr) as (Hscore & _ & Hmissing). split; assumption.
Defined.

(** C7 as stated fails without files: the degraded metrics are collected
    inside the loop over the files, so a scan of a directory without Python
    files in which pylint could not be launched while the type checker
    exited with status 0 reports an empty degraded list, although the lint
    adapter is degraded and the typing adapter is not. *)
Lemma C7_no_files_counterexample :
  ∃ report,
    sample_run [] lint_unavailable typing_clean = Returns report
    ∧ lint_degraded (LintAnalyzer_analyze (weights_pylint_categories DEFAULT_CONFIG)
                       lint_unavailable) = true
    ∧ (∃ typing,
         TypingAnalyzer_analyze DEFAULT_TYPING_SCALE typing_clean [] ∅ = Returns typing
         ∧ typing_degraded typing = false)
    ∧ files report = []
    ∧ degraded (pr_confidence (project report)) = []
    ∧ degraded (pr_confidence (project report)) ≠ ["lint"%string].
Proof.
  eexists. split; [vm_compute; reflexivity|].
  split; [reflexivity|]. split; [eexists; split; reflexivity|].
  split; [reflexivity|]. split; [reflexivity|]. discriminate.
Qed.

Example lint_degraded_one_file :
  ∃ report,
    sample_run one_file_project lint_unavailable typing_clean = Returns report
    ∧ degraded (pr_confidence (project report)) = ["lint"%string]
    ∧ List.map missing_reasons (files report)
      = [["pylint unavailable: [Errno 2] No such file or directory: 'pylint'"%string]].
Proof.
  eexists. split; [vm_compute; reflexivity|]. split; reflexivity.
Qed.


(** ** Ranges of scores, ratios and confidences *)

Lemma Qmin_1_fraction (x : Q) : (0 <= x)%Q → is_fraction (Qmin 1 x).
Proof.
  intros Hx. split; [|apply Q.le_min_l].
  apply Q.min_glb; [discriminate|exact Hx].
Qed.

Lemma Qdiv_nonneg (a b : Q) : (0 <= a)%Q → (0 < b)%Q → (0 <= a / b)%Q.
Proof. intros Ha Hb. apply Qle_shift_div_l; [exact Hb|]. rewrite Qmult_0_l. exact Ha. Qed.

Lemma Qdiv_at_most (a b c : Q) : (0 < b)%Q → (a <= c * b)%Q → (a / b <= c)%Q.
Proof. intros Hb H. apply Qle_shift_div_r; assumption. Qed.

Lemma inject_Z_nonneg (z : Z) : 0 <= z → (0 <= inject_Z z)%Q.
Proof. intros H. change 0%Q with (inject_Z 0). rewrite <- Zle_Qle. exact H. Qed.

Lemma inject_Z_pos (z : Z) : 0 < z → (0 < inject_Z z)%Q.
Proof. intros H. change 0%Q with (inject_Z 0). rewrite <- Zlt_Qlt. exact H. Qed.

Lemma floor_pos (x : Q) : (0 < Qmax (1 # 1000000) x)%Q.
Proof. eapply Qlt_le_trans; [|apply Q.le_max_l]. reflexivity. Qed.

Lemma floor_pos_r (x : Q) : (0 < Qmax x (1 # 1000000))%Q.
Proof. eapply Qlt_le_trans; [|apply Q.le_max_r]. reflexivity. Qed.

(** A dictionary filled by a loop of assignments. *)
Lemma fold_insert_Forall {A V : Type} (P : string → V → Prop) (key : A → string) (val : A → V)
    (l : list A) (acc : gmap string V) :
  (∀ a, In a l → P (key a) (val a)) → map_Forall P acc →
  map_Forall P (fold_left (fun m a => <[key a := val a]> m) l acc).
Proof.
  revert acc. induction l as [|a l IH]; intros acc Hl Hacc; [exact Hacc|].
  cbn. apply IH.
  - intros a' Ha'. apply Hl. right. exact Ha'.
  - apply map_Forall_insert_2; [|exact Hacc]. apply Hl. left. reflexivity.
Qed.

Lemma get_or_Forall {V : Type} (P : V → Prop) (m : gmap string V) (k : string) (dflt : V) :
  map_Forall (fun _ => P) m → P dflt → P (get_or m k dflt).
Proof.
  intros Hm Hd. unfold get_or. destruct (m !! k) as [v|] eqn:E; [|exact Hd].
  exact (Hm k v E).
Qed.

(** *** Duplication ratio *)

Lemma ratio_of_fraction (items : list (string * list Z)) (path : string) (fprints : list Z) :
  is_fraction (ratio_of items path fprints).
Proof.
  unfold ratio_of. destruct fprints as [|h t]; [split; discriminate|].
  apply Qmin_1_fraction, Qdiv_nonneg.
  - apply inject_Z_nonneg. lia.
  - apply inject_Z_pos. lia.
Qed.

Lemma compute_ratios_fraction (fingerprints : list (string * list Z)) :
  map_Forall (fun _ => is_fraction) (_compute_ratios fingerprints).
Proof.
  unfold _compute_ratios.
  apply (fold_insert_Forall (fun _ => is_fraction) fst
           (fun item => ratio_of fingerprints (fst item) (snd item))).
  - intros item _. apply ratio_of_fraction.
  - apply map_Forall_empty.
Qed.

(** *** Lint score *)

Lemma penalty_nonneg (weights : gmap string Q) (cat_counts : gmap string nat) :
  map_Forall (fun _ w => (0 <= w)%Q) weights → (0 <= penalty weights cat_counts)%Q.
Proof.
  intros Hw. unfold penalty.
  apply (map_fold_weak_ind (fun total _ => (0 <= total)%Q)); [apply Qle_refl|].
  intros cat count m total _ Htotal.
  assert (0 <= get_or weights cat 0)%Q as Hcat
    by (apply (get_or_Forall (fun w => (0 <= w)%Q)); [exact Hw|apply Qle_refl]).
  pose proof (inject_Z_nonneg (Z.of_nat count) ltac:(lia)) as Hcount.
  pose proof (Qmult_le_0_compat _ _ Hcat Hcount). lra.
Qed.

Lemma weighted_score_is_score (weights : gmap string Q) (cat_counts : gmap string nat) :
  map_Forall (fun _ w => (0 <= w)%Q) weights → is_score (weighted_score weights cat_counts).
Proof.
  intros Hw. unfold weighted_score. split; [apply Q.le_max_l|].
  apply Q.max_lub; [discriminate|]. pose proof (penalty_nonneg weights cat_counts Hw). lra.
Qed.

Lemma lint_scores_are_scores (weights : gmap string Q)
    (run : run_outcome (option (list LintMessage))) :
  map_Forall (fun _ w => (0 <= w)%Q) weights →
  map_Forall (fun _ => is_score) (lint_weighted_scores (LintAnalyzer_analyze weights run)).
Proof.
  intros Hw. unfold LintAnalyzer_analyze.
  destruct run as [exc|p]; [apply map_Forall_empty|].
  destruct (negb _); [apply map_Forall_empty|].
  destruct (stdout p); [|apply map_Forall_empty]. cbn [lint_weighted_scores].
  intros path score Hlookup. rewrite lookup_fmap in Hlookup.
  destruct (_ !! path) as [counts|]; [|discriminate].
  injection Hlookup as <-. apply weighted_score_is_score. exact Hw.
Qed.

(** *** Typing score *)

Lemma typing_score_is_score (scale : TypingScale) (err_count : nat) (loc : Z) (s : Q) :
  (max_score_at_0 scale <= 100)%Q →
  typing_score scale err_count loc = Returns s → is_score s.
Proof.
  intros Hmax. unfold typing_score, Qleb, py_div.
  pose proof (density_nonneg err_count loc) as Hd.
  set (density := (inject_Z (Z.of_nat err_count * 1000) / inject_Z (Z.max 1 loc))%Q) in *.
  destruct (Qle_bool (zero_score_at_20 scale) density) eqn:Hle.
  - intros [= <-]. split; discriminate.
  - destruct (Qeq_bool (zero_score_at_20 scale) 0); [discriminate|]. cbn [pybind].
    intros [= <-]. split; [apply Q.le_max_l|]. apply Q.max_lub; [discriminate|].
    assert (density < zero_score_at_20 scale)%Q as Hlt.
    { apply Qnot_le_lt. intros H. apply Qle_bool_iff in H. congruence. }
    assert (0 < zero_score_at_20 scale)%Q as Hz by (eapply Qle_lt_trans; eassumption).
    assert (0 <= density / zero_score_at_20 scale)%Q as Hq by (apply Qdiv_nonneg; assumption).
    assert (density / zero_score_at_20 scale <= 1)%Q as Hq1.
    { apply Qdiv_at_most; [exact Hz|]. rewrite Qmult_1_l. apply Qlt_le_weak. exact Hlt. }
    assert (max_score_at_0 scale / zero_score_at_20 scale * density
            == max_score_at_0 scale * (density / zero_score_at_20 scale))%Q as ->
      by (field; intros H0; rewrite H0 in Hz; discriminate).
    destruct (Qlt_le_dec (max_score_at_0 scale) 0) as [Hneg|Hpos].
    + assert (0 <= (- max_score_at_0 scale) * (1 - density / zero_score_at_20 scale))%Q
        by (apply Qmult_le_0_compat; lra).
      lra.
    + pose proof (Qmult_le_0_compat _ _ Hpos Hq). lra.
Qed.

(** *** Complexity score *)

Lemma compute_nonneg (tree : module_) : 0 <= _compute tree.
Proof. destruct tree as [body]. rewrite compute_cost. apply costs_nonneg. Qed.

Lemma complexity_score_is_score (scale : ComplexityScale) (complexity loc : Z) :
  0 <= complexity → 1 <= loc → is_score (complexity_score scale complexity loc).
Proof.
  intros Hc Hloc. unfold complexity_score. cbv zeta.
  destruct (hard_cap scale <=? complexity); [split; discriminate|].
  assert (0 <= inject_Z complexity / inject_Z loc)%Q as Hper.
  { apply Qdiv_nonneg; [apply inject_Z_nonneg; exact Hc|apply inject_Z_pos; lia]. }
  pose proof (floor_pos_r (target_per_loc scale)) as Hfloor.
  destruct (Qmin_1_fraction _ (Qdiv_nonneg _ _ Hper Hfloor)) as [H0 H1].
  split; [apply Q.le_max_l|]. apply Q.max_lub; [discriminate|]. lra.
Qed.

Lemma complexity_scores_are_scores (ast_parse : string → option module_)
    (scale : ComplexityScale) (sources : list (string * string)) (loc_map : list (string * Z)) :
  map_Forall (fun _ => is_score)
             (cx_scores (ComplexityAnalyzer_analyze ast_parse scale sources loc_map)).
Proof.
  unfold ComplexityAnalyzer_analyze.
  set (init := {| cx_scores := ∅; cx_raw := ∅; cx_per_loc := ∅ |}).
  assert (map_Forall (fun _ => is_score) (cx_scores init)) as Hinit by apply map_Forall_empty.
  revert Hinit. generalize init. clear init.
  induction sources as [|[path source] sources IH]; intros acc Hacc; [exact Hacc|].
  cbn [fold_left]. apply IH. cbn [fst snd].
  destruct (safe_parse ast_parse source) as [[tree|] [|]]; cbn [cx_scores];
    apply map_Forall_insert_2; try exact Hacc; try (split; discriminate).
  apply complexity_score_is_score; [apply compute_nonneg|lia].
Qed.

(** *** Confidence *)

Section ConfidenceFacts.

Variable log1p : Z → Q.
Hypothesis log1p_nonneg : ∀ n, 0 <= n → (0 <= log1p n)%Q.
Hypothesis log1p_300 : (0 < log1p 300)%Q.

Lemma base_confidence_fraction (success : bool) (loc : Z) :
  0 <= loc → is_fraction (base_confidence log1p success loc).
Proof.
  intros Hloc. unfold base_confidence.
  destruct (Qmin_1_fraction _ (Qdiv_nonneg _ _ (log1p_nonneg loc Hloc) log1p_300)) as [H0 H1].
  generalize dependent (Qmin 1 (log1p loc / log1p 300)). intros b H0 H1.
  destruct success; split; lra.
Qed.

End ConfidenceFacts.

Lemma factor_fraction (base : Q) (flag : bool) (low : Q) :
  is_fraction base → is_fraction low → is_fraction (base * (if flag then 1 else low)).
Proof. intros [Hb0 Hb1] [Hl0 Hl1]. destruct flag; split; nra. Qed.

Lemma factor_fraction_neg (base : Q) (flag : bool) (low : Q) :
  is_fraction base → is_fraction low → is_fraction (base * (if flag then low else 1)).
Proof. intros [Hb0 Hb1] [Hl0 Hl1]. destruct flag; split; nra. Qed.

Lemma Qsum_range (lo hi : Q) (xs : list Q) :
  Forall (in_range lo hi) xs →
  (lo * inject_Z (Z.of_nat (length xs)) <= Qsum xs)%Q
  ∧ (Qsum xs <= hi * inject_Z (Z.of_nat (length xs)))%Q.
Proof.
  unfold Qsum. induction 1 as [|x xs [Hx0 Hx1] Hxs [IH0 IH1]].
  - cbn [length fold_right]. change (inject_Z (Z.of_nat 0)) with 0%Q. split; lra.
  - cbn [length fold_right]. rewrite Nat2Z.inj_succ. unfold Z.succ.
    rewrite inject_Z_plus. change (inject_Z 1) with 1%Q. split; lra.
Qed.

Lemma mean_range (lo hi : Q) (xs : list Q) :
  xs ≠ [] → Forall (in_range lo hi) xs → in_range lo hi (mean xs).
Proof.
  intros Hne Hall. destruct (Qsum_range lo hi xs Hall) as [H0 H1]. unfold mean.
  assert (0 < inject_Z (Z.of_nat (length xs)))%Q as Hlen.
  { apply inject_Z_pos. destruct xs; [congruence|cbn; lia]. }
  split.
  - apply Qle_shift_div_l; assumption.
  - apply Qle_shift_div_r; assumption.
Qed.

Lemma mean_or_zero_fraction (xs : list Q) :
  Forall is_fraction xs → is_fraction (mean_or_zero xs).
Proof.
  intros Hall. unfold mean_or_zero. destruct xs as [|x xs]; [split; discriminate|].
  apply mean_range; [discriminate|exact Hall].
Qed.

(** *** The report of one file *)

Section ReportFacts.

Variable ast_parse : string → option module_.
Variable log1p : Z → Q.
Hypothesis log1p_nonneg : ∀ n, 0 <= n → (0 <= log1p n)%Q.
Hypothesis log1p_300 : (0 < log1p 300)%Q.

Variable config : Config.
Hypothesis categories_nonneg : non_negative (weights_pylint_categories config).

Lemma report_file_scores_in_range (root_path : string) (sc : Scanned)
    (lint_run : run_outcome (option (list LintMessage))) (typing : TypingResult)
    (rel_path : string) (loc : Z) :
  0 <= loc →
  map_Forall (fun _ => is_score) (typing_scores typing) →
  file_scores_in_range
    (fst (report_file log1p config root_path sc
            (DuplicationAnalyzer_analyze ast_parse (duplication config) (sources sc))
            (ComplexityAnalyzer_analyze ast_parse (complexity_scale (scoring config))
               (sources sc) (loc_map sc))
            (LintAnalyzer_analyze (weights_pylint_categories config) lint_run)
            typing rel_path loc)).
Proof.
  intros Hloc Htyping.
  set (dup := DuplicationAnalyzer_analyze _ _ _).
  set (cx := ComplexityAnalyzer_analyze _ _ _ _).
  set (lint := LintAnalyzer_analyze _ _).
  assert (is_fraction (get_or (dup_ratios dup) rel_path 0%Q)) as Hratio.
  { apply (get_or_Forall is_fraction); [|split; discriminate].
    apply compute_ratios_fraction. }
  assert (is_score (get_or (lint_weighted_scores lint) (path_join root_path rel_path) 100%Q))
    as Hlint.
  { apply (get_or_Forall is_score); [|split; discriminate].
    apply lint_scores_are_scores. exact categories_nonneg. }
  assert (is_score (get_or (typing_scores typing) (path_join root_path rel_path) 100%Q))
    as Htyp by (apply (get_or_Forall is_score); [exact Htyping|split; discriminate]).
  assert (is_score (get_or (cx_scores cx) rel_path 100%Q)) as Hcx.
  { apply (get_or_Forall is_score); [|split; discriminate].
    apply complexity_scores_are_scores. }
  pose proof (base_confidence_fraction log1p log1p_nonneg log1p_300
                (get_or (parser_success sc) rel_path false) loc Hloc) as Hbase.
  assert (is_fraction (5 # 10)%Q) as Hhalf by (split; discriminate).
  assert (is_fraction (4 # 10)%Q) as Hdeg by (split; discriminate).
  pose proof (factor_fraction _ (get_or (dup_parser_success dup) rel_path false) _ Hbase Hhalf)
    as Hcdup.
  pose proof (factor_fraction_neg _ (lint_degraded lint) _ Hbase Hdeg) as Hclint.
  pose proof (factor_fraction_neg _ (typing_degraded typing) _ Hbase Hdeg) as Hctyp.
  pose proof (factor_fraction _ (get_or (parser_success sc) rel_path false) _ Hbase Hhalf)
    as Hccx.
  unfold report_file. cbn [fst].
  constructor; cbn [fr_loc fr_metrics fr_grade fr_confidence duplication_ratio lint_weighted_score
                    fm_typing_score fm_complexity_score conf_duplication conf_lint conf_typing
                    conf_complexity conf_overall]; try assumption.
  apply Qmin_1_fraction.
    match goal with
    | |- (0 <= mean ?l)%Q => assert (in_range 0 1 (mean l)) as [H0 _]; [|exact H0]
    end.
    apply mean_range; [discriminate|].
    repeat (apply List.Forall_cons; [assumption|]). apply List.Forall_nil.
Qed.

Lemma per_metric_means_in_range (files : list FileReport) :
  Forall file_scores_in_range files →
  per_metric_in_range
    {| pm_duplication := mean_or_zero (List.map (fun f => conf_duplication (fr_confidence f)) files);
       pm_lint := mean_or_zero (List.map (fun f => conf_lint (fr_confidence f)) files);
       pm_typing := mean_or_zero (List.map (fun f => conf_typing (fr_confidence f)) files);
       pm_complexity := mean_or_zero (List.map (fun f => conf_complexity (fr_confidence f)) files) |}.
Proof.
  intros Hfiles.
  constructor; cbn [pm_duplication pm_lint pm_typing pm_complexity];
    apply mean_or_zero_fraction; apply Forall_map;
    (eapply Forall_impl; [exact Hfiles|]); intros f Hf; apply Hf.
Qed.

End ReportFacts.

(** C8, as the code has it. For every input, and every configuration in
    which the lint category weights are non-negative and [max_score_at_0]
    lies between 0 and 100: every score that the typing curve returns lies
    in [0, 100], and in a report that [run] returns every file has its
    duplication ratio in [0, 1], its lint, typing and complexity scores in
    [0, 100] and its five confidences in [0, 1], and the four project
    confidences lie in [0, 1]. These are the values that the code bounds
    with [min] and [max]; the grade of a file and the metrics of the
    project summary are quotients of weighted sums that it does not clamp,
    and they are not part of the statement. The lower bound on
    [max_score_at_0] keeps the slope [max_score / zero_score_at] from
    being negative, where a quotient that overflows in binary64 would
    escape the clamp. ([log1p] is non-negative on line counts and positive
    at 300.) *)
Theorem C8_scores_and_confidences_in_range
    (ast_parse : string → option module_) (log1p : Z → Q)
    (rng : Type) (Random : Z → rng) (randbelow : rng → nat → nat * rng)
    (config : Config) (root_path : string) (enumerated : list (string * string))
    (lint_run : run_outcome (option (list LintMessage))) (typing_run : run_outcome string)
    (report : Report) :
  (∀ n, 0 <= n → (0 <= log1p n)%Q) → (0 < log1p 300%Z)%Q →
  non_negative (weights_pylint_categories config) →
  (0 <= max_score_at_0 (typing_error_scale (scoring config)))%Q →
  (max_score_at_0 (typing_error_scale (scoring config)) <= 100)%Q →
  Runner_run ast_parse log1p rng Random randbelow config root_path enumerated lint_run typing_run
  = Returns report →
  (∀ err_count loc s,
     typing_score (typing_error_scale (scoring config)) err_count loc = Returns s → is_score s)
  ∧ Forall file_scores_in_range (files report)
  ∧ per_metric_in_range (per_metric (pr_confidence (project report))).
Proof.
  intros Hlog Hlog300 Hcategories _ Hmax Hrun.
  assert (∀ err_count loc s,
            typing_score (typing_error_scale (scoring config)) err_count loc = Returns s →
            is_score s) as Hcurve
    by (intros err_count loc s; apply typing_score_is_score; exact Hmax).
  destruct (run_returns _ _ _ _ _ _ _ _ _ _ report Hrun)
    as (sc & typing & Hscan & Htyping & Hfiles & _ & _ & Hper).
  assert (map_Forall (fun _ => is_score) (typing_scores typing)) as Hscores.
  { apply (typing_scores_inv _ _ _ _ _ (fun _ => is_score) Htyping).
    intros item err_count s _. apply Hcurve. }
  assert (Forall file_scores_in_range (files report)) as Hall.
  { rewrite Hfiles. apply Forall_map, Forall_forall. intros [rel loc] Hitem.
    cbn [fst snd].
    apply report_file_scores_in_range; try assumption.
    apply list_elem_of_In in Hitem.
    exact (scan_lines ast_parse root_path enumerated sc Hscan (rel, loc) Hitem). }
  split; [exact Hcurve|]. split; [exact Hall|].
  rewrite Hper. apply per_metric_means_in_range. exact Hall.
Qed.

Lemma log1p_floor_nonneg (n : Z) : 0 <= n → (0 <= log1p_floor n)%Q.
Proof. intros _. apply inject_Z_nonneg, Z.log2_nonneg. Qed.

Lemma default_weights_non_negative :
  non_negative (weights_metrics DEFAULT_CONFIG)
  ∧ non_negative (weights_pylint_categories DEFAULT_CONFIG)
  ∧ non_negative (weights_roles DEFAULT_CONFIG).
Proof.
  repeat split; cbn; repeat (apply map_Forall_insert_2; [discriminate|]);
    apply map_Forall_empty.
Qed.

Lemma C8_witness :
  ∃ report,
    sample_run one_file_project lint_clean typing_one_error = Returns report
    ∧ Forall file_scores_in_range (files report)
    ∧ per_metric_in_range (per_metric (pr_confidence (project report))).
Proof.
  eexists. split; [vm_compute; reflexivity|].
  destruct default_weights_non_negative as (_ & Hc & _).
  destruct (C8_scores_and_confidences_in_range one_file_parser log1p_floor Z lcg_Random
              lcg_randbelow DEFAULT_CONFIG "/proj" one_file_project lint_clean typing_one_error _
              log1p_floor_nonneg ltac:(reflexivity) Hc ltac:(discriminate) ltac:(discriminate)
              ltac:(vm_compute; reflexivity))
    as (_ & Hfiles & Hper).
  split; assumption.
Defined.

(** C8 as stated fails for configurations outside these ranges: a typing
    scale with [max_score_at_0 = 200] scores a file without errors 200; a
    negative weight for the category C gives a lint score of 101; the
    metric weights [{duplication: 1, lint: -0.5}] give a file without
    duplication and with lint score 0 the grade 200; and the role weights
    [{default: 1, test: -0.5}] aggregate the grades 100 and 0 to 200. *)
Lemma C8_out_of_range_counterexample :
  (∃ s, typing_score steep_typing_scale 0 10 = Returns s ∧ (s == 200)%Q ∧ ¬ is_score s)
  ∧ ((weighted_score rewarding_categories one_convention == 101)%Q
     ∧ ¬ is_score (weighted_score rewarding_categories one_convention))
  ∧ ((_weighted_grade unlinted_metrics offsetting_weights == 200)%Q
     ∧ ¬ is_score (_weighted_grade unlinted_metrics offsetting_weights))
  ∧ ((sum_grade (_aggregate_project [graded_file "default" 100; graded_file "test" 0]
                                     offsetting_roles) == 200)%Q
     ∧ ¬ summary_in_range (_aggregate_project [graded_file "default" 100; graded_file "test" 0]
                                              offsetting_roles)).
Proof.
  split; [|split; [|split]].
  - eexists. split; [vm_compute; reflexivity|]. split; [reflexivity|].
    intros [_ H]. vm_compute in H. apply H. reflexivity.
  - split; [vm_compute; reflexivity|]. intros [_ H]. vm_compute in H. apply H. reflexivity.
  - split; [vm_compute; reflexivity|]. intros [_ H]. vm_compute in H. apply H. reflexivity.
  - split; [vm_compute; reflexivity|]. intros [_ _ _ _ [_ H]]. vm_compute in H. apply H. reflexivity.
Qed.


(** * Further properties of the analyzers *)

(** ** The hash of a k-gram (duplication.py, [_stable_hash]) *)

Lemma le_bytes_length (n : nat) (x : Z) : length (MD5.le_bytes n x) = n.
Proof. revert x. induction n as [|n IH]; intros x; cbn; [reflexivity|]. rewrite IH. reflexivity. Qed.

Lemma le_bytes_range (n : nat) (x : Z) :
  List.Forall (fun b => 0 <= b < 256) (MD5.le_bytes n x).
Proof.
  revert x. induction n as [|n IH]; intros x; cbn [MD5.le_bytes].
  - apply List.Forall_nil.
  - apply List.Forall_cons; [|apply IH].
    change 255 with (Z.ones 8). rewrite Z.land_ones by lia.
    apply Z.mod_pos_bound. lia.
Qed.

Lemma big_endian_range (bytes : list Z) (acc : Z) :
  List.Forall (fun b => 0 <= b < 256) bytes → 0 <= acc →
  0 <= fold_left (fun acc b => 256 * acc + b) bytes acc
  < 256 ^ Z.of_nat (length bytes) * (acc + 1).
Proof.
  intros Hbytes. revert acc.
  induction Hbytes as [|b bytes Hb _ IH]; intros acc Hacc.
  - cbn. lia.
  - cbn [fold_left length]. specialize (IH (256 * acc + b) ltac:(lia)).
    rewrite Nat2Z.inj_succ, Z.pow_succ_r by lia.
    split; [lia|]. eapply Z.lt_le_trans; [apply IH|].
    assert (0 < 256 ^ Z.of_nat (length bytes)) by (apply Z.pow_pos_nonneg; lia).
    nia.
Qed.

(** [_stable_hash] reads eight hexadecimal digits: its value is a number
    of 32 bits, whatever the text. *)
Lemma stable_hash_range (text : string) : 0 <= _stable_hash text < 4294967296.
Proof.
  unfold _stable_hash, MD5.hexdigest8.
  destruct (MD5.digest_words _) as [[[a b] c] d].
  pose proof (big_endian_range (MD5.le_bytes 4 a) 0 (le_bytes_range 4 a) ltac:(lia)) as H.
  rewrite le_bytes_length in H. change (256 ^ Z.of_nat 4 * (0 + 1)) with 4294967296 in H.
  exact H.
Qed.

(** ** Comments (duplication.py, [_strip_comments]) *)

Lemma before_without (c : ascii) (s : string) :
  ¬ In c (list_ascii_of_string (before c s)).
Proof.
  induction s as [|c' s IH]; cbn; [tauto|].
  destruct (Ascii.eqb_spec c' c) as [->|Hne]; cbn; [tauto|].
  intros [->|H]; [congruence|tauto].
Qed.

Lemma chars_of_append (a b : string) :
  list_ascii_of_string (a ++ b)%string = list_ascii_of_string a ++ list_ascii_of_string b.
Proof. induction a as [|c a IH]; cbn; [reflexivity|]. rewrite <- IH. reflexivity. Qed.

Lemma join_without (c : ascii) (sep : string) (parts : list string) :
  ¬ In c (list_ascii_of_string sep) →
  List.Forall (fun p => ¬ In c (list_ascii_of_string p)) parts →
  ¬ In c (list_ascii_of_string (join sep parts)).
Proof.
  intros Hsep Hparts. induction Hparts as [|p parts Hp Hps IH]; cbn [join]; [cbn; tauto|].
  destruct parts as [|q parts]; [exact Hp|].
  rewrite !chars_of_append, !in_app_iff. tauto.
Qed.

(** X1. The text that [_strip_comments] returns holds no [#]: a line
    that starts with one (after blanks) is dropped, every other line is cut
    at its first [#], also when that [#] stands inside a string literal. *)
Theorem strip_comments_leaves_no_hash (text : string) :
  ¬ In "#"%char (list_ascii_of_string (_strip_comments text)).
Proof.
  unfold _strip_comments. apply join_without.
  - cbn. intros [H|[]]. discriminate H.
  - apply List.Forall_forall. intros p Hp.
    apply in_flat_map in Hp as (line & _ & Hp).
    destruct (startswith (lstrip line) "#"); [destruct Hp|].
    destruct Hp as [<-|[]]. apply before_without.
Qed.

(** ** The selected hashes (duplication.py, [_fingerprints]) *)

Lemma min_from_In (best : Z * Z) (l : list (Z * Z)) : In (min_from best l) (best :: l).
Proof.
  revert best. induction l as [|x l IH]; intros best; cbn [min_from]; [left; reflexivity|].
  specialize (IH (if pair_ltb x best then x else best)).
  destruct (pair_ltb x best); cbn in IH |- *; tauto.
Qed.

Section SelectionFacts.

Variable hash : string -> Z.
Variable k w : nat.
Hypothesis w_pos : (1 <= w)%nat.
Variable tokens : list string.

Local Abbreviation winnow := (winnow hash k w tokens).
Local Abbreviation window_at := (window_at hash k w tokens).

Lemma window_min_position (n : nat) :
  ∃ j, (j <= n)%nat ∧ fst (window_min (window_at n)) = kgram_hash hash k tokens j.
Proof.
  unfold window_at.
  assert (1 <= Nat.min (S n) w)%nat as Hm by lia.
  rewrite (seq_head _ _ Hm). cbn [List.map window_min].
  pose proof (min_from_In (entry hash k tokens (S n - Nat.min (S n) w))
                (List.map (entry hash k tokens) (seq (S (S n - Nat.min (S n) w)) (Nat.min (S n) w - 1))))
    as Hin.
  change (entry hash k tokens (S n - Nat.min (S n) w)
          :: List.map (entry hash k tokens) (seq (S (S n - Nat.min (S n) w)) (Nat.min (S n) w - 1)))
    with (List.map (entry hash k tokens)
            (S n - Nat.min (S n) w :: seq (S (S n - Nat.min (S n) w)) (Nat.min (S n) w - 1))%nat) in Hin.
  rewrite <- (seq_head _ _ Hm) in Hin.
  apply in_map_iff in Hin as (j & Hj & Hseq). apply in_seq in Hseq.
  exists j. split; [lia|]. rewrite <- Hj. reflexivity.
Qed.

(** After [n] iterations the list holds between one and [n] hashes, each
    the hash of a k-gram at a position below [n]. *)
Lemma winnow_hashes (n : nat) :
  (length (ws_hashes (winnow n)) <= n)%nat
  ∧ ((1 <= n)%nat → (1 <= length (ws_hashes (winnow n)))%nat ∧ ws_min (winnow n) ≠ None)
  ∧ ∀ h, In h (ws_hashes (winnow n)) → ∃ j, (j < n)%nat ∧ h = kgram_hash hash k tokens j.
Proof.
  induction n as [|n (IHlen & IHpos & IHin)].
  - cbn. split; [lia|]. split; [lia|]. intros h [].
  - destruct (winnow_step_spec hash k w w_pos tokens n) as [[Heq ->]|[Hne ->]];
      cbn [ws_min ws_hashes].
    + assert (1 <= n)%nat as Hn.
      { destruct n as [|n]; [|lia]. cbn in Heq. discriminate. }
      destruct (IHpos Hn) as [Hlen Hmin].
      split; [lia|]. split; [intros _; split; [exact Hlen|exact Hmin]|].
      intros h Hh. destruct (IHin h Hh) as (j & Hj & ->). exists j. split; [lia|reflexivity].
    + rewrite length_app. cbn [length].
      split; [lia|]. split; [intros _; split; [lia|discriminate]|].
      intros h Hh. apply in_app_or in Hh as [Hh|[<-|[]]].
      * destruct (IHin h Hh) as (j & Hj & ->). exists j. split; [lia|reflexivity].
      * destruct (window_min_position n) as (j & Hj & ->). exists j. split; [lia|reflexivity].
Qed.

Lemma fingerprints_with_count :
  (1 <= k)%nat →
  (length (fingerprints_with hash k w tokens) <= Nat.max 1 (length tokens + 1 - k))%nat
  ∧ (fingerprints_with hash k w tokens = [] ↔ tokens = []).
Proof.
  intros k_pos. unfold fingerprints_with.
  destruct (Nat.ltb_spec (length tokens) k) as [Hshort|Hlong].
  - destruct tokens as [|t ts]; cbn [length]; [split; [lia|tauto]|].
    split; [lia|]. split; discriminate.
  - fold (winnow (length tokens - k + 1)).
    destruct (winnow_hashes (length tokens - k + 1)) as (Hlen & Hpos & _).
    destruct (Hpos ltac:(lia)) as [Hone _].
    split; [lia|]. split.
    + intros E. rewrite E in Hone. cbn in Hone. lia.
    + intros E. rewrite E in Hlong. cbn in Hlong. lia.
Qed.

Lemma fingerprints_with_kgrams (h : Z) :
  In h (fingerprints_with hash k w tokens) →
  ∃ j, (j <= length tokens - k)%nat ∧ h = hash (join " " (firstn k (skipn j tokens))).
Proof.
  unfold fingerprints_with.
  destruct (Nat.ltb_spec (length tokens) k) as [Hshort|Hlong].
  - intros Hh. exists O. split; [lia|].
    change (skipn O tokens) with tokens. rewrite firstn_all2 by lia.
    destruct tokens as [|t ts]; [destruct Hh|].
    destruct Hh as [<-|[]]. reflexivity.
  - fold (winnow (length tokens - k + 1)). intros Hh.
    destruct (winnow_hashes (length tokens - k + 1)) as (_ & _ & Hin).
    destruct (Hin h Hh) as (j & Hj & ->). exists j. split; [lia|reflexivity].
Qed.

End SelectionFacts.

(** X2. A file with tokens always gets a fingerprint, a file without
    tokens none, and no file gets more fingerprints than it has k-grams
    ([len(tokens) - k + 1], or one when it is shorter than [k]). Every
    fingerprint is a number of 32 bits: the hash of [k] consecutive tokens
    of the file joined by blanks (of all its tokens when there are fewer
    than [k]), with [k = max(1, config.k)]. *)
Theorem fingerprints_of_a_file (config : DuplicationConfig) (tokens : list string) :
  (length (_fingerprints config tokens)
   <= Nat.max 1 (length tokens + 1 - Z.to_nat (Z.max 1 (dup_k config))))%nat
  ∧ (_fingerprints config tokens = [] ↔ tokens = [])
  ∧ ∀ h, In h (_fingerprints config tokens) →
         0 <= h < 4294967296
         ∧ ∃ j, (j <= length tokens - Z.to_nat (Z.max 1 (dup_k config)))%nat
                ∧ h = _stable_hash
                        (join " " (firstn (Z.to_nat (Z.max 1 (dup_k config)))
                                          (skipn j tokens))).
Proof.
  unfold _fingerprints. split; [|split].
  - apply fingerprints_with_count; lia.
  - apply fingerprints_with_count; lia.
  - intros h Hin.
    assert (∃ j, (j <= length tokens - Z.to_nat (Z.max 1 (dup_k config)))%nat
                 ∧ h = _stable_hash
                         (join " " (firstn (Z.to_nat (Z.max 1 (dup_k config)))
                                           (skipn j tokens)))) as (j & Hj & Hh).
    { apply (fingerprints_with_kgrams _stable_hash _ (Z.to_nat (Z.max 1 (dup_w config))));
        try lia; exact Hin. }
    split; [rewrite Hh; apply stable_hash_range|]. exists j. split; [exact Hj|exact Hh].
Qed.

(** ** Overlap ratios (duplication.py, [_compute_ratios]) *)

Lemma intersection_size_zero (fprints other : list Z) :
  intersection_size (list_to_set fprints) other = O ↔ ∀ h, In h fprints → ¬ In h other.
Proof.
  unfold intersection_size. rewrite size_empty_iff. split.
  - intros Hempty h Hself Hother.
    apply (not_elem_of_empty (C := gset Z) h). rewrite <- Hempty.
    apply elem_of_intersection. rewrite !elem_of_list_to_set, !list_elem_of_In. tauto.
  - intros Hdisjoint. apply set_equiv. intros h.
    rewrite elem_of_intersection, !elem_of_list_to_set, !list_elem_of_In.
    split; [|intros H; destruct (not_elem_of_empty (C := gset Z) h H)].
    intros [Hself Hother]. destruct (Hdisjoint h Hself Hother).
Qed.

Lemma intersection_size_contained (fprints other : list Z) :
  (∀ h, In h fprints → In h other) →
  intersection_size (list_to_set fprints) other = size (list_to_set fprints : gset Z).
Proof.
  intros Hsub. unfold intersection_size. f_equal. apply set_eq. intros h.
  rewrite elem_of_intersection, !elem_of_list_to_set, !list_elem_of_In.
  split; [tauto|]. intros H. split; [exact H|apply Hsub, H].
Qed.

Lemma list_sum_zero (l : list nat) : list_sum l = O ↔ ∀ n, In n l → n = O.
Proof.
  induction l as [|a l IH]; [cbn; tauto|].
  change (list_sum (a :: l)) with (a + list_sum l)%nat. cbn [In].
  split.
  - intros H n [<-|Hn]; [lia|]. apply IH; [lia|exact Hn].
  - intros H. rewrite (H a) by tauto. apply IH. intros n Hn. apply H. tauto.
Qed.

Lemma list_sum_at_least (l : list nat) (n : nat) : In n l → (n <= list_sum l)%nat.
Proof.
  induction l as [|a l IH]; [cbn; tauto|].
  change (list_sum (a :: l)) with (a + list_sum l)%nat. cbn [In].
  intros [->|H]; [lia|]. specialize (IH H). lia.
Qed.

Lemma overlaps_of_sum (items : list (string * list Z)) (path : string) (fprints : list Z) :
  overlaps_of items path fprints
  = list_sum (List.map (fun g => intersection_size (list_to_set fprints) (snd g))
                       (other_files items path)).
Proof. unfold overlaps_of. rewrite overlaps_fold. reflexivity. Qed.

Lemma in_other_files (items : list (string * list Z)) (path other : string) (fprints : list Z) :
  In (other, fprints) (other_files items path) ↔ In (other, fprints) items ∧ other ≠ path.
Proof.
  unfold other_files. rewrite filter_In. cbn [fst].
  destruct (String.eqb_spec other path); cbn [negb]; split; intros [H1 H2]; split;
    congruence || assumption.
Qed.

Lemma ratio_of_zero (items : list (string * list Z)) (path : string) (fprints : list Z) :
  (ratio_of items path fprints == 0)%Q
  ↔ ∀ other other_fprints h,
      In (other, other_fprints) items → other ≠ path → In h fprints → ¬ In h other_fprints.
Proof.
  unfold ratio_of. destruct fprints as [|h0 t] eqn:E.
  - split; [intros _ other other_fprints h _ _ []|reflexivity].
  - rewrite <- E. clear E.
    set (m := Z.max 1 (Z.of_nat (size (list_to_set fprints : gset Z)))).
    assert (0 < inject_Z m)%Q as Hm by (unfold Qlt; cbn; lia).
    assert (overlaps_of items path fprints = O
            ↔ ∀ other other_fprints h,
                In (other, other_fprints) items → other ≠ path →
                In h fprints → ¬ In h other_fprints) as <-.
    { rewrite overlaps_of_sum, list_sum_zero. split.
      - intros H other other_fprints h Hin Hne.
        apply intersection_size_zero. apply H.
        apply in_map_iff. exists (other, other_fprints). split; [reflexivity|].
        apply in_other_files. tauto.
      - intros H n Hn. apply in_map_iff in Hn as ([other other_fprints] & <- & Hin).
        apply in_other_files in Hin as [Hin Hne]. cbn [snd].
        apply intersection_size_zero. intros h. apply (H other other_fprints h Hin Hne). }
    set (n := overlaps_of items path fprints).
    assert (0 <= inject_Z (Z.of_nat n) / inject_Z m)%Q as Hnonneg.
    { apply Qle_shift_div_l; [exact Hm|]. unfold Qle; cbn. lia. }
    split.
    + intros Hzero. destruct (Qlt_le_dec 1 (inject_Z (Z.of_nat n) / inject_Z m)) as [Hbig|Hsmall].
      * rewrite Q.min_l in Hzero by (apply Qlt_le_weak, Hbig). discriminate Hzero.
      * rewrite Q.min_r in Hzero by exact Hsmall.
        assert (inject_Z (Z.of_nat n) == 0 * inject_Z m)%Q as H.
        { rewrite <- Hzero. field. intros Hm0. rewrite Hm0 in Hm. discriminate Hm. }
        unfold Qeq in H. cbn in H. lia.
    + intros ->. rewrite Q.min_r; [reflexivity|]. unfold Qle. cbn. lia.
Qed.

Lemma size_set_pos (fprints : list Z) :
  fprints ≠ [] → (1 <= size (list_to_set fprints : gset Z))%nat.
Proof.
  destruct fprints as [|h0 t]; [congruence|]. intros _.
  rewrite list_to_set_cons.
  destruct (size (({[h0]} : gset Z) ∪ list_to_set t)) eqn:Hsize; [|lia].
  apply size_empty_iff in Hsize. exfalso.
  apply (not_elem_of_empty (C := gset Z) h0). rewrite <- Hsize.
  apply elem_of_union_l, elem_of_singleton. reflexivity.
Qed.

Lemma ratio_of_one (items : list (string * list Z)) (path other : string)
    (fprints other_fprints : list Z) :
  In (other, other_fprints) items → other ≠ path → fprints ≠ [] →
  (∀ h, In h fprints → In h other_fprints) →
  (ratio_of items path fprints == 1)%Q.
Proof.
  intros Hin Hne Hsome Hsub.
  pose proof (size_set_pos fprints Hsome) as Hs.
  unfold ratio_of.
  destruct fprints as [|h0 t] eqn:E; [congruence|]. rewrite <- E in *. clear E Hsome.
  set (s := size (list_to_set fprints : gset Z)) in *.
  assert (s <= overlaps_of items path fprints)%nat as Hover.
  { rewrite overlaps_of_sum. apply list_sum_at_least.
    apply in_map_iff. exists (other, other_fprints). split.
    - cbn [snd]. apply intersection_size_contained, Hsub.
    - apply in_other_files. tauto. }
  assert (0 < inject_Z (Z.max 1 (Z.of_nat s)))%Q as Hm by (unfold Qlt; cbn; lia).
  apply Q.min_l. apply Qle_shift_div_l; [exact Hm|].
  unfold Qle. cbn. lia.
Qed.

Lemma NoDup_repeated_hash_files : NoDup (List.map fst repeated_hash_files).
Proof.
  cbn. apply NoDup_cons. split; [|apply NoDup_singleton].
  rewrite list_elem_of_singleton. discriminate.
Qed.

(** X3. The two ends of the duplication ratio: it is 0 exactly when
    none of the fingerprints of the file occurs in the list of any other
    file, and it is 1 when the file has fingerprints and each of them
    occurs in the list of one other file. *)
Theorem ratio_is_zero_or_one
    (fingerprints : list (string * list Z)) (path : string) (fprints : list Z) :
  NoDup (List.map fst fingerprints) →
  In (path, fprints) fingerprints →
  ∃ r, _compute_ratios fingerprints !! path = Some r
       ∧ ((r == 0)%Q
          ↔ ∀ other other_fprints h,
              In (other, other_fprints) fingerprints → other ≠ path →
              In h fprints → ¬ In h other_fprints)
       ∧ (∀ other other_fprints,
            In (other, other_fprints) fingerprints → other ≠ path → fprints ≠ [] →
            (∀ h, In h fprints → In h other_fprints) → (r == 1)%Q).
Proof.
  intros Hnd Hpath. eexists. split; [|split].
  - unfold _compute_ratios. apply (compute_ratios_fold _ _ _ path fprints Hnd Hpath).
  - apply ratio_of_zero.
  - intros other other_fprints Hother Hne Hsome Hsub.
    apply (ratio_of_one fingerprints path other fprints other_fprints); assumption.
Qed.

Lemma ratio_is_zero_or_one_witness :
  ∃ r, _compute_ratios repeated_hash_files !! "b.py"%string = Some r ∧ (r == 1)%Q.
Proof.
  destruct (ratio_is_zero_or_one repeated_hash_files "b.py" [1; 1]) as (r & Hr & _ & Hone).
  - exact NoDup_repeated_hash_files.
  - cbn. right. left. reflexivity.
  - exists r. split; [exact Hr|].
    apply (Hone "a.py"%string [1; 2]).
    + cbn. left. reflexivity.
    + discriminate.
    + discriminate.
    + intros h [<-|[<-|[]]]; cbn; tauto.
Defined.

(** ** The analyzer (duplication.py, [DuplicationAnalyzer.analyze]) *)

Lemma dict_set_fresh {V : Type} (d : list (string * V)) (k : string) (v : V) :
  ¬ In k (List.map fst d) → dict_set d k v = d ++ [(k, v)].
Proof.
  induction d as [|[k' v'] d IH]; cbn; [reflexivity|].
  intros Hfresh. destruct (String.eqb_spec k' k) as [->|Hne]; [tauto|].
  rewrite IH by tauto. reflexivity.
Qed.


Section AnalyzeFacts.

Variable ast_parse : string → option module_.
Variable config : DuplicationConfig.



End AnalyzeFacts.




(** ** The visitor (complexity.py, [_compute]) *)

Lemma visit_module_cost (tree : module_) (st : cstate) :
  Visitor.visit_module tree st = bump (Cost.costs (length (stack st)) (mod_body tree)) st.
Proof.
  unfold Visitor.visit_module, Cost.costs.
  apply (visits_cost (mod_body tree)).
  apply Forall_forall. intros s _. apply visit_stmt_cost.
Qed.

(** X5. [enter] and [leave] are balanced: visiting a tree leaves the
    nesting stack as it was found, so the [stack.clear()] that ends
    [_compute] removes nothing; and the visitor only adds to the counter:
    started from a count [c] with an empty stack it ends at
    [c + _compute(tree)]. *)
Theorem visitor_restores_the_stack (tree : module_) :
  (∀ st, stack (Visitor.visit_module tree st) = stack st)
  ∧ (∀ c, complexity (Visitor.visit_module tree {| complexity := c; stack := [] |})
          = c + _compute tree).
Proof.
  split.
  - intros st. rewrite visit_module_cost. reflexivity.
  - intros c. unfold _compute. rewrite !visit_module_cost. cbn. lia.
Qed.

(** X6. The complexity of a module is the sum over its top-level
    statements: putting two modules one after the other adds their
    complexities. *)
Theorem compute_is_additive (first second : list stmt) :
  _compute (Module (first ++ second)) = _compute (Module first) + _compute (Module second).
Proof.
  rewrite !compute_cost. unfold Cost.costs. rewrite List.map_app. apply sumZ_app.
Qed.

(** X7. [visit_If] goes through the children of its test, not through
    the test itself: a boolean operator at the top of the test of an [if]
    is not counted, while the same test in a [while] costs one per operand
    after the first. *)
Theorem if_skips_the_operator_of_its_test (op : boolop) (values : list expr) (body : list stmt) :
  _compute (Module [While (BoolOp op values) body []])
  = _compute (Module [If (BoolOp op values) body []])
    + Z.max 0 (Z.of_nat (length values) - 1).
Proof.
  rewrite !compute_cost. unfold Cost.costs.
  cbn [List.map Cost.cost_stmt Cost.cost_generic_expr Cost.cost_expr].
  unfold sumZ. cbn [List.map fold_right]. lia.
Qed.

(** *** Nesting *)

Lemma sumZ_le {A : Type} (f g : A → Z) (l : list A) :
  Forall (fun a => f a <= g a) l → sumZ (List.map f l) <= sumZ (List.map g l).
Proof. unfold sumZ. induction 1 as [|a l Ha Hl IH]; cbn [List.map fold_right]; lia. Qed.

Lemma costs_deeper_of (body : list stmt) (generic : bool) (d : nat) :
  Forall (fun s => ∀ generic d, Cost.cost_stmt generic d s <= Cost.cost_stmt generic (S d) s) body →
  sumZ (List.map (Cost.cost_stmt generic d) body)
  <= sumZ (List.map (Cost.cost_stmt generic (S d)) body).
Proof.
  intros H. apply sumZ_le. eapply Forall_impl; [exact H|]. intros s Hs. apply Hs.
Qed.

(** The same statement never costs less one level deeper. *)
Lemma cost_stmt_deeper (s : stmt) :
  ∀ generic d, Cost.cost_stmt generic d s <= Cost.cost_stmt generic (S d) s.
Proof.
  apply (stmt_induction
           (fun s => ∀ generic d, Cost.cost_stmt generic d s <= Cost.cost_stmt generic (S d) s)
           (fun h => ∀ d, Cost.cost_handler d h <= Cost.cost_handler (S d) h));
    clear s; intros; cbn [Cost.cost_stmt Cost.cost_handler]; unfold Cost.entering.
  - pose proof (costs_deeper_of body false d H). lia.
  - pose proof (costs_deeper_of body false d H). lia.
  - lia.
  - lia.
  - pose proof (costs_deeper_of body false (S d) H).
    pose proof (costs_deeper_of orelse false (S d) H0). lia.
  - pose proof (costs_deeper_of body false (S d) H).
    pose proof (costs_deeper_of orelse false (S d) H0). lia.
  - destruct generic.
    + pose proof (costs_deeper_of body false d H).
      pose proof (costs_deeper_of orelse false d H0). lia.
    + pose proof (costs_deeper_of body false (S d) H).
      assert (sumZ (List.map (fun s' => if isinstance_If s'
                                        then 1 + Z.of_nat (S d) + Cost.cost_stmt true (S (S d)) s'
                                        else 0) orelse)
              <= sumZ (List.map (fun s' => if isinstance_If s'
                                           then 1 + Z.of_nat (S (S d))
                                                + Cost.cost_stmt true (S (S (S d))) s'
                                           else 0) orelse)).
      { apply sumZ_le. eapply Forall_impl; [exact H0|]. intros s Hs. cbn beta.
        destruct (isinstance_If s); [|lia]. pose proof (Hs true (S (S d))). lia. }
      assert (sumZ (List.map (fun s' => if isinstance_If s' then 0
                                        else Cost.cost_stmt false (S d) s') orelse)
              <= sumZ (List.map (fun s' => if isinstance_If s' then 0
                                           else Cost.cost_stmt false (S (S d)) s') orelse)).
      { apply sumZ_le. eapply Forall_impl; [exact H0|]. intros s Hs. cbn beta.
        destruct (isinstance_If s); [lia|apply Hs]. }
      lia.
  - pose proof (costs_deeper_of body false (S d) H). lia.
  - pose proof (costs_deeper_of body false (S d) H).
    pose proof (costs_deeper_of orelse false (S d) H1).
    pose proof (costs_deeper_of finalbody false (S (S d)) H2).
    assert (sumZ (List.map (fun h => 1 + Z.of_nat (S d) + Cost.cost_handler (S (S d)) h) handlers)
            <= sumZ (List.map (fun h => 1 + Z.of_nat (S (S d)) + Cost.cost_handler (S (S (S d))) h)
                              handlers)).
    { apply sumZ_le. eapply Forall_impl; [exact H0|]. intros h Hh. cbn beta.
      pose proof (Hh (S (S d))). lia. }
    destruct finalbody; lia.
  - lia.
  - lia.
  - lia.
  - lia.
  - lia.
  - pose proof (costs_deeper_of body false d H). lia.
Qed.

Lemma cost_handler_nonneg (h : excepthandler) (d : nat) : 0 <= Cost.cost_handler d h.
Proof.
  destruct h as [type name body]. cbn [Cost.cost_handler].
  pose proof (cost_option_nonneg Cost.cost_expr type cost_expr_nonneg).
  pose proof (costs_nonneg d body). unfold Cost.costs in *. lia.
Qed.

Lemma sumZ_singleton (x : Z) : sumZ [x] = x.
Proof. unfold sumZ. cbn. lia. Qed.

Lemma costs_deeper (d : nat) (body : list stmt) : Cost.costs d body <= Cost.costs (S d) body.
Proof.
  unfold Cost.costs. apply sumZ_le, Forall_forall. intros s _. apply cost_stmt_deeper.
Qed.

(** X8. Wrapping a block in a [for], [while], [if], [with] or [try]
    statement raises the complexity by at least one: the statement itself
    counts, and nothing in the block gets cheaper by being nested. *)
Theorem wrapping_a_block_costs_at_least_one (body : list stmt) :
  (∀ target iter orelse,
     1 + _compute (Module body) <= _compute (Module [For target iter body orelse]))
  ∧ (∀ test orelse, 1 + _compute (Module body) <= _compute (Module [While test body orelse]))
  ∧ (∀ test orelse, 1 + _compute (Module body) <= _compute (Module [If test body orelse]))
  ∧ (∀ items, 1 + _compute (Module body) <= _compute (Module [With items body]))
  ∧ (∀ handlers orelse finalbody,
       1 + _compute (Module body) <= _compute (Module [Try body handlers orelse finalbody])).
Proof.
  pose proof (costs_deeper 0 body) as Hbody. unfold Cost.costs in Hbody.
  repeat split; intros; rewrite !compute_cost; unfold Cost.costs;
    cbn [List.map]; rewrite sumZ_singleton.
  - pose proof (cost_stmt_nonneg (For target iter body orelse) false 0%nat) as H.
    cbn [Cost.cost_stmt] in H |- *. unfold Cost.entering in *.
    pose proof (cost_expr_nonneg target). pose proof (cost_expr_nonneg iter).
    pose proof (costs_nonneg 1 orelse). unfold Cost.costs in *. cbn [Z.of_nat]. lia.
  - cbn [Cost.cost_stmt]. unfold Cost.entering.
    pose proof (cost_expr_nonneg test).
    pose proof (costs_nonneg 1 orelse). unfold Cost.costs in *. cbn [Z.of_nat]. lia.
  - rewrite cost_If_visit. unfold Cost.entering, Cost.costs.
    pose proof (cost_generic_expr_nonneg test).
    assert (0 <= sumZ (List.map (Cost.cost_in_orelse 0) orelse)).
    { apply sumZ_nonneg, Forall_forall. intros s _. unfold Cost.cost_in_orelse.
      pose proof (cost_stmt_nonneg s true 2%nat). pose proof (cost_stmt_nonneg s false 1%nat).
      pose proof (entering_pos 1). destruct (isinstance_If s); lia. }
    cbn [Z.of_nat]. lia.
  - cbn [Cost.cost_stmt]. unfold Cost.entering.
    pose proof (cost_withitems_nonneg items). cbn [Z.of_nat]. lia.
  - cbn [Cost.cost_stmt]. unfold Cost.entering.
    pose proof (costs_nonneg 1 orelse). pose proof (costs_nonneg 2 finalbody).
    unfold Cost.costs in *.
    assert (0 <= sumZ (List.map (fun h => 1 + Z.of_nat 1 + Cost.cost_handler 2 h) handlers)).
    { apply sumZ_nonneg, Forall_forall. intros h _.
      pose proof (cost_handler_nonneg h 2%nat). cbn [Z.of_nat]. lia. }
    cbn [Z.of_nat]. destruct finalbody; lia.
Qed.

(** ** The score (complexity.py, [ComplexityAnalyzer.analyze]) *)

(** X9. For a file of at least one line the complexity score never
    rises with the complexity; it is 100 for complexity 0 under a positive
    [hard_cap], and 0 from [hard_cap] on. *)
Theorem complexity_score_never_rises (scale : ComplexityScale) (loc : Z) :
  1 <= loc →
  (∀ low high, low <= high →
     (complexity_score scale high loc <= complexity_score scale low loc)%Q)
  ∧ (0 < hard_cap scale → (complexity_score scale 0 loc == 100)%Q)
  ∧ (∀ c, hard_cap scale <= c → complexity_score scale c loc = 0%Q).
Proof.
  intros Hloc.
  assert (0 < inject_Z loc)%Q as Hl by (apply inject_Z_pos; lia).
  pose proof (floor_pos_r (target_per_loc scale)) as Hfloor.
  split; [|split].
  - intros low high Hle. unfold complexity_score. cbv zeta.
    destruct (Z.leb_spec (hard_cap scale) high) as [Hcap|Hcap].
    + destruct (hard_cap scale <=? low); [apply Qle_refl|apply Q.le_max_l].
    + destruct (Z.leb_spec (hard_cap scale) low) as [Hcap'|_]; [lia|].
      apply Q.max_le_compat_l.
      assert (inject_Z low / inject_Z loc / Qmax (target_per_loc scale) (1 # 1000000)
              <= inject_Z high / inject_Z loc / Qmax (target_per_loc scale) (1 # 1000000))%Q as Hper.
      { apply Qmult_le_compat_r; [|apply Qlt_le_weak, Qinv_lt_0_compat, Hfloor].
        apply Qmult_le_compat_r; [|apply Qlt_le_weak, Qinv_lt_0_compat, Hl].
        rewrite <- Zle_Qle. exact Hle. }
      pose proof (Q.min_le_compat_l _ _ 1%Q Hper) as Hmin.
      lra.
  - intros Hcap. unfold complexity_score. cbv zeta.
    destruct (Z.leb_spec (hard_cap scale) 0) as [H|_]; [lia|].
    assert (inject_Z 0 / inject_Z loc / Qmax (target_per_loc scale) (1 # 1000000) == 0)%Q as ->.
    { unfold Qdiv. change (inject_Z 0) with 0%Q. rewrite !Qmult_0_l. reflexivity. }
    reflexivity.
  - intros c Hc. unfold complexity_score. cbv zeta.
    destruct (Z.leb_spec (hard_cap scale) c) as [_|H]; [reflexivity|lia].
Qed.

Lemma complexity_score_never_rises_witness :
  (∀ low high, low <= high →
     (complexity_score (complexity_scale (scoring DEFAULT_CONFIG)) high 10
      <= complexity_score (complexity_scale (scoring DEFAULT_CONFIG)) low 10)%Q)
  ∧ (0 < hard_cap (complexity_scale (scoring DEFAULT_CONFIG)) →
     (complexity_score (complexity_scale (scoring DEFAULT_CONFIG)) 0 10 == 100)%Q)
  ∧ (∀ c, hard_cap (complexity_scale (scoring DEFAULT_CONFIG)) <= c →
          complexity_score (complexity_scale (scoring DEFAULT_CONFIG)) c 10 = 0%Q).
Proof.
  apply (complexity_score_never_rises (complexity_scale (scoring DEFAULT_CONFIG)) 10). lia.
Defined.

Section ComplexityAnalysisFacts.

Variable ast_parse : string → option module_.
Variable scale : ComplexityScale.
Variable loc_map : list (string * Z).

(** What the loop stores for one source. *)
Lemma analyze_lookup (sources : list (string * string)) (acc : ComplexityResult)
    (path text : string) :
  List.NoDup (List.map fst sources) → In (path, text) sources →
  let result :=
    fold_left
      (fun res item =>
         let path := fst item in
         match safe_parse ast_parse (snd item) with
         | (Some tree, true) =>
             let complexity := _compute tree in
             let loc := Z.max 1 (match dict_get loc_map path with Some l => l | None => 1 end) in
             {| cx_scores := <[path := complexity_score scale complexity loc]> (cx_scores res);
                cx_raw := <[path := complexity]> (cx_raw res);
                cx_per_loc := <[path := (inject_Z complexity / inject_Z loc)%Q]> (cx_per_loc res) |}
         | _ =>
             {| cx_scores := <[path := 100%Q]> (cx_scores res);
                cx_raw := <[path := 0]> (cx_raw res);
                cx_per_loc := <[path := 0%Q]> (cx_per_loc res) |}
         end)
      sources acc in
  match ast_parse text with
  | Some tree =>
      let loc := Z.max 1 (match dict_get loc_map path with Some l => l | None => 1 end) in
      cx_raw result !! path = Some (_compute tree)
      ∧ cx_per_loc result !! path = Some (inject_Z (_compute tree) / inject_Z loc)%Q
      ∧ cx_scores result !! path = Some (complexity_score scale (_compute tree) loc)
  | None =>
      cx_raw result !! path = Some 0
      ∧ cx_per_loc result !! path = Some 0%Q
      ∧ cx_scores result !! path = Some 100%Q
  end.
Proof.
  cbn zeta. revert acc.
  induction sources as [|g sources IH]; intros acc Hnd Hin; [destruct Hin|].
  apply List.NoDup_cons_iff in Hnd as [Hfresh Hnd]. cbn [fold_left].
  destruct Hin as [->|Hin]; [|apply IH; assumption].
  cbn [fst snd] in *. clear IH Hnd.
  match goal with
  | |- context [fold_left ?f sources ?init] =>
      assert (∀ acc', cx_raw (fold_left f sources acc') !! path = cx_raw acc' !! path
                      ∧ cx_per_loc (fold_left f sources acc') !! path = cx_per_loc acc' !! path
                      ∧ cx_scores (fold_left f sources acc') !! path = cx_scores acc' !! path)
        as Hkeep
  end.
  { clear acc. induction sources as [|g' sources IH]; intros acc'; cbn [fold_left]; [tauto|].
    cbn [List.map In] in Hfresh.
    destruct (IH ltac:(tauto) (
      match safe_parse ast_parse (snd g') with
      | (Some tree, true) =>
          {| cx_scores := <[fst g' := complexity_score scale (_compute tree)
                                        (Z.max 1 (match dict_get loc_map (fst g') with
                                                  | Some l => l | None => 1 end))]> (cx_scores acc');
             cx_raw := <[fst g' := _compute tree]> (cx_raw acc');
             cx_per_loc := <[fst g' := (inject_Z (_compute tree)
                                        / inject_Z (Z.max 1 (match dict_get loc_map (fst g') with
                                                             | Some l => l | None => 1 end)))%Q]>
                             (cx_per_loc acc') |}
      | _ =>
          {| cx_scores := <[fst g' := 100%Q]> (cx_scores acc');
             cx_raw := <[fst g' := 0]> (cx_raw acc');
             cx_per_loc := <[fst g' := 0%Q]> (cx_per_loc acc') |}
      end)) as (H1 & H2 & H3).
    rewrite H1, H2, H3.
    destruct (safe_parse ast_parse (snd g')) as [[tree|] [|]]; cbn [cx_scores cx_raw cx_per_loc];
      rewrite !lookup_insert_ne by tauto; tauto. }
  match goal with
  | |- context [fold_left ?f sources ?init] => destruct (Hkeep init) as (H1 & H2 & H3)
  end.
  unfold safe_parse in *.
  destruct (ast_parse text) as [tree|]; rewrite H1, H2, H3;
    cbn [cx_scores cx_raw cx_per_loc]; rewrite !lookup_insert_eq; tauto.
Qed.

End ComplexityAnalysisFacts.

(** X10. [ComplexityAnalyzer.analyze] stores three values for every
    source: for a text that parses, the complexity of its tree, that number
    per line and the score of the two; for a text that does not parse,
    complexity 0, 0 per line and the best score, 100. *)
Theorem complexity_analysis_of_a_source
    (ast_parse : string → option module_) (scale : ComplexityScale)
    (sources : list (string * string)) (loc_map : list (string * Z)) (path text : string) :
  List.NoDup (List.map fst sources) → In (path, text) sources →
  match ast_parse text with
  | Some tree =>
      cx_raw (ComplexityAnalyzer_analyze ast_parse scale sources loc_map) !! path
      = Some (_compute tree)
      ∧ cx_per_loc (ComplexityAnalyzer_analyze ast_parse scale sources loc_map) !! path
        = Some (inject_Z (_compute tree)
                / inject_Z (Z.max 1 (match dict_get loc_map path with
                                     | Some l => l | None => 1 end)))%Q
      ∧ cx_scores (ComplexityAnalyzer_analyze ast_parse scale sources loc_map) !! path
        = Some (complexity_score scale (_compute tree)
                  (Z.max 1 (match dict_get loc_map path with Some l => l | None => 1 end)))
  | None =>
      cx_raw (ComplexityAnalyzer_analyze ast_parse scale sources loc_map) !! path = Some 0
      ∧ cx_per_loc (ComplexityAnalyzer_analyze ast_parse scale sources loc_map) !! path
        = Some 0%Q
      ∧ cx_scores (ComplexityAnalyzer_analyze ast_parse scale sources loc_map) !! path
        = Some 100%Q
  end.
Proof.
  intros Hnd Hin.
  exact (analyze_lookup ast_parse scale loc_map sources _ path text Hnd Hin).
Qed.

Lemma complexity_analysis_of_a_source_witness :
  cx_raw (ComplexityAnalyzer_analyze two_file_parser (complexity_scale (scoring DEFAULT_CONFIG))
            two_files []) !! "src/ui/broken.py"%string = Some 0
  ∧ cx_per_loc (ComplexityAnalyzer_analyze two_file_parser (complexity_scale (scoring DEFAULT_CONFIG))
                  two_files []) !! "src/ui/broken.py"%string = Some 0%Q
  ∧ cx_scores (ComplexityAnalyzer_analyze two_file_parser (complexity_scale (scoring DEFAULT_CONFIG))
                 two_files []) !! "src/ui/broken.py"%string = Some 100%Q.
Proof.
  apply (complexity_analysis_of_a_source two_file_parser (complexity_scale (scoring DEFAULT_CONFIG))
           two_files [] "src/ui/broken.py" "def (:").
  - cbn. repeat constructor; cbn; intuition discriminate.
  - cbn. right. left. reflexivity.
Defined.


(** ** Layers (architecture.py, [_layer_for_path] and [_layer_for_module]) *)

Lemma insert_by_length_In (x y : string * string) (l : list (string * string)) :
  In y (insert_by_length x l) ↔ y = x ∨ In y l.
Proof.
  induction l as [|z l IH]; cbn [insert_by_length In]; [intuition congruence|].
  destruct (String.length (fst z) <? String.length (fst x))%nat; cbn [In];
    [intuition congruence|]. rewrite IH. intuition congruence.
Qed.

Lemma sorted_prefixes_In (config : ArchConfig) (y : string * string) :
  In y (sorted_prefixes config) ↔ In y (mapping config).
Proof.
  unfold sorted_prefixes.
  assert (∀ items acc,
            In y (fold_left (fun acc x => insert_by_length x acc) items acc)
            ↔ In y acc ∨ In y items) as H.
  { induction items as [|x items IH]; intros acc; cbn [fold_left In]; [tauto|].
    rewrite IH, insert_by_length_In. intuition congruence. }
  rewrite H. cbn. tauto.
Qed.

Lemma insert_by_length_sorted (x : string * string) (l : list (string * string)) :
  longest_first l → longest_first (insert_by_length x l).
Proof.
  induction l as [|z l IH]; cbn [insert_by_length longest_first].
  - intros _. split; [intros y []|exact I].
  - intros [Hz Hl].
    destruct (Nat.ltb_spec (String.length (fst z)) (String.length (fst x))) as [Hlt|Hge];
      cbn [longest_first].
    + split; [|split; assumption].
      intros y [<-|Hy]; [lia|]. specialize (Hz y Hy). lia.
    + split; [|apply IH, Hl].
      intros y Hy. apply insert_by_length_In in Hy as [->|Hy]; [exact Hge|apply Hz, Hy].
Qed.

Lemma sorted_prefixes_sorted (config : ArchConfig) : longest_first (sorted_prefixes config).
Proof.
  unfold sorted_prefixes.
  assert (∀ items acc, longest_first acc →
            longest_first (fold_left (fun acc x => insert_by_length x acc) items acc)) as H.
  { induction items as [|x items IH]; intros acc Hacc; cbn [fold_left]; [exact Hacc|].
    apply IH, insert_by_length_sorted, Hacc. }
  apply H. exact I.
Qed.

Lemma first_layer_longest (prefixes : list (string * string)) (normalized : string) :
  longest_first prefixes →
  match first_layer prefixes normalized with
  | Some layer =>
      ∃ prefix, In (prefix, layer) prefixes ∧ startswith normalized prefix = true
                ∧ ∀ prefix' layer', In (prefix', layer') prefixes →
                                    startswith normalized prefix' = true →
                                    (String.length prefix' <= String.length prefix)%nat
  | None => ∀ prefix' layer', In (prefix', layer') prefixes → startswith normalized prefix' = false
  end.
Proof.
  induction prefixes as [|[prefix layer] prefixes IH]; cbn [first_layer longest_first].
  - intros _ prefix' layer' [].
  - intros [Hfirst Hrest].
    destruct (startswith normalized prefix) eqn:Hstart.
    + exists prefix. split; [left; reflexivity|]. split; [exact Hstart|].
      intros prefix' layer' [[= <- <-]|Hin] _; [lia|].
      exact (Hfirst (prefix', layer') Hin).
    + specialize (IH Hrest). destruct (first_layer prefixes normalized) as [found|].
      * destruct IH as (p & Hp & Hs & Hlong). exists p.
        split; [right; exact Hp|]. split; [exact Hs|].
        intros prefix' layer' [[= <- <-]|Hin] Hs'; [congruence|].
        exact (Hlong prefix' layer' Hin Hs').
      * intros prefix' layer' [[= <- <-]|Hin]; [exact Hstart|].
        exact (IH prefix' layer' Hin).
Qed.

Lemma first_layer_of_mapping (config : ArchConfig) (normalized : string) :
  match first_layer (sorted_prefixes config) normalized with
  | Some layer =>
      ∃ prefix, In (prefix, layer) (mapping config) ∧ startswith normalized prefix = true
                ∧ ∀ prefix' layer', In (prefix', layer') (mapping config) →
                                    startswith normalized prefix' = true →
                                    (String.length prefix' <= String.length prefix)%nat
  | None =>
      ∀ prefix' layer', In (prefix', layer') (mapping config) →
                        startswith normalized prefix' = false
  end.
Proof.
  pose proof (first_layer_longest (sorted_prefixes config) normalized
                (sorted_prefixes_sorted config)) as H.
  destruct (first_layer (sorted_prefixes config) normalized) as [layer|].
  - destruct H as (prefix & Hin & Hs & Hlong). exists prefix.
    split; [apply sorted_prefixes_In, Hin|]. split; [exact Hs|].
    intros prefix' layer' Hin'. apply (Hlong prefix' layer'), sorted_prefixes_In, Hin'.
  - intros prefix' layer' Hin'. apply (H prefix' layer'), sorted_prefixes_In, Hin'.
Qed.

(** X11. The layer of a path is the layer mapped to a longest prefix
    of the path (backslashes read as slashes) among the prefixes of the
    mapping, and there is no layer exactly when no prefix of the mapping
    starts the path. The layer of an imported module is found the same
    way, with the dots of the module name read as slashes. *)
Theorem layers_are_longest_prefixes (config : ArchConfig) (name : string) :
  match _layer_for_path config name with
  | Some layer =>
      ∃ prefix, In (prefix, layer) (mapping config)
                ∧ startswith (replace_char "\" "/" name) prefix = true
                ∧ ∀ prefix' layer', In (prefix', layer') (mapping config) →
                                    startswith (replace_char "\" "/" name) prefix' = true →
                                    (String.length prefix' <= String.length prefix)%nat
  | None =>
      ∀ prefix' layer', In (prefix', layer') (mapping config) →
                        startswith (replace_char "\" "/" name) prefix' = false
  end
  ∧ match _layer_for_module config name with
    | Some layer =>
        ∃ prefix, In (prefix, layer) (mapping config)
                  ∧ startswith (replace_char "." "/" name) prefix = true
                  ∧ ∀ prefix' layer', In (prefix', layer') (mapping config) →
                                      startswith (replace_char "." "/" name) prefix' = true →
                                      (String.length prefix' <= String.length prefix)%nat
    | None =>
        ∀ prefix' layer', In (prefix', layer') (mapping config) →
                          startswith (replace_char "." "/" name) prefix' = false
    end.
Proof. split; apply first_layer_of_mapping. Qed.

(** ** Violations (architecture.py, [ArchitectureAnalyzer.analyze]) *)

Lemma allowed_edge (config : ArchConfig) (from to : string) :
  existsb (list_string_eqb [from; to]) (allowed_edges config) = true
  ↔ In [from; to] (allowed_edges config).
Proof.
  rewrite existsb_exists. unfold list_string_eqb. split.
  - intros (edge & Hin & Heq). apply bool_decide_eq_true in Heq. subst edge. exact Hin.
  - intros Hin. exists [from; to]. split; [exact Hin|]. apply bool_decide_eq_true. reflexivity.
Qed.

Lemma violations_of_file_spec (config : ArchConfig) (path : string) (tree : module_)
    (v : ArchitectureViolation) :
  In v (violations_of_file config path tree)
  ↔ file v = path
    ∧ _layer_for_path config path = Some (from_layer v)
    ∧ ¬ In [from_layer v; to_layer v] (allowed_edges config)
    ∧ ∃ root, In (import_name v, root) (iter_imports tree)
              ∧ _layer_for_module config
                  (if String.eqb (import_name v) "" then root else import_name v)
                = Some (to_layer v).
Proof.
  unfold violations_of_file. split.
  - destruct (_layer_for_path config path) as [from|]; [|intros []].
    rewrite in_flat_map. intros ([full root] & Himp & Hv).
    destruct (_layer_for_module _ _) as [target|] eqn:Htarget; [|destruct Hv].
    destruct (existsb _ _) eqn:Hallowed; [destruct Hv|].
    destruct Hv as [<-|[]]. cbn [file from_layer to_layer import_name].
    split; [reflexivity|]. split; [reflexivity|]. split.
    + rewrite <- allowed_edge, Hallowed. discriminate.
    + exists root. split; [exact Himp|exact Htarget].
  - intros (Hfile & Hfrom & Hedge & root & Himp & Hto). rewrite Hfrom.
    apply in_flat_map. exists (import_name v, root). split; [exact Himp|].
    rewrite Hto.
    destruct (existsb _ _) eqn:Hallowed; [apply allowed_edge in Hallowed; tauto|].
    left. destruct v as [f a b i]. cbn in Hfile |- *. subst f. reflexivity.
Qed.

Section ViolationFacts.

Variable ast_parse : string → option module_.
Variable config : ArchConfig.

Lemma analyze_spec (files : list (string * string)) (v : ArchitectureViolation) :
  In v (ArchitectureAnalyzer_analyze ast_parse config files)
  ↔ ∃ source tree, In (file v, source) files ∧ ast_parse source = Some tree
                   ∧ In v (violations_of_file config (file v) tree).
Proof.
  unfold ArchitectureAnalyzer_analyze. rewrite in_flat_map. unfold safe_parse. split.
  - intros ([path source] & Hin & Hv). cbn [fst snd] in Hv.
    destruct (ast_parse source) as [tree|] eqn:E; [|destruct Hv].
    pose proof (violations_of_file_file config path tree v Hv) as ->. eauto.
  - intros (source & tree & Hin & Hparse & Hv).
    exists (file v, source). split; [exact Hin|]. cbn [fst snd]. rewrite Hparse. exact Hv.
Qed.

End ViolationFacts.

(** X12. Every reported violation is an edge the configuration does
    not allow: its file is one of the analysed files and parsed, its
    [from_layer] is the layer of that file, its [to_layer] the layer of a
    module the file imports, and the pair is not in [allowed_edges]. *)
Theorem violations_are_forbidden_edges
    (ast_parse : string → option module_) (config : ArchConfig)
    (files : list (string * string)) (v : ArchitectureViolation) :
  In v (ArchitectureAnalyzer_analyze ast_parse config files) →
  ¬ In [from_layer v; to_layer v] (allowed_edges config)
  ∧ _layer_for_path config (file v) = Some (from_layer v)
  ∧ ∃ source tree root,
      In (file v, source) files ∧ ast_parse source = Some tree
      ∧ In (import_name v, root) (iter_imports tree)
      ∧ _layer_for_module config
          (if String.eqb (import_name v) "" then root else import_name v)
        = Some (to_layer v).
Proof.
  intros Hv. apply analyze_spec in Hv as (source & tree & Hin & Hparse & Hv).
  apply violations_of_file_spec in Hv as (_ & Hfrom & Hedge & root & Himp & Hto).
  split; [exact Hedge|]. split; [exact Hfrom|].
  exists source, tree, root. tauto.
Qed.

Lemma violations_are_forbidden_edges_witness :
  ¬ In ["ui"; "core"]%string (allowed_edges ui_core_config)
  ∧ _layer_for_path ui_core_config "src/ui/view.py" = Some "ui"%string
  ∧ ∃ source tree root,
      In ("src/ui/view.py"%string, source) two_files ∧ two_file_parser source = Some tree
      ∧ In ("src.core.service"%string, root) (iter_imports tree)
      ∧ _layer_for_module ui_core_config
          (if String.eqb "src.core.service" "" then root else "src.core.service")
        = Some "core"%string.
Proof.
  apply (violations_are_forbidden_edges two_file_parser ui_core_config two_files
           {| file := "src/ui/view.py"; from_layer := "ui"; to_layer := "core";
              import_name := "src.core.service" |}).
  vm_compute. left. reflexivity.
Defined.

(** X13. No forbidden import is missed: when a file of the analysis
    parses and lies in a layer, every pair that [iter_imports] yields for
    it and whose module lies in a layer is reported unless the pair of
    layers is in [allowed_edges]. *)
Theorem forbidden_imports_are_reported
    (ast_parse : string → option module_) (config : ArchConfig)
    (files : list (string * string)) (path source : string) (tree : module_)
    (full_name root from to : string) :
  In (path, source) files → ast_parse source = Some tree →
  In (full_name, root) (iter_imports tree) →
  _layer_for_path config path = Some from →
  _layer_for_module config (if String.eqb full_name "" then root else full_name) = Some to →
  ¬ In [from; to] (allowed_edges config) →
  In {| file := path; from_layer := from; to_layer := to; import_name := full_name |}
     (ArchitectureAnalyzer_analyze ast_parse config files).
Proof.
  intros Hin Hparse Himp Hfrom Hto Hedge.
  apply analyze_spec. exists source, tree. cbn [file].
  split; [exact Hin|]. split; [exact Hparse|].
  apply violations_of_file_spec. cbn [file from_layer to_layer import_name].
  split; [reflexivity|]. split; [exact Hfrom|]. split; [exact Hedge|].
  exists root. split; [exact Himp|exact Hto].
Qed.

Lemma forbidden_imports_are_reported_witness :
  In {| file := "src/ui/view.py"; from_layer := "ui"; to_layer := "core";
        import_name := "src.core.service" |}
     (ArchitectureAnalyzer_analyze two_file_parser ui_core_config two_files).
Proof.
  apply (forbidden_imports_are_reported two_file_parser ui_core_config two_files
           "src/ui/view.py" "import src.core.service"
           (Module [Import [Alias "src.core.service" None]])
           "src.core.service" "src" "ui" "core").
  - cbn. left. reflexivity.
  - vm_compute. reflexivity.
  - vm_compute. left. reflexivity.
  - vm_compute. reflexivity.
  - vm_compute. reflexivity.
  - vm_compute. intros [H|[H|[]]]; discriminate H.
Defined.


(** ** The lint adapter (lint.py, [LintAnalyzer.analyze]) *)

Lemma or_else_nonempty (s dflt : string) : dflt ≠ EmptyString → or_else s dflt ≠ EmptyString.
Proof. intros H. destruct s; [exact H|discriminate]. Qed.

(** X14. A lint result is either degraded, and then it names a reason
    that is not empty and holds no count and no score, or it is not, and
    then it names no reason and holds a score for exactly the paths it
    holds counts for. *)
Theorem lint_result_is_degraded_or_complete
    (pylint_categories : gmap string Q) (run : run_outcome (option (list LintMessage))) :
  (lint_degraded (LintAnalyzer_analyze pylint_categories run) = true
   ∧ (∃ reason, lint_missing_reason (LintAnalyzer_analyze pylint_categories run) = Some reason
                ∧ reason ≠ EmptyString)
   ∧ lint_counts (LintAnalyzer_analyze pylint_categories run) = ∅
   ∧ lint_weighted_scores (LintAnalyzer_analyze pylint_categories run) = ∅)
  ∨ (lint_degraded (LintAnalyzer_analyze pylint_categories run) = false
     ∧ lint_missing_reason (LintAnalyzer_analyze pylint_categories run) = None
     ∧ ∀ path, is_Some (lint_weighted_scores (LintAnalyzer_analyze pylint_categories run) !! path)
               ↔ is_Some (lint_counts (LintAnalyzer_analyze pylint_categories run) !! path)).
Proof.
  unfold LintAnalyzer_analyze. destruct run as [exc|p].
  - left. cbn. split; [reflexivity|]. split; [|split; reflexivity].
    eexists. split; [reflexivity|]. discriminate.
  - destruct (negb _).
    + left. cbn. split; [reflexivity|]. split; [|split; reflexivity].
      eexists. split; [reflexivity|]. apply or_else_nonempty. discriminate.
    + destruct (stdout p) as [messages|].
      * right. cbn. split; [reflexivity|]. split; [reflexivity|].
        intros path. rewrite lookup_fmap. apply fmap_is_Some.
      * left. cbn. split; [reflexivity|]. split; [|split; reflexivity].
        eexists. split; [reflexivity|]. discriminate.
Qed.

(** *** Counting *)

(** The messages counted for a path, over all categories. *)
Lemma sum_counts_insert (of_path : gmap string nat) (category : string) (n : nat) :
  map_fold (fun _ count total => (count + total)%nat) O (<[category := n]> of_path)
  = (n + map_fold (fun _ count total => (count + total)%nat) O of_path
     - match of_path !! category with Some old => old | None => O end)%nat.
Proof.
  destruct (of_path !! category) as [old|] eqn:E.
  - rewrite <- (insert_delete_id of_path category old E) at 2.
    rewrite <- insert_delete_eq.
    rewrite !(map_fold_insert_L _ _ category) by (try apply lookup_delete_eq; intros; lia).
    lia.
  - rewrite (map_fold_insert_L _ _ category) by (try exact E; intros; lia). lia.
Qed.

Lemma sum_zero_counts :
  map_fold (fun _ count total => (count + total)%nat) O zero_counts = O.
Proof. reflexivity. Qed.

Lemma count_message_other (counts : gmap string (gmap string nat)) (message : LintMessage)
    (path : string) :
  msg_path message ≠ path → count_message counts message !! path = counts !! path.
Proof. intros Hne. unfold count_message. apply lookup_insert_ne. exact Hne. Qed.

Lemma count_message_same (counts : gmap string (gmap string nat)) (message : LintMessage) :
  count_message counts message !! msg_path message
  = Some (<[category_of message :=
              S (get_or (get_or counts (msg_path message) zero_counts) (category_of message) O)]>
            (get_or counts (msg_path message) zero_counts)).
Proof. unfold count_message. apply lookup_insert_eq. Qed.

Lemma filter_none {A : Type} (f : A → bool) (l : list A) :
  (∀ a, In a l → f a = false) → List.filter f l = [].
Proof.
  induction l as [|a l IH]; intros H; [reflexivity|]. cbn [List.filter].
  rewrite (H a) by (left; reflexivity). apply IH. intros b Hb. apply H. right. exact Hb.
Qed.

Lemma counted_messages (messages : list LintMessage) (path : string) :
  match fold_left count_message messages ∅ !! path with
  | Some of_path =>
      map_fold (fun _ count total => (count + total)%nat) O of_path
      = length (List.filter (fun m => String.eqb (msg_path m) path) messages)
      ∧ ∃ m, In m messages ∧ msg_path m = path
  | None => ∀ m, In m messages → msg_path m ≠ path
  end.
Proof.
  induction messages as [|message messages IH] using rev_ind.
  - cbn. rewrite lookup_empty. intros m [].
  - rewrite fold_left_app, List.filter_app, length_app. cbn [fold_left List.filter].
    set (counts := fold_left count_message messages ∅) in *.
    destruct (String.eqb_spec (msg_path message) path) as [Heq|Hne].
    + subst path. rewrite count_message_same. unfold get_or at 2 3.
      split; [|exists message; split; [apply in_or_app; right; left|]; reflexivity].
      rewrite sum_counts_insert. unfold get_or. cbn [length].
      destruct (counts !! msg_path message) as [of_path|].
      * destruct IH as [IH _]. rewrite IH.
        destruct (of_path !! category_of message); lia.
      * rewrite sum_zero_counts.
        assert (List.filter (fun m => String.eqb (msg_path m) (msg_path message)) messages = [])
          as ->.
        { apply filter_none. intros m Hm. apply String.eqb_neq. apply IH, Hm. }
        destruct (zero_counts !! category_of message) as [n|] eqn:E; [|cbn; lia].
        assert (n = O) as ->; [|cbn; lia].
        unfold zero_counts in E.
        repeat (apply lookup_insert_Some in E as [[_ E]|[_ E]]; [congruence|]).
        rewrite lookup_empty in E. discriminate.
    + rewrite (count_message_other counts message path Hne). cbn [length].
      destruct (counts !! path) as [of_path|].
      * destruct IH as [IH (m & Hm & Hpath)]. split; [lia|].
        exists m. split; [apply in_or_app; left; exact Hm|exact Hpath].
      * intros m Hm. apply in_app_or in Hm as [Hm|[<-|[]]]; [apply IH, Hm|exact Hne].
Qed.

(** X15. Every message is counted once, under its own path: after a run
    that is not degraded the counts stored for a path add up, over all
    categories, to the number of messages that name the path, and a path
    that no message names has no entry. *)
Theorem lint_counts_every_message_once
    (pylint_categories : gmap string Q) (p : CompletedProcess (option (list LintMessage)))
    (messages : list LintMessage) (path : string) :
  existsb (Z.eqb (returncode p)) [0; 2; 4; 8; 16; 32] = true →
  stdout p = Some messages →
  match lint_counts (LintAnalyzer_analyze pylint_categories (Completed p)) !! path with
  | Some of_path =>
      map_fold (fun _ count total => (count + total)%nat) O of_path
      = length (List.filter (fun m => String.eqb (msg_path m) path) messages)
      ∧ ∃ m, In m messages ∧ msg_path m = path
  | None => ∀ m, In m messages → msg_path m ≠ path
  end.
Proof.
  intros Hcode Hout. unfold LintAnalyzer_analyze. rewrite Hcode, Hout. cbn [negb lint_counts].
  apply counted_messages.
Qed.

Lemma lint_counts_every_message_once_witness :
  match lint_counts (LintAnalyzer_analyze (weights_pylint_categories DEFAULT_CONFIG)
                       (Completed {| returncode := 4; stdout := Some two_messages;
                                     stderr := EmptyString |})) !! "/proj/a.py"%string with
  | Some of_path =>
      map_fold (fun _ count total => (count + total)%nat) O of_path
      = length (List.filter (fun m => String.eqb (msg_path m) "/proj/a.py") two_messages)
      ∧ ∃ m, In m two_messages ∧ msg_path m = "/proj/a.py"%string
  | None => ∀ m, In m two_messages → msg_path m ≠ "/proj/a.py"%string
  end.
Proof.
  apply (lint_counts_every_message_once (weights_pylint_categories DEFAULT_CONFIG)
           {| returncode := 4; stdout := Some two_messages; stderr := EmptyString |}
           two_messages "/proj/a.py"); reflexivity.
Defined.

(** *** Scoring *)

Lemma penalty_insert (weights : gmap string Q) (of_path : gmap string nat) (category : string)
    (n : nat) :
  (penalty weights (<[category := n]> of_path)
   == penalty weights of_path
      + get_or weights category 0
        * (inject_Z (Z.of_nat n) - inject_Z (Z.of_nat (get_or of_path category O))))%Q.
Proof.
  unfold penalty.
  set (f := fun (cat : string) (count : nat) (total : Q) =>
              (total + get_or weights cat 0 * inject_Z (Z.of_nat count))%Q).
  assert (∀ j z, Proper (Qeq ==> Qeq) (f j z)) as Hproper.
  { intros j z a b Hab. unfold f. rewrite Hab. reflexivity. }
  assert (∀ (m : gmap string nat) j1 j2 z1 z2 y,
            j1 ≠ j2 → m !! j1 = Some z1 → m !! j2 = Some z2 →
            (f j1 z1 (f j2 z2 y) == f j2 z2 (f j1 z1 y))%Q) as Hcomm.
  { intros m j1 j2 z1 z2 y _ _ _. unfold f. cbv beta. lra. }
  unfold get_or at 2. destruct (of_path !! category) as [old|] eqn:E.
  - rewrite (map_fold_delete Qeq f 0%Q category old of_path Hproper (Hcomm of_path) E).
    rewrite <- insert_delete_eq.
    rewrite (map_fold_insert Qeq f 0%Q category n (delete category of_path) Hproper
               (Hcomm _) (lookup_delete_eq _ _)).
    unfold f. ring.
  - rewrite (map_fold_insert Qeq f 0%Q category n of_path Hproper (Hcomm _) E).
    unfold f. change (inject_Z (Z.of_nat 0)) with 0%Q. ring.
Qed.

Lemma penalty_zero_counts (weights : gmap string Q) : (penalty weights zero_counts == 0)%Q.
Proof.
  assert (map_Forall (fun _ n => n = O) zero_counts) as Hzero.
  { unfold zero_counts. repeat (apply map_Forall_insert_2; [reflexivity|]).
    apply map_Forall_empty. }
  revert Hzero. unfold penalty.
  apply (map_fold_weak_ind
           (fun total (m : gmap string nat) => map_Forall (fun _ n => n = O) m → (total == 0)%Q)).
  - reflexivity.
  - intros i x m r Hfresh IH Hall.
    apply map_Forall_insert in Hall as [-> Hm]; [|exact Hfresh].
    rewrite (IH Hm). change (inject_Z (Z.of_nat 0)) with 0%Q. ring.
Qed.

(** One more message adds the weight of its category to the penalty of
    its path. *)
Lemma penalty_count_message (weights : gmap string Q) (counts : gmap string (gmap string nat))
    (message : LintMessage) :
  (penalty weights (get_or (count_message counts message) (msg_path message) zero_counts)
   == penalty weights (get_or counts (msg_path message) zero_counts)
      + get_or weights (category_of message) 0)%Q.
Proof.
  unfold get_or at 1. rewrite count_message_same. rewrite penalty_insert.
  rewrite Nat2Z.inj_succ. unfold Z.succ. rewrite inject_Z_plus. ring.
Qed.

Lemma unweighted_penalty (weights : gmap string Q) (messages : list LintMessage) :
  (∀ m, In m messages → weights !! category_of m = None) →
  map_Forall (fun _ of_path => (penalty weights of_path == 0)%Q)
             (fold_left count_message messages ∅).
Proof.
  intros Hfree. induction messages as [|message messages IH] using rev_ind.
  - cbn. apply map_Forall_empty.
  - rewrite fold_left_app. cbn [fold_left].
    assert (∀ m, In m messages → weights !! category_of m = None) as Hrest
      by (intros m Hm; apply Hfree, in_or_app; left; exact Hm).
    specialize (IH Hrest). set (counts := fold_left count_message messages ∅) in *.
    intros path of_path Hlookup.
    destruct (String.eqb_spec (msg_path message) path) as [Heq|Hne].
    + subst path.
      pose proof (penalty_count_message weights counts message) as Hp.
      unfold get_or at 1 in Hp. rewrite Hlookup in Hp. rewrite Hp.
      assert (get_or weights (category_of message) 0 == 0)%Q as ->.
      { unfold get_or. rewrite Hfree by (apply in_or_app; right; left; reflexivity). reflexivity. }
      unfold get_or. destruct (counts !! msg_path message) as [old|] eqn:E.
      * rewrite (IH _ _ E). reflexivity.
      * rewrite penalty_zero_counts. reflexivity.
    + rewrite (count_message_other counts message path Hne) in Hlookup.
      exact (IH path of_path Hlookup).
Qed.

(** X16. A message is filed under the first letter of its [symbol]
    (of its [type] only when it has no symbol), and a letter without a
    weight costs nothing: when no message of a run falls into a weighted
    category, every file of the run keeps the score 100. *)
Theorem unweighted_categories_cost_nothing
    (pylint_categories : gmap string Q) (run : run_outcome (option (list LintMessage))) :
  (∀ p messages m,
     run = Completed p → stdout p = Some messages → In m messages →
     pylint_categories !! category_of m = None) →
  map_Forall (fun _ score => (score == 100)%Q)
             (lint_weighted_scores (LintAnalyzer_analyze pylint_categories run)).
Proof.
  intros Hfree. unfold LintAnalyzer_analyze.
  destruct run as [exc|p]; [apply map_Forall_empty|].
  destruct (negb _); [apply map_Forall_empty|].
  destruct (stdout p) as [messages|] eqn:Hout; [|apply map_Forall_empty].
  cbn [lint_weighted_scores]. intros path score Hlookup.
  rewrite lookup_fmap in Hlookup.
  destruct (fold_left count_message messages ∅ !! path) as [of_path|] eqn:E; [|discriminate].
  injection Hlookup as <-. unfold weighted_score.
  rewrite (unweighted_penalty pylint_categories messages
             (fun m Hm => Hfree p messages m eq_refl Hout Hm) path of_path E).
  reflexivity.
Qed.

Lemma unweighted_categories_cost_nothing_witness :
  map_Forall (fun _ score => (score == 100)%Q)
             (lint_weighted_scores
                (LintAnalyzer_analyze (weights_pylint_categories DEFAULT_CONFIG)
                   (Completed {| returncode := 4; stdout := Some two_messages;
                                 stderr := EmptyString |}))).
Proof.
  apply (unweighted_categories_cost_nothing (weights_pylint_categories DEFAULT_CONFIG)).
  intros p messages m [= <-] [= <-] Hm. cbn in Hm.
  destruct Hm as [<-|[<-|[]]]; reflexivity.
Defined.

(** X17. With weights that are not negative, one more message never
    raises the score of the file it names, and leaves the entries of every
    other file as they are. *)
Theorem one_more_message_never_raises_the_score
    (pylint_categories : gmap string Q) (counts : gmap string (gmap string nat))
    (message : LintMessage) :
  non_negative pylint_categories →
  (weighted_score pylint_categories
     (get_or (count_message counts message) (msg_path message) zero_counts)
   <= weighted_score pylint_categories (get_or counts (msg_path message) zero_counts))%Q
  ∧ ∀ path, path ≠ msg_path message → count_message counts message !! path = counts !! path.
Proof.
  intros Hw. split.
  - unfold weighted_score. apply Q.max_le_compat_l.
    rewrite penalty_count_message.
    assert (0 <= get_or pylint_categories (category_of message) 0)%Q as Hcat
      by (apply (get_or_Forall (fun w => (0 <= w)%Q)); [exact Hw|apply Qle_refl]).
    lra.
  - intros path Hne. apply count_message_other. congruence.
Qed.

Lemma one_more_message_never_raises_the_score_witness :
  (weighted_score (weights_pylint_categories DEFAULT_CONFIG)
     (get_or (count_message ∅ unused_import_message) (msg_path unused_import_message)
             zero_counts)
   <= weighted_score (weights_pylint_categories DEFAULT_CONFIG)
        (get_or ∅ (msg_path unused_import_message) zero_counts))%Q
  ∧ ∀ path, path ≠ msg_path unused_import_message →
            count_message ∅ unused_import_message !! path
            = (∅ : gmap string (gmap string nat)) !! path.
Proof.
  apply (one_more_message_never_raises_the_score (weights_pylint_categories DEFAULT_CONFIG)
           ∅ unused_import_message).
  exact (proj1 (proj2 default_weights_non_negative)).
Defined.


(** ** The typing adapter (typing.py) *)

(** *** The pattern for a line of the type checker *)

Lemma before_app (c : ascii) (a rest : string) :
  ¬ In c (list_ascii_of_string a) → before c (a +:+ String c rest) = a.
Proof.
  induction a as [|x a IH]; intros Hfree.
  - change (EmptyString +:+ String c rest) with (String c rest). cbn. rewrite Ascii.eqb_refl.
    reflexivity.
  - change (String x a +:+ String c rest) with (String x (a +:+ String c rest)).
    cbn [before]. cbn in Hfree.
    destruct (Ascii.eqb_spec x c) as [->|_]; [tauto|].
    rewrite IH by tauto. reflexivity.
Qed.

Lemma strip_prefix_of_app (p rest : string) : strip_prefix p (p +:+ rest) = Some rest.
Proof.
  induction p as [|a p IH]; [reflexivity|].
  change (String a p +:+ rest) with (String a (p +:+ rest)).
  cbn [strip_prefix]. rewrite Ascii.eqb_refl. exact IH.
Qed.

Lemma drop_digits_app (digits rest : string) :
  List.Forall (fun c => isdigit c = true) (list_ascii_of_string digits) →
  drop_digits (digits +:+ String ":" rest) = String ":" rest.
Proof.
  induction digits as [|d digits IH]; intros Hdigits; [reflexivity|].
  change (String d digits +:+ String ":" rest) with (String d (digits +:+ String ":" rest)).
  cbn in Hdigits. apply List.Forall_cons_iff in Hdigits as [Hd Hdigits].
  cbn [drop_digits]. rewrite Hd. apply IH, Hdigits.
Qed.

(** X18. The pattern reads back what the type checker prints: a line
    made of a path without colon, a colon, a line number, [: error: ] or
    [: note: ] and a message (none of them empty, the message on one line)
    is matched, with that path and that kind. *)
Theorem mypy_match_reads_a_printed_line (path digits kind message : string) :
  path ≠ EmptyString → ¬ In ":"%char (list_ascii_of_string path) →
  digits ≠ EmptyString →
  List.Forall (fun c => isdigit c = true) (list_ascii_of_string digits) →
  kind = "error"%string ∨ kind = "note"%string →
  message ≠ EmptyString → ¬ In "010"%char (list_ascii_of_string message) →
  mypy_match (path +:+ ":" +:+ digits +:+ ": " +:+ kind +:+ ": " +:+ message)
  = Some (path, kind).
Proof.
  intros Hpath Hcolon Hdigits Hall Hkind Hmessage _. unfold mypy_match.
  change (":" +:+ digits +:+ ": " +:+ kind +:+ ": " +:+ message)%string
    with (String ":" (digits +:+ ": " +:+ kind +:+ ": " +:+ message)).
  rewrite (before_app ":" path _ Hcolon).
  destruct path as [|c0 path0] eqn:E; [congruence|]. rewrite <- E in *. clear E Hpath.
  replace (path +:+ String ":" (digits +:+ ": " +:+ kind +:+ ": " +:+ message))%string
    with ((path +:+ ":") +:+ (digits +:+ ": " +:+ kind +:+ ": " +:+ message))%string
    by (rewrite append_assoc; reflexivity).
  rewrite strip_prefix_of_app.
  change (": " +:+ kind +:+ ": " +:+ message)%string
    with (String ":" (" " +:+ kind +:+ ": " +:+ message)).
  rewrite (drop_digits_app digits _ Hall).
  destruct digits as [|d digits0]; [congruence|].
  change (String d digits0 +:+ String ":" (" " +:+ kind +:+ ": " +:+ message))%string
    with (String d (digits0 +:+ String ":" (" " +:+ kind +:+ ": " +:+ message))).
  cbn in Hall. apply List.Forall_cons_iff in Hall as [Hd _]. rewrite Hd.
  change (strip_prefix ": " (String ":" (" " +:+ kind +:+ ": " +:+ message)))
    with (Some (kind +:+ ": " +:+ message)%string).
  destruct message as [|m message0]; [congruence|].
  destruct Hkind as [->| ->]; reflexivity.
Qed.

Lemma mypy_match_reads_a_printed_line_witness :
  mypy_match ("src/app.py" +:+ ":" +:+ "12" +:+ ": " +:+ "error" +:+ ": "
              +:+ "Incompatible types  [assignment]")
  = Some ("src/app.py"%string, "error"%string).
Proof.
  apply (mypy_match_reads_a_printed_line "src/app.py" "12" "error"
           "Incompatible types  [assignment]").
  - discriminate.
  - vm_compute. intuition discriminate.
  - discriminate.
  - vm_compute. repeat constructor.
  - left. reflexivity.
  - discriminate.
  - vm_compute. intuition discriminate.
Defined.

(** *** Counting the errors *)

Lemma counted_errors (lines : list string) (path : string) :
  match fold_left count_error lines ∅ !! path with
  | Some n =>
      n = length (List.filter
                    (fun line => bool_decide (mypy_match line = Some (path, "error"%string)))
                    lines)
      ∧ (1 <= n)%nat
  | None => ∀ line, In line lines → mypy_match line ≠ Some (path, "error"%string)
  end.
Proof.
  induction lines as [|line lines IH] using rev_ind.
  - cbn. rewrite lookup_empty. intros line [].
  - rewrite fold_left_app, List.filter_app, length_app. cbn [fold_left List.filter].
    set (errors := fold_left count_error lines ∅) in *.
    unfold count_error.
    destruct (mypy_match line) as [[found type]|] eqn:Hmatch.
    + destruct (String.eqb_spec type "error") as [->|Htype].
      * destruct (decide (found = path)) as [->|Hne].
        -- rewrite lookup_insert_eq. rewrite bool_decide_eq_true_2 by reflexivity.
           cbn [length]. unfold get_or. destruct (errors !! path) as [n|].
           ++ destruct IH as [-> _]. split; lia.
           ++ rewrite (filter_none _ lines); [cbn; split; lia|].
              intros l Hl. apply bool_decide_eq_false. apply IH, Hl.
        -- rewrite lookup_insert_ne by exact Hne.
           rewrite bool_decide_eq_false_2 by congruence. cbn [length].
           destruct (errors !! path) as [n|].
           ++ destruct IH as [-> Hn]. split; lia.
           ++ intros l Hl. apply in_app_or in Hl as [Hl|[<-|[]]]; [apply IH, Hl|congruence].
      * rewrite bool_decide_eq_false_2 by congruence. cbn [length].
        destruct (errors !! path) as [n|].
        -- destruct IH as [-> Hn]. split; lia.
        -- intros l Hl. apply in_app_or in Hl as [Hl|[<-|[]]]; [apply IH, Hl|congruence].
    + rewrite bool_decide_eq_false_2 by congruence. cbn [length].
      destruct (errors !! path) as [n|].
      * destruct IH as [-> Hn]. split; lia.
      * intros l Hl. apply in_app_or in Hl as [Hl|[<-|[]]]; [apply IH, Hl|congruence].
Qed.

(** *** The scores *)

Lemma score_fold_returns (scale : TypingScale) (errors : gmap string nat)
    (loc_map : list (string * Z)) (acc : gmap string Q) :
  ∃ scores,
    fold_left (score_step scale errors) loc_map (Returns acc) = Returns scores
    ∧ ∀ path, is_Some (scores !! path) ↔ is_Some (acc !! path) ∨ In path (dict_keys loc_map).
Proof.
  revert acc. induction loc_map as [|[path loc] loc_map IH]; intros acc; cbn [fold_left].
  - exists acc. split; [reflexivity|]. intros path. cbn. tauto.
  - unfold score_step at 2. cbn [pybind fst snd].
    destruct (typing_score_returns scale (get_or errors path O) loc) as [s ->]. cbn [pybind].
    destruct (IH (<[path := s]> acc)) as (scores & Hfold & Hkeys).
    exists scores. split; [exact Hfold|]. intros k. rewrite Hkeys.
    rewrite lookup_insert_is_Some. unfold dict_keys. cbn [List.map fst In].
    destruct (decide (path = k)); intuition congruence.
Qed.

Lemma typing_analyze_total (scale : TypingScale) (run : run_outcome string)
    (loc_map : list (string * Z)) (coverage : gmap string Q) :
  ∃ result, TypingAnalyzer_analyze scale run loc_map coverage = Returns result.
Proof.
  unfold TypingAnalyzer_analyze. destruct run as [exc|p]; [eexists; reflexivity|].
  destruct (negb _); [eexists; reflexivity|].
  destruct (score_fold_returns scale (fold_left count_error (splitlines (stdout p)) ∅)
              loc_map ∅) as (scores & -> & _).
  cbn [pybind]. eexists. reflexivity.
Qed.

(** X19. [TypingAnalyzer.analyze] never raises, whatever the scale: the
    division by [zero_score_at_20] is only reached below a positive
    threshold. It passes [coverage] on, and its result is either degraded,
    with a reason that is not empty and no error and no score, or not
    degraded, with no reason and a score for exactly the paths of
    [loc_map]. *)
Theorem typing_analysis_returns
    (scale : TypingScale) (run : run_outcome string) (loc_map : list (string * Z))
    (coverage : gmap string Q) :
  ∃ result,
    TypingAnalyzer_analyze scale run loc_map coverage = Returns result
    ∧ typing_coverage result = coverage
    ∧ ((typing_degraded result = true
        ∧ (∃ reason, typing_missing_reason result = Some reason ∧ reason ≠ EmptyString)
        ∧ typing_errors result = ∅ ∧ typing_scores result = ∅)
       ∨ (typing_degraded result = false ∧ typing_missing_reason result = None
          ∧ ∀ path, is_Some (typing_scores result !! path) ↔ In path (dict_keys loc_map))).
Proof.
  unfold TypingAnalyzer_analyze. destruct run as [exc|p].
  - eexists. split; [reflexivity|]. split; [reflexivity|]. left. cbn.
    split; [reflexivity|]. split; [|split; reflexivity].
    eexists. split; [reflexivity|]. discriminate.
  - destruct (negb _).
    + eexists. split; [reflexivity|]. split; [reflexivity|]. left. cbn.
      split; [reflexivity|]. split; [|split; reflexivity].
      eexists. split; [reflexivity|]. apply or_else_nonempty. discriminate.
    + destruct (score_fold_returns scale (fold_left count_error (splitlines (stdout p)) ∅)
                  loc_map ∅) as (scores & -> & Hkeys).
      cbn [pybind]. eexists. split; [reflexivity|]. split; [reflexivity|]. right. cbn.
      split; [reflexivity|]. split; [reflexivity|].
      intros path. rewrite Hkeys, lookup_empty. split; [intros [[v Hv]|H]; [discriminate|exact H]|tauto].
Qed.

(** X20. After a run that is not degraded and whose output lies in the
    ASCII range (where the line boundaries and the digits are the ASCII
    ones), the count stored for a path is the number of printed lines that
    match the pattern with that path and the kind [error]; lines of kind
    [note] and lines that do not match are not counted, and a path without
    such a line has no entry. *)
Theorem typing_counts_the_error_lines
    (scale : TypingScale) (p : CompletedProcess string) (loc_map : list (string * Z))
    (coverage : gmap string Q) (path : string) :
  existsb (Z.eqb (returncode p)) [0; 1] = true →
  isascii (stdout p) = true →
  ∃ result,
    TypingAnalyzer_analyze scale (Completed p) loc_map coverage = Returns result
    ∧ match typing_errors result !! path with
      | Some n =>
          n = length (List.filter
                        (fun line => bool_decide (mypy_match line = Some (path, "error"%string)))
                        (splitlines (stdout p)))
          ∧ (1 <= n)%nat
      | None =>
          ∀ line, In line (splitlines (stdout p)) →
                  mypy_match line ≠ Some (path, "error"%string)
      end.
Proof.
  intros Hcode _. unfold TypingAnalyzer_analyze. rewrite Hcode. cbn [negb].
  destruct (score_fold_returns scale (fold_left count_error (splitlines (stdout p)) ∅)
              loc_map ∅) as (scores & -> & _).
  cbn [pybind]. eexists. split; [reflexivity|]. cbn [typing_errors].
  apply counted_errors.
Qed.

Lemma typing_counts_the_error_lines_witness :
  ∃ result,
    TypingAnalyzer_analyze DEFAULT_TYPING_SCALE
      (Completed {| returncode := 1; stdout := "mod.py:1: error: Bad  [misc]" +:+ LF;
                    stderr := EmptyString |})
      [("mod.py"%string, 1)] ∅ = Returns result
    ∧ match typing_errors result !! "mod.py"%string with
      | Some n =>
          n = length (List.filter
                        (fun line => bool_decide (mypy_match line
                                                  = Some ("mod.py"%string, "error"%string)))
                        (splitlines ("mod.py:1: error: Bad  [misc]" +:+ LF)))
          ∧ (1 <= n)%nat
      | None =>
          ∀ line, In line (splitlines ("mod.py:1: error: Bad  [misc]" +:+ LF)) →
                  mypy_match line ≠ Some ("mod.py"%string, "error"%string)
      end.
Proof.
  apply (typing_counts_the_error_lines DEFAULT_TYPING_SCALE
           {| returncode := 1; stdout := "mod.py:1: error: Bad  [misc]" +:+ LF;
              stderr := EmptyString |}
           [("mod.py"%string, 1)] ∅ "mod.py").
  - reflexivity.
  - reflexivity.
Defined.

(** *** The curve *)

(** X21. Under a positive threshold, a maximum that is not negative and
    a slope [max_score_at_0 / zero_score_at_20] of at most 1e308 (so that
    the quotient is a finite binary64 number), the curve is the one the
    configuration keys name: a file without errors scores
    [max_score_at_0], a file whose density reaches the threshold scores 0,
    and a higher error count (for the same number of lines) never gives a
    higher score. *)
Theorem typing_curve_under_a_positive_threshold (scale : TypingScale) (loc : Z) :
  (0 < zero_score_at_20 scale)%Q → (0 <= max_score_at_0 scale)%Q →
  (max_score_at_0 scale / zero_score_at_20 scale <= inject_Z (10 ^ 308))%Q →
  (∃ s, typing_score scale O loc = Returns s ∧ (s == max_score_at_0 scale)%Q)
  ∧ (∀ n, (zero_score_at_20 scale
           <= inject_Z (Z.of_nat n * 1000) / inject_Z (Z.max 1 loc))%Q →
          typing_score scale n loc = Returns 0%Q)
  ∧ (∀ n m s t, (n <= m)%nat →
                typing_score scale n loc = Returns s → typing_score scale m loc = Returns t →
                (t <= s)%Q).
Proof.
  intros Hz Hmax _.
  assert (0 < inject_Z (Z.max 1 loc))%Q as Hloc by (apply inject_Z_pos; lia).
  assert (¬ zero_score_at_20 scale == 0)%Q as Hz0 by (intros H; rewrite H in Hz; discriminate).
  split; [|split].
  - unfold typing_score, Qleb, py_div.
    assert (inject_Z (Z.of_nat 0 * 1000) / inject_Z (Z.max 1 loc) == 0)%Q as Hd.
    { cbn [Z.of_nat Z.mul]. change (inject_Z 0) with 0%Q. unfold Qdiv. apply Qmult_0_l. }
    destruct (Qle_bool _ _) eqn:Hle.
    + apply Qle_bool_iff in Hle. rewrite Hd in Hle. lra.
    + destruct (Qeq_bool _ 0) eqn:H0; [apply Qeq_bool_iff in H0; tauto|].
      cbn [pybind]. eexists. split; [reflexivity|]. rewrite Hd.
      rewrite Qmult_0_r. rewrite Q.max_r by lra. lra.
  - intros n Hn. unfold typing_score, Qleb.
    apply Qle_bool_iff in Hn. rewrite Hn. reflexivity.
  - intros n m s t Hnm. unfold typing_score, Qleb, py_div.
    assert (inject_Z (Z.of_nat n * 1000) / inject_Z (Z.max 1 loc)
            <= inject_Z (Z.of_nat m * 1000) / inject_Z (Z.max 1 loc))%Q as Hdens.
    { apply Qmult_le_compat_r; [|apply Qlt_le_weak, Qinv_lt_0_compat, Hloc].
      rewrite <- Zle_Qle. lia. }
    set (dn := (inject_Z (Z.of_nat n * 1000) / inject_Z (Z.max 1 loc))%Q) in *.
    set (dm := (inject_Z (Z.of_nat m * 1000) / inject_Z (Z.max 1 loc))%Q) in *.
    destruct (Qeq_bool (zero_score_at_20 scale) 0) eqn:H0; [apply Qeq_bool_iff in H0; tauto|].
    destruct (Qle_bool (zero_score_at_20 scale) dm) eqn:Hm.
    + intros Hs [= <-].
      destruct (Qle_bool (zero_score_at_20 scale) dn); cbn [pybind] in Hs;
        injection Hs as <-; [apply Qle_refl|apply Q.le_max_l].
    + destruct (Qle_bool (zero_score_at_20 scale) dn) eqn:Hn.
      * apply Qle_bool_iff in Hn.
        assert (Qle_bool (zero_score_at_20 scale) dm = true) as Hm'
          by (apply Qle_bool_iff; lra).
        congruence.
      * cbn [pybind]. intros [= <-] [= <-]. apply Q.max_le_compat_l.
        assert (0 <= max_score_at_0 scale / zero_score_at_20 scale)%Q as Hslope
          by (apply Qdiv_nonneg; assumption).
        pose proof (Qmult_le_compat_r _ _ _ Hdens Hslope) as H.
        rewrite (Qmult_comm dn), (Qmult_comm dm) in H. lra.
Qed.

Lemma typing_curve_under_a_positive_threshold_witness :
  (∃ s, typing_score steep_typing_scale O 10 = Returns s
        ∧ (s == max_score_at_0 steep_typing_scale)%Q)
  ∧ (∀ n, (zero_score_at_20 steep_typing_scale
           <= inject_Z (Z.of_nat n * 1000) / inject_Z (Z.max 1 10))%Q →
          typing_score steep_typing_scale n 10 = Returns 0%Q)
  ∧ (∀ n m s t, (n <= m)%nat →
                typing_score steep_typing_scale n 10 = Returns s →
                typing_score steep_typing_scale m 10 = Returns t →
                (t <= s)%Q).
Proof.
  apply (typing_curve_under_a_positive_threshold steep_typing_scale 10).
  - reflexivity.
  - discriminate.
  - vm_compute. discriminate.
Defined.


(** ** Roles (fs.py, [detect_role]) *)

Lemma string_lower_app (a b : string) :
  string_lower (a +:+ b) = (string_lower a +:+ string_lower b)%string.
Proof.
  unfold string_lower. induction a as [|c a IH]; [reflexivity|].
  change (String c a +:+ b) with (String c (a +:+ b)). cbn. rewrite IH. reflexivity.
Qed.

Lemma prefix_app (sub a b : string) :
  String.prefix sub a = true → String.prefix sub (a +:+ b) = true.
Proof.
  revert a. induction sub as [|x sub IH]; intros a H; [destruct (a +:+ b)%string; reflexivity|].
  destruct a as [|y a]; [discriminate H|].
  change (String y a +:+ b) with (String y (a +:+ b)).
  cbn [String.prefix] in H |- *. destruct (ascii_dec x y); [apply IH, H|discriminate H].
Qed.

Lemma contains_app_l (a b sub : string) :
  Unparse.contains a sub = true → Unparse.contains (a +:+ b) sub = true.
Proof.
  induction a as [|c a IH]; intros H.
  - cbn [Unparse.contains] in H. rewrite orb_false_r in H.
    destruct sub; [|discriminate H].
    destruct (EmptyString +:+ b)%string; reflexivity.
  - change (String c a +:+ b) with (String c (a +:+ b)).
    cbn [Unparse.contains] in H |- *. apply orb_true_iff in H as [H|H].
    + change (String c (a +:+ b)) with (String c a +:+ b)%string.
      rewrite (prefix_app _ _ _ H). reflexivity.
    + rewrite (IH H). apply orb_true_r.
Qed.

Lemma find_hint_app (lower rest : string) (hints : list (string * list string)) :
  List.find (fun rh => existsb (Unparse.contains lower) (snd rh)) hints ≠ None →
  List.find (fun rh => existsb (Unparse.contains (lower +:+ rest)) (snd rh)) hints ≠ None.
Proof.
  induction hints as [|rh hints IH]; cbn [List.find]; [tauto|].
  destruct (existsb (Unparse.contains (lower +:+ rest)) (snd rh)) eqn:E; [discriminate|].
  destruct (existsb (Unparse.contains lower) (snd rh)) eqn:E'; [|exact IH].
  exfalso. apply existsb_exists in E' as (hint & Hin & Hc).
  assert (existsb (Unparse.contains (lower +:+ rest)) (snd rh) = true) as H.
  { apply existsb_exists. exists hint. split; [exact Hin|apply contains_app_l, Hc]. }
  congruence.
Qed.

Lemma detect_role_cases (path : string) :
  detect_role path = "default"%string
  ↔ List.find (fun rh => existsb (Unparse.contains (string_lower path)) (snd rh)) ROLE_HINTS
    = None.
Proof.
  unfold detect_role.
  destruct (List.find _ ROLE_HINTS) as [rh|] eqn:E; [|tauto].
  apply find_some in E as [Hin _]. cbn in Hin.
  split; [|discriminate].
  destruct Hin as [<-|[<-|[<-|[<-|[]]]]]; discriminate.
Qed.

(** X22. The role is read off the whole path, directories above the
    scanned root included: once a directory carries a hint (as in
    [/home/ci/build/] or [/srv/config-service/]), no file below it gets the
    role [default]. *)
Theorem role_hints_in_parent_directories_count (directory rest : string) :
  detect_role directory ≠ "default"%string →
  detect_role (directory +:+ rest) ≠ "default"%string.
Proof.
  rewrite !detect_role_cases, string_lower_app. apply find_hint_app.
Qed.

Lemma role_hints_in_parent_directories_count_witness :
  detect_role ("/home/ci/build" +:+ "/proj/src/app.py") ≠ "default"%string.
Proof.
  apply (role_hints_in_parent_directories_count "/home/ci/build" "/proj/src/app.py").
  vm_compute. discriminate.
Defined.

(** ** Annotation coverage (ast_tools.py, [count_annotation_coverage]) *)

Lemma pair_sum_le (l : list (nat * nat)) :
  List.Forall (fun p => (fst p <= snd p)%nat) l → (fst (pair_sum l) <= snd (pair_sum l))%nat.
Proof.
  induction 1 as [|p l Hp Hl IH]; cbn; [lia|]. unfold pair_sum in IH. lia.
Qed.

Lemma counts_of_def_le (args : arguments) (returns : option expr) :
  (fst (counts_of_def args returns) <= snd (counts_of_def args returns))%nat.
Proof.
  unfold counts_of_def. cbn [fst snd].
  assert (list_sum (List.map annotated_arg (args_args args ++ args_kwonlyargs args))
          <= length (args_args args ++ args_kwonlyargs args))%nat as Hpos.
  { induction (args_args args ++ args_kwonlyargs args) as [|a l IH]; [cbn; lia|].
    change (list_sum (List.map annotated_arg (a :: l)))
      with (annotated_arg a + list_sum (List.map annotated_arg l))%nat.
    cbn [length]. unfold annotated_arg at 1. destruct (is_not_None (annotation a)); lia. }
  revert Hpos.
  generalize (list_sum (List.map annotated_arg (args_args args ++ args_kwonlyargs args))).
  generalize (length (args_args args ++ args_kwonlyargs args)).
  intros n a Hpos. unfold annotated_opt_arg, annotated_arg.
  destruct (is_not_None returns);
    destruct (args_vararg args) as [v|]; destruct (args_kwarg args) as [k|]; cbn [is_not_None];
    repeat match goal with |- context [is_not_None ?o] => destruct (is_not_None o) end; lia.
Qed.

Lemma pair_sum_map_le {A : Type} (f : A → nat * nat) (l : list A) :
  Forall (fun a => (fst (f a) <= snd (f a))%nat) l →
  (fst (pair_sum (List.map f l)) <= snd (pair_sum (List.map f l)))%nat.
Proof.
  intros H. apply pair_sum_le. apply List.Forall_forall. intros p Hp.
  apply in_map_iff in Hp as (a & <- & Ha).
  exact (proj1 (List.Forall_forall _ l) H a Ha).
Qed.

Lemma coverage_stmt_le (s : stmt) : (fst (coverage_stmt s) <= snd (coverage_stmt s))%nat.
Proof.
  apply (stmt_induction
           (fun s => (fst (coverage_stmt s) <= snd (coverage_stmt s))%nat)
           (fun h => (fst (coverage_handler h) <= snd (coverage_handler h))%nat));
    clear s; intros; cbn [coverage_stmt coverage_handler];
    repeat match goal with
           | H : Forall _ _ |- _ => apply pair_sum_map_le in H
           end;
    unfold pair_add; cbn [fst snd]; try lia.
  pose proof (counts_of_def_le args returns). lia.
Qed.

(** X23. [count_annotation_coverage] never counts more annotations than
    annotation sites: [annotated <= total] for every tree. *)
Theorem annotated_sites_are_at_most_all_sites (tree : module_) :
  (fst (count_annotation_coverage tree) <= snd (count_annotation_coverage tree))%nat.
Proof.
  unfold count_annotation_coverage. apply pair_sum_map_le.
  apply Forall_forall. intros s _. apply coverage_stmt_le.
Qed.

(** ** The project summary (runner.py, [_aggregate_project]) *)

Lemma Qsum_app (a b : list Q) : (Qsum (a ++ b) == Qsum a + Qsum b)%Q.
Proof.
  unfold Qsum. induction a as [|x a IH]; cbn [app fold_right]; [ring|]. rewrite IH. ring.
Qed.

Lemma Qeq_bool_compat (a b : Q) : (a == b)%Q → Qeq_bool a 0 = Qeq_bool b 0.
Proof.
  intros H. destruct (Qeq_bool b 0) eqn:E.
  - apply Qeq_bool_iff. apply Qeq_bool_iff in E. rewrite H. exact E.
  - destruct (Qeq_bool a 0) eqn:E'; [|reflexivity].
    apply Qeq_bool_iff in E'. rewrite H in E'. apply Qeq_bool_iff in E'. congruence.
Qed.

Lemma aggregate_skips (role_weights : gmap string Q) (metric : FileReport → Q)
    (before after : list FileReport) (f : FileReport) :
  (role_factor role_weights f == 0)%Q →
  (aggregate role_weights metric (before ++ f :: after)
   == aggregate role_weights metric (before ++ after))%Q.
Proof.
  intros Hzero. unfold aggregate.
  assert (Qsum (List.map (fun f => metric f * role_factor role_weights f) (before ++ f :: after))
          == Qsum (List.map (fun f => metric f * role_factor role_weights f) (before ++ after)))%Q
    as Htotal.
  { rewrite !List.map_app, !Qsum_app. cbn [List.map]. unfold Qsum at 2. cbn [fold_right].
    fold (Qsum (List.map (fun f => metric f * role_factor role_weights f)%Q after)).
    rewrite Hzero. ring. }
  assert (Qsum (List.map (role_factor role_weights) (before ++ f :: after))
          == Qsum (List.map (role_factor role_weights) (before ++ after)))%Q as Hweight.
  { rewrite !List.map_app, !Qsum_app. cbn [List.map]. unfold Qsum at 2. cbn [fold_right].
    fold (Qsum (List.map (role_factor role_weights) after)).
    rewrite Hzero. ring. }
  rewrite (Qeq_bool_compat _ _ Hweight).
  destruct (Qeq_bool _ 0); [reflexivity|].
  rewrite Htotal, Hweight. reflexivity.
Qed.

Lemma aggregate_weightless (role_weights : gmap string Q) (metric : FileReport → Q)
    (files : list FileReport) :
  List.Forall (fun f => (role_factor role_weights f == 0)%Q) files →
  aggregate role_weights metric files = 0%Q.
Proof.
  intros Hall. unfold aggregate.
  assert (Qsum (List.map (role_factor role_weights) files) == 0)%Q as Hweight.
  { unfold Qsum. induction Hall as [|f files Hf _ IH]; cbn [List.map fold_right]; [reflexivity|].
    rewrite Hf, IH. reflexivity. }
  apply Qeq_bool_iff in Hweight. rewrite Hweight. reflexivity.
Qed.

(** X25. A file whose role weight or line count is zero (a [generated]
    file under the default weights, an empty file) has no influence on the
    project summary: leaving it out changes none of the five values; and a
    project that only has such files, or no file at all, is summarised as 0
    throughout. *)
Theorem weightless_files_do_not_count (role_weights : gmap string Q) :
  (∀ before f after,
     (role_factor role_weights f == 0)%Q →
     (sum_duplication (_aggregate_project (before ++ f :: after) role_weights)
      == sum_duplication (_aggregate_project (before ++ after) role_weights))%Q
     ∧ (sum_lint (_aggregate_project (before ++ f :: after) role_weights)
        == sum_lint (_aggregate_project (before ++ after) role_weights))%Q
     ∧ (sum_typing (_aggregate_project (before ++ f :: after) role_weights)
        == sum_typing (_aggregate_project (before ++ after) role_weights))%Q
     ∧ (sum_complexity (_aggregate_project (before ++ f :: after) role_weights)
        == sum_complexity (_aggregate_project (before ++ after) role_weights))%Q
     ∧ (sum_grade (_aggregate_project (before ++ f :: after) role_weights)
        == sum_grade (_aggregate_project (before ++ after) role_weights))%Q)
  ∧ (∀ files,
       List.Forall (fun f => (role_factor role_weights f == 0)%Q) files →
       _aggregate_project files role_weights
       = {| sum_duplication := 0; sum_lint := 0; sum_typing := 0; sum_complexity := 0;
            sum_grade := 0 |}).
Proof.
  split.
  - intros before f after Hzero. unfold _aggregate_project.
    cbn [sum_duplication sum_lint sum_typing sum_complexity sum_grade].
    repeat split; apply aggregate_skips; exact Hzero.
  - intros files Hall. unfold _aggregate_project.
    rewrite !(aggregate_weightless role_weights _ files Hall). reflexivity.
Qed.

Lemma weightless_files_do_not_count_witness :
  (sum_grade (_aggregate_project ([graded_file "default" 80] ++ graded_file "generated" 0 :: [])
                (weights_roles DEFAULT_CONFIG))
   == sum_grade (_aggregate_project ([graded_file "default" 80] ++ [])
                   (weights_roles DEFAULT_CONFIG)))%Q.
Proof.
  apply (proj1 (weightless_files_do_not_count (weights_roles DEFAULT_CONFIG))
           [graded_file "default" 80] (graded_file "generated" 0) []).
  vm_compute. reflexivity.
Defined.

(** ** The interval (runner.py, [_bootstrap_interval]) *)

Lemma py_index_In {A : Type} (l : list A) (i : Z) (a : A) : py_index l i = Returns a → In a l.
Proof.
  unfold py_index. destruct (_ && _); [|discriminate].
  destruct (nth_error l _) as [x|] eqn:E; [|discriminate].
  intros [= <-]. eapply nth_error_In, E.
Qed.

Section IntervalFacts.

Variable rng : Type.
Variable randbelow : rng → nat → nat * rng.
Variable values : list Q.
Variable lo hi : Q.
Hypothesis values_in_range : Forall (in_range lo hi) values.

Lemma draw_sample_range (n : nat) (g : rng) (xs : list Q) :
  fst (draw_sample rng randbelow values n g) = Returns xs →
  Forall (in_range lo hi) xs ∧ length xs = n.
Proof.
  revert g xs. induction n as [|n IH]; intros g xs; cbn [draw_sample].
  - intros [= <-]. split; [apply List.Forall_nil|reflexivity].
  - destruct (choice rng randbelow values g) as [x g1] eqn:Hchoice.
    destruct (draw_sample rng randbelow values n g1) as [rest g2] eqn:Hrest. cbn [fst].
    destruct x as [x|e]; [|discriminate]. cbn [pybind].
    destruct rest as [rest|e]; [|discriminate]. cbn [pybind]. intros [= <-].
    destruct (IH g1 rest) as [Hall Hlen]; [rewrite Hrest; reflexivity|].
    split; [|cbn; congruence]. apply List.Forall_cons; [|exact Hall].
    unfold choice in Hchoice. destruct (randbelow g (length values)) as [i g'].
    injection Hchoice as Hx _. apply py_index_In in Hx.
    exact (proj1 (List.Forall_forall _ _) values_in_range x Hx).
Qed.

Lemma draw_means_range (n : nat) (g : rng) (means : list Q) :
  values ≠ [] →
  draw_means rng randbelow values n g = Returns means → Forall (in_range lo hi) means.
Proof.
  intros Hne. revert g means. induction n as [|n IH]; intros g means; cbn [draw_means].
  - intros [= <-]. apply List.Forall_nil.
  - destruct (draw_sample rng randbelow values (length values) g) as [sample g1] eqn:Hsample.
    destruct sample as [sample|e]; [|discriminate]. cbn [pybind].
    destruct (draw_means rng randbelow values n g1) as [rest|e] eqn:Hrest; [|discriminate].
    cbn [pybind]. intros [= <-].
    destruct (draw_sample_range (length values) g sample) as [Hall Hlen];
      [rewrite Hsample; reflexivity|].
    apply List.Forall_cons; [|apply (IH g1), Hrest].
    apply mean_range; [|exact Hall].
    destruct sample; [|discriminate]. destruct values; [congruence|discriminate].
Qed.

End IntervalFacts.

(** X26. The interval lies within the grades it is drawn from: both
    bounds are at least the lowest and at most the highest grade, so files
    that all have the same grade give an interval that is that grade
    twice. *)
Theorem interval_lies_within_the_grades
    (rng : Type) (Random : Z → rng) (randbelow : rng → nat → nat * rng)
    (values : list Q) (iterations seed : Z) (lo hi : Q) :
  (∀ g n, (0 < n)%nat → (fst (randbelow g n) < n)%nat) →
  values ≠ [] → 1 <= iterations →
  Forall (in_range lo hi) values →
  ∃ lower upper,
    _bootstrap_interval rng Random randbelow values iterations seed = Returns [lower; upper]
    ∧ in_range lo hi lower ∧ in_range lo hi upper.
Proof.
  intros Hrng Hne Hit Hall.
  destruct (bootstrap_interval_spec rng Random randbelow Hrng values iterations seed Hne Hit)
    as (means & lower & upper & Hmeans & _ & _ & _ & Hres & _ & Hl & Hu).
  pose proof (draw_means_range rng randbelow values lo hi Hall _ _ means Hne Hmeans) as Hrange.
  exists lower, upper. split; [exact Hres|].
  split; [exact (proj1 (List.Forall_forall _ _) Hrange lower Hl)
         |exact (proj1 (List.Forall_forall _ _) Hrange upper Hu)].
Qed.

Lemma interval_lies_within_the_grades_witness :
  ∃ lower upper,
    _bootstrap_interval Z lcg_Random lcg_randbelow [80; 60; 100]%Q 100 1337
    = Returns [lower; upper]
    ∧ in_range 60 100 lower ∧ in_range 60 100 upper.
Proof.
  apply (interval_lies_within_the_grades Z lcg_Random lcg_randbelow [80; 60; 100]%Q 100 1337
           60 100 lcg_randbelow_lt).
  - discriminate.
  - lia.
  - repeat (apply List.Forall_cons; [split; vm_compute; discriminate|]). apply List.Forall_nil.
Defined.


(** ** The outcomes of a run (runner.py, [Runner.run]) *)

Lemma relative_to_error (path root : string) (e : exn) :
  relative_to path root = Raises e → e = ValueError.
Proof.
  unfold relative_to. destruct (negb _); [congruence|].
  destruct (String.eqb path root); [discriminate|].
  destruct (strip_prefix _ path); [discriminate|congruence].
Qed.

Lemma prefix_of_app (a b : string) : String.prefix a (a +:+ b) = true.
Proof.
  induction a as [|c a IH]; [destruct (EmptyString +:+ b)%string; reflexivity|].
  change (String c a +:+ b) with (String c (a +:+ b)). cbn [String.prefix].
  destruct (ascii_dec c c); [exact IH|congruence].
Qed.

Lemma prefix_same (a : string) : String.prefix a a = true.
Proof.
  induction a as [|c a IH]; [reflexivity|]. cbn [String.prefix].
  destruct (ascii_dec c c); [exact IH|congruence].
Qed.

(** A path that does not start with the absolute root is not below it. *)
Lemma relative_to_outside (path root : string) :
  is_absolute root = true → startswith path root = false →
  relative_to path root = Raises ValueError.
Proof.
  intros Hroot Hout. unfold relative_to. rewrite Hroot.
  destruct (is_absolute path) eqn:Hpath; [|reflexivity]. cbn [Bool.eqb negb].
  destruct (String.eqb_spec path root) as [->|_].
  { unfold startswith in Hout. rewrite prefix_same in Hout. discriminate. }
  destruct (String.eqb_spec root "/") as [->|_].
  { unfold is_absolute in Hpath. congruence. }
  destruct (String.eqb_spec root ".") as [->|_]; [discriminate Hroot|].
  destruct (strip_prefix (root +:+ "/") path) as [rest|] eqn:E; [|reflexivity].
  apply strip_prefix_app in E. subst path. exfalso.
  unfold startswith in Hout. rewrite append_assoc, prefix_of_app in Hout. discriminate.
Qed.

Section OutcomeFacts.

Variable ast_parse : string → option module_.
Variable log1p : Z → Q.
Variable rng : Type.
Variable Random : Z → rng.
Variable randbelow : rng → nat → nat * rng.
Variable config : Config.
Variable root_path : string.
Variable lint_run : run_outcome (option (list LintMessage)).
Variable typing_run : run_outcome string.

Local Abbreviation run enumerated :=
  (Runner_run ast_parse log1p rng Random randbelow config root_path enumerated lint_run typing_run).

Lemma scan_file_outcome (sc0 : Scanned) (path text : string) :
  match relative_to path root_path with
  | Returns rel =>
      ∃ sc, scan_file ast_parse root_path (Returns sc0) (path, text) = Returns sc
            ∧ loc_map sc = dict_set (loc_map sc0) rel (loc_of text)
  | Raises e => scan_file ast_parse root_path (Returns sc0) (path, text) = Raises ValueError
  end.
Proof.
  unfold scan_file. cbn [pybind].
  destruct (relative_to path root_path) as [rel|e] eqn:E; cbn [pybind].
  - destruct (safe_parse ast_parse text) as [tree success]. eexists. split; reflexivity.
  - apply relative_to_error in E. subst e. reflexivity.
Qed.

Lemma scan_fold_fails (enumerated : list (string * string)) (sc0 : Scanned) (path text : string) :
  In (path, text) enumerated → relative_to path root_path = Raises ValueError →
  fold_left (scan_file ast_parse root_path) enumerated (Returns sc0) = Raises ValueError.
Proof.
  intros Hin Hfail. revert sc0.
  induction enumerated as [|[p t] enumerated IH]; intros sc0; [destruct Hin|].
  cbn [fold_left]. pose proof (scan_file_outcome sc0 p t) as Hfile.
  destruct (relative_to p root_path) as [rel|e] eqn:E.
  - destruct Hfile as (sc & -> & _). destruct Hin as [[= -> ->]|Hin]; [congruence|].
    apply IH, Hin.
  - rewrite Hfile. apply scan_raises.
Qed.

Lemma scan_fails (enumerated : list (string * string)) (path text : string) :
  In (path, text) enumerated → relative_to path root_path = Raises ValueError →
  scan ast_parse root_path enumerated = Raises ValueError.
Proof. intros Hin Hfail. unfold scan. eapply scan_fold_fails; eassumption. Qed.

(** Once the files are scanned, the outcome of [run] is that of the
    bootstrap. *)
Lemma run_after_scan (enumerated : list (string * string)) (sc : Scanned) :
  scan ast_parse root_path enumerated = Returns sc →
  ∃ grades,
    length grades = length (loc_map sc)
    ∧ match _bootstrap_interval rng Random randbelow grades
              (iterations (bootstrap config)) (seed (bootstrap config)) with
      | Returns interval =>
          ∃ report, run enumerated = Returns report
                    ∧ interval_grade (pr_confidence (project report)) = interval
                    ∧ List.map fr_grade (files report) = grades
      | Raises e => run enumerated = Raises e
      end.
Proof.
  intros Hscan. unfold Runner_run. rewrite Hscan. cbn [pybind].
  destruct (typing_analyze_total (typing_error_scale (scoring config)) typing_run
              (loc_map sc) (coverage_ratio sc)) as (typing & ->).
  cbn [pybind].
  match goal with
  | |- context [_bootstrap_interval rng Random randbelow ?g _ _] => exists g
  end.
  split; [rewrite !length_map; reflexivity|].
  destruct (_bootstrap_interval _ _ _ _ _ _) as [interval|e]; cbn [pybind]; [|reflexivity].
  eexists. split; [reflexivity|]. split; reflexivity.
Qed.

End OutcomeFacts.

(** X27. A file that the enumeration yields from outside the scanned
    root (through an absolute [include] path, or a link that resolves
    elsewhere) makes the scan fail: [run] returns no report. When that
    file is the first one scanned, the exception is the [ValueError] of
    [Path.relative_to], raised before any analyzer runs. *)
Theorem run_rejects_a_file_outside_the_root
    (ast_parse : string → option module_) (log1p : Z → Q)
    (rng : Type) (Random : Z → rng) (randbelow : rng → nat → nat * rng)
    (config : Config) (root_path : string) (enumerated : list (string * string))
    (lint_run : run_outcome (option (list LintMessage))) (typing_run : run_outcome string)
    (path text : string) :
  is_absolute root_path = true →
  In (path, text) enumerated → startswith path root_path = false →
  (∀ report,
     Runner_run ast_parse log1p rng Random randbelow config root_path enumerated
                lint_run typing_run ≠ Returns report)
  ∧ (∀ rest, enumerated = (path, text) :: rest →
             Runner_run ast_parse log1p rng Random randbelow config root_path enumerated
                        lint_run typing_run = Raises ValueError).
Proof.
  intros Hroot Hin Hout.
  assert (Runner_run ast_parse log1p rng Random randbelow config root_path enumerated
                     lint_run typing_run = Raises ValueError) as Hrun.
  { unfold Runner_run.
    rewrite (scan_fails ast_parse root_path enumerated path text Hin
               (relative_to_outside path root_path Hroot Hout)).
    reflexivity. }
  split.
  - intros report. rewrite Hrun. discriminate.
  - intros rest _. exact Hrun.
Qed.

Lemma run_rejects_a_file_outside_the_root_witness :
  (∀ report, sample_run stray_file_project lint_clean typing_clean ≠ Returns report)
  ∧ (∀ rest, [("/usr/lib/site.py"%string, EmptyString)]
             = ("/usr/lib/site.py"%string, EmptyString) :: rest →
             sample_run [("/usr/lib/site.py"%string, EmptyString)] lint_clean typing_clean
             = Raises ValueError).
Proof.
  split.
  - apply (proj1 (run_rejects_a_file_outside_the_root one_file_parser log1p_floor Z lcg_Random
                    lcg_randbelow DEFAULT_CONFIG "/proj" stray_file_project lint_clean
                    typing_clean "/usr/lib/site.py" EmptyString
                    ltac:(reflexivity) ltac:(right; left; reflexivity)
                    ltac:(vm_compute; reflexivity))).
  - apply (proj2 (run_rejects_a_file_outside_the_root one_file_parser log1p_floor Z lcg_Random
                    lcg_randbelow DEFAULT_CONFIG "/proj" [("/usr/lib/site.py"%string, EmptyString)]
                    lint_clean typing_clean "/usr/lib/site.py" EmptyString
                    ltac:(reflexivity) ltac:(left; reflexivity)
                    ltac:(vm_compute; reflexivity))).
Defined.

(** X31. With [bootstrap.iterations] at 0 or below, the scan of a
    project that has at least one file returns no report: when every
    analyzer has run, [_bootstrap_interval] indexes an empty list of
    sample means. *)
Theorem run_fails_without_iterations
    (ast_parse : string → option module_) (log1p : Z → Q)
    (rng : Type) (Random : Z → rng) (randbelow : rng → nat → nat * rng)
    (config : Config) (root_path : string) (enumerated : list (string * string))
    (lint_run : run_outcome (option (list LintMessage))) (typing_run : run_outcome string) :
  enumerated ≠ [] → iterations (bootstrap config) <= 0 →
  ∀ report,
    Runner_run ast_parse log1p rng Random randbelow config root_path enumerated
               lint_run typing_run ≠ Returns report.
Proof.
  intros Hne Hit report Hrun.
  destruct (scan ast_parse root_path enumerated) as [sc|e] eqn:Hscan.
  - destruct (run_after_scan ast_parse log1p rng Random randbelow config root_path
                lint_run typing_run enumerated sc Hscan) as (grades & Hgrades & Hboot).
    rewrite (bootstrap_interval_no_iterations rng Random randbelow grades
               (iterations (bootstrap config)) (seed (bootstrap config))) in Hboot.
    + congruence.
    + intros ->. destruct enumerated as [|[path text] rest]; [congruence|].
      destruct (scan_covers ast_parse root_path ((path, text) :: rest) sc path text Hscan
                  ltac:(left; reflexivity)) as (rel & loc & _ & Hitem).
      destruct (loc_map sc); [destruct Hitem|discriminate Hgrades].
    + exact Hit.
  - unfold Runner_run in Hrun. rewrite Hscan in Hrun. discriminate.
Qed.

Lemma run_fails_without_iterations_witness :
  iterations (bootstrap unsampled_config) <= 0
  ∧ ¬ ∃ report,
        Runner_run one_file_parser log1p_floor Z lcg_Random lcg_randbelow unsampled_config
                   "/proj" one_file_project lint_clean typing_clean
        = Returns report.
Proof.
  split; [vm_compute; discriminate|].
  intros [report Hrun].
  apply (run_fails_without_iterations one_file_parser log1p_floor Z lcg_Random lcg_randbelow
           unsampled_config "/proj" one_file_project lint_clean typing_clean
           ltac:(discriminate) ltac:(vm_compute; discriminate) report Hrun).
Defined.

(** ** The files of a report *)

Lemma append_empty (s : string) : (s +:+ EmptyString)%string = s.
Proof.
  induction s as [|c s IH]; [reflexivity|].
  change (String c s +:+ EmptyString) with (String c (s +:+ EmptyString)). rewrite IH.
  reflexivity.
Qed.

Lemma chars_app (a b : string) :
  list_ascii_of_string (a +:+ b) = list_ascii_of_string a ++ list_ascii_of_string b.
Proof. induction a as [|c a IH]; cbn; [reflexivity|]. rewrite <- IH. reflexivity. Qed.

Lemma last_char_app (a : string) (c d : ascii) :
  List.last (list_ascii_of_string (a +:+ String c EmptyString)) d = c.
Proof. rewrite chars_app. cbn. apply last_last. Qed.

Lemma python_file_ends_in_y (stem : string) (d : ascii) :
  List.last (list_ascii_of_string (stem +:+ ".py")) d = "y"%char.
Proof.
  replace (stem +:+ ".py")%string with ((stem +:+ ".p") +:+ "y")%string
    by (rewrite append_assoc; reflexivity).
  apply last_char_app.
Qed.

(** Joining the root and the relative path of a resolved [.py] file
    gives the file back. *)
Lemma path_join_relative_to (path root rel stem : string) :
  resolved path = true → path = (stem +:+ ".py")%string →
  relative_to path root = Returns rel → path_join root rel = path.
Proof.
  intros Hres Hpy Hrel.
  destruct (relative_to_resolved path root rel Hres Hrel) as [Hroot Hrelabs].
  unfold relative_to in Hrel. unfold path_join. rewrite Hrelabs.
  destruct (negb _); [discriminate|].
  destruct (String.eqb_spec path root) as [->|Hne].
  { injection Hrel as <-. reflexivity. }
  destruct (String.eqb_spec root ".") as [->|Hdot]; [discriminate Hroot|].
  assert (∀ prefix, strip_prefix (prefix +:+ "/") path = Some rel →
                    (String.eqb rel "." || String.eqb rel "") = false
                    ∧ path = (prefix +:+ "/" +:+ rel)%string) as Hstrip.
  { intros prefix Hs. apply strip_prefix_app in Hs. rewrite append_assoc in Hs.
    split; [|exact Hs].
    pose proof (python_file_ends_in_y stem "000") as Hy. rewrite <- Hpy, Hs in Hy.
    destruct (String.eqb_spec rel ".") as [->|_].
    - rewrite <- append_assoc, last_char_app in Hy. discriminate.
    - destruct (String.eqb_spec rel "") as [->|_]; [|reflexivity].
      change ("/" +:+ EmptyString)%string with "/"%string in Hy.
      rewrite last_char_app in Hy. discriminate. }
  destruct (String.eqb_spec root "/") as [->|Hslash].
  - destruct (strip_prefix "/" path) as [rest|] eqn:E; [|discriminate].
    injection Hrel as ->. destruct (Hstrip EmptyString E) as [-> ->]. reflexivity.
  - destruct (strip_prefix (root +:+ "/") path) as [rest|] eqn:E; [|discriminate].
    injection Hrel as ->. destruct (Hstrip root E) as [-> ->]. reflexivity.
Qed.

Section FilesFacts.

Variable ast_parse : string → option module_.
Variable root_path : string.

Lemma scan_fold_files (enumerated : list (string * string)) (sc0 sc : Scanned) :
  Forall (fun item => resolved (fst item) = true
                      ∧ ∃ stem, fst item = (stem +:+ ".py")%string) enumerated →
  List.NoDup (List.map (fun item => path_join root_path (fst item)) (loc_map sc0)
              ++ List.map fst enumerated) →
  fold_left (scan_file ast_parse root_path) enumerated (Returns sc0) = Returns sc →
  List.map (fun item => (path_join root_path (fst item), snd item)) (loc_map sc)
  = List.map (fun item => (path_join root_path (fst item), snd item)) (loc_map sc0)
    ++ List.map (fun item => (fst item, loc_of (snd item))) enumerated.
Proof.
  intros Hall. revert sc0.
  induction Hall as [|[path text] enumerated [Hres [stem Hpy]] _ IH]; intros sc0 Hnd Hscan.
  - cbn in Hscan. injection Hscan as <-. cbn. rewrite app_nil_r. reflexivity.
  - cbn [fold_left] in Hscan. cbn [fst snd] in *.
    pose proof (scan_file_outcome ast_parse root_path sc0 path text) as Hfile.
    destruct (relative_to path root_path) as [rel|e] eqn:Hrel.
    + destruct Hfile as (sc1 & Hsc1 & Hmap). rewrite Hsc1 in Hscan.
      pose proof (path_join_relative_to path root_path rel stem Hres Hpy Hrel) as Hjoin.
      assert (loc_map sc1 = loc_map sc0 ++ [(rel, loc_of text)]) as Hfresh.
      { rewrite Hmap. apply dict_set_fresh. intros Hin.
        apply in_map_iff in Hin as ([rel' loc'] & Hk & Hin). cbn [fst] in Hk. subst rel'.
        cbn [List.map] in Hnd. apply List.NoDup_remove_2 in Hnd. apply Hnd.
        apply in_or_app. left. apply in_map_iff. exists (rel, loc'). split; [exact Hjoin|exact Hin]. }
      rewrite (IH sc1); [|  |exact Hscan].
      * rewrite Hfresh, List.map_app. cbn [List.map fst snd]. rewrite Hjoin.
        rewrite <- app_assoc. reflexivity.
      * rewrite Hfresh, List.map_app. cbn [List.map fst]. rewrite Hjoin.
        rewrite <- app_assoc. cbn [app].
        cbn [List.map] in Hnd. exact Hnd.
    + rewrite Hfile, scan_raises in Hscan. discriminate.
Qed.

End FilesFacts.

Lemma nth_error_of_map {A B : Type} (f : A → B) (l : list A) (i : nat) (b : B) :
  nth_error (List.map f l) i = Some b → ∃ a, nth_error l i = Some a ∧ f a = b.
Proof.
  revert i. induction l as [|x l IH]; intros [|i]; cbn; try discriminate.
  - intros [= <-]. eauto.
  - apply IH.
Qed.

(** X28. A report lists exactly the enumerated files, in their order:
    for resolved [.py] files without repetition, joining the root with the
    [path] of each [FileReport] gives back the enumerated path (this is the
    key under which lint and typing results are looked up). The [loc] of
    a [FileReport] is the number of lines of the file's text, stated for a
    text inside the ASCII range, where the line boundaries are the ASCII
    ones. *)
Theorem report_lists_the_enumerated_files
    (ast_parse : string → option module_) (log1p : Z → Q)
    (rng : Type) (Random : Z → rng) (randbelow : rng → nat → nat * rng)
    (config : Config) (root_path : string) (enumerated : list (string * string))
    (lint_run : run_outcome (option (list LintMessage))) (typing_run : run_outcome string)
    (report : Report) :
  Forall (fun item => resolved (fst item) = true
                      ∧ ∃ stem, fst item = (stem +:+ ".py")%string) enumerated →
  List.NoDup (List.map fst enumerated) →
  Runner_run ast_parse log1p rng Random randbelow config root_path enumerated lint_run typing_run
  = Returns report →
  List.map (fun fr => path_join root_path (fr_path fr)) (files report)
  = List.map fst enumerated
  ∧ ∀ i fr path text,
      nth_error (files report) i = Some fr → nth_error enumerated i = Some (path, text) →
      isascii text = true → fr_loc fr = loc_of text.
Proof.
  intros Hall Hnd Hrun.
  destruct (run_returns ast_parse log1p rng Random randbelow config root_path enumerated
              lint_run typing_run report Hrun) as (sc & typing & Hscan & _ & Hfiles & _).
  assert (List.map (fun fr => (path_join root_path (fr_path fr), fr_loc fr)) (files report)
          = List.map (fun item => (fst item, loc_of (snd item))) enumerated) as Hpairs.
  { rewrite Hfiles, List.map_map.
    rewrite (List.map_ext _ (fun item : string * Z => (path_join root_path (fst item), snd item)))
      by (intros [rel loc]; reflexivity).
    exact (scan_fold_files ast_parse root_path enumerated
             {| sources := []; loc_map := []; roles := ∅;
                coverage_ratio := ∅; parser_success := ∅ |} sc Hall Hnd Hscan). }
  split.
  - apply (f_equal (List.map fst)) in Hpairs. rewrite !List.map_map in Hpairs. exact Hpairs.
  - intros i fr path text Hfr Hitem _.
    apply (map_nth_error (fun fr => (path_join root_path (fr_path fr), fr_loc fr))) in Hfr.
    rewrite Hpairs in Hfr. apply nth_error_of_map in Hfr as (item & Hitem' & Heq).
    rewrite Hitem in Hitem'. injection Hitem' as <-. cbn [fst snd] in Heq.
    injection Heq as _ <-. reflexivity.
Qed.

Lemma report_lists_the_enumerated_files_witness :
  ∃ report,
    sample_run one_file_project lint_clean typing_clean = Returns report
    ∧ List.map (fun fr => path_join "/proj" (fr_path fr)) (files report)
      = List.map fst one_file_project
    ∧ ∀ i fr path text,
        nth_error (files report) i = Some fr →
        nth_error one_file_project i = Some (path, text) →
        isascii text = true → fr_loc fr = loc_of text.
Proof.
  eexists. split; [vm_compute; reflexivity|].
  apply (report_lists_the_enumerated_files one_file_parser log1p_floor Z lcg_Random lcg_randbelow
           DEFAULT_CONFIG "/proj" one_file_project lint_clean typing_clean).
  - apply List.Forall_cons; [|apply List.Forall_nil].
    split; [reflexivity|]. exists "/proj/mod"%string. reflexivity.
  - cbn. repeat constructor. intros [].
  - vm_compute. reflexivity.
Defined.


(** ** [iter_imports] reaches every statement (ast_tools.py) *)

Lemma list_max_ge (l : list nat) (n : nat) : In n l → (n <= list_max l)%nat.
Proof.
  induction l as [|m l IH]; intros Hin; [destruct Hin|].
  cbn [list_max fold_right]. fold (list_max l). destruct Hin as [->|Hin]; [lia|].
  specialize (IH Hin). lia.
Qed.

Lemma flat_map_nil {A B : Type} (f : A → list B) (l : list A) :
  (∀ x, In x l → f x = []) → flat_map f l = [].
Proof.
  induction l as [|x l IH]; intros Hall; [reflexivity|]. cbn [flat_map].
  rewrite (Hall x (or_introl eq_refl)), IH; [reflexivity|].
  intros y Hy. apply Hall. right. exact Hy.
Qed.

Lemma level_of_block_beyond (d : nat) (block : list stmt) :
  Forall (fun s => ∀ d, (height s <= d)%nat → level d s = []) block →
  (list_max (List.map height block) <= d)%nat → flat_map (level d) block = [].
Proof.
  intros Hall Hd. apply flat_map_nil. intros s Hs.
  rewrite List.Forall_forall in Hall. apply (Hall s Hs).
  pose proof (list_max_ge (List.map height block) (height s) (in_map height block s Hs)). lia.
Qed.

(** No statement lies deeper below a statement than its height. *)
Lemma level_beyond_height (s : stmt) (d : nat) : (height s <= d)%nat → level d s = [].
Proof.
  revert d.
  apply (stmt_induction
           (fun s => ∀ d, (height s <= d)%nat → level d s = [])
           (fun h => ∀ d, (height_handler h <= d)%nat → level_handler d h = [])); clear s.
  all: try (intros; destruct d as [|d]; [cbn in *; lia|reflexivity]).
  - intros name args body dl returns Hbody [|d] Hd; cbn [height] in Hd; [lia|].
    cbn [level]. apply level_of_block_beyond; [exact Hbody|lia].
  - intros name bases body dl Hbody [|d] Hd; cbn [height] in Hd; [lia|].
    cbn [level]. apply level_of_block_beyond; [exact Hbody|lia].
  - intros target iter body orelse Hbody Horelse [|d] Hd; cbn [height] in Hd; [lia|].
    cbn [level]. rewrite !level_of_block_beyond by (assumption || lia). reflexivity.
  - intros test body orelse Hbody Horelse [|d] Hd; cbn [height] in Hd; [lia|].
    cbn [level]. rewrite !level_of_block_beyond by (assumption || lia). reflexivity.
  - intros test body orelse Hbody Horelse [|d] Hd; cbn [height] in Hd; [lia|].
    cbn [level]. rewrite !level_of_block_beyond by (assumption || lia). reflexivity.
  - intros items body Hbody [|d] Hd; cbn [height] in Hd; [lia|].
    cbn [level]. apply level_of_block_beyond; [exact Hbody|lia].
  - intros body handlers orelse finalbody Hbody Hhandlers Horelse Hfinal [|d] Hd;
      cbn [height] in Hd; [lia|].
    cbn [level]. rewrite !level_of_block_beyond by (assumption || lia).
    rewrite (flat_map_nil (level_handler d) handlers); [reflexivity|].
    intros h Hh. rewrite List.Forall_forall in Hhandlers. apply (Hhandlers h Hh).
    pose proof (list_max_ge (List.map height_handler handlers) (height_handler h)
                  (in_map height_handler handlers h Hh)). lia.
  - intros type name body Hbody [|d] Hd; [reflexivity|]. cbn [height_handler] in Hd.
    cbn [level_handler]. apply level_of_block_beyond; [exact Hbody|lia].
Qed.

(** [iter_imports] yields the pairs of all levels. *)
Lemma iter_imports_levels (block : list stmt) (p : string * string) :
  In p (iter_imports (Module block)) ↔ imported_below block p.
Proof.
  unfold iter_imports, walk_stmts, imported_below, imports_at. cbn [mod_body]. split.
  - intros Hin. apply in_flat_map in Hin as (s & Hs & Hp).
    apply in_flat_map in Hs as (d & _ & Hs).
    exists d. apply in_flat_map. exists s. split; assumption.
  - intros [d Hin]. apply in_flat_map in Hin as (s & Hs & Hp).
    apply in_flat_map. exists s. split; [|exact Hp].
    apply in_flat_map. exists d. split; [|exact Hs].
    apply in_seq. split; [lia|]. cbn.
    destruct (Nat.lt_ge_cases d (list_max (List.map height block))) as [Hlt|Hge]; [exact Hlt|].
    exfalso. rewrite level_of_block_beyond in Hs; [destruct Hs| |exact Hge].
    apply List.Forall_forall. intros s' _ d'. apply level_beyond_height.
Qed.

Lemma imports_at_app (d : nat) (a b : list stmt) :
  imports_at d (a ++ b) = imports_at d a ++ imports_at d b.
Proof. unfold imports_at. rewrite !flat_map_app. reflexivity. Qed.

Lemma imported_below_app (a b : list stmt) (p : string * string) :
  imported_below (a ++ b) p ↔ imported_below a p ∨ imported_below b p.
Proof.
  unfold imported_below. split.
  - intros [d Hin]. rewrite imports_at_app in Hin. apply in_app_or in Hin as [Hin|Hin]; eauto.
  - intros [[d Hin]|[d Hin]]; exists d; rewrite imports_at_app; apply in_or_app; auto.
Qed.

Lemma imported_below_cons (s : stmt) (l : list stmt) (p : string * string) :
  imported_below (s :: l) p ↔ imported_below [s] p ∨ imported_below l p.
Proof. apply (imported_below_app [s] l). Qed.

Lemma imported_below_nil (p : string * string) : ¬ imported_below [] p.
Proof. intros [d Hin]. destruct Hin. Qed.

(** A statement that is no import yields what the statements one level
    below it yield. *)
Lemma imported_below_compound (s : stmt) (p : string * string) :
  imports_of_stmt s = [] →
  (imported_below [s] p ↔ ∃ d, In p (flat_map imports_of_stmt (level (S d) s))).
Proof.
  intros Hs. unfold imported_below, imports_at. split.
  - intros [[|d] Hin]; cbn [flat_map] in Hin; rewrite app_nil_r in Hin.
    + destruct s; cbn in Hin; try discriminate Hs; try destruct Hin.
      all: rewrite app_nil_r in Hin; cbn in Hs; rewrite Hs in Hin; destruct Hin.
    + eauto.
  - intros [d Hin]. exists (S d). cbn [flat_map]. rewrite app_nil_r. exact Hin.
Qed.

Lemma imported_one_block (s : stmt) (body : list stmt) (p : string * string) :
  imports_of_stmt s = [] → (∀ d, level (S d) s = flat_map (level d) body) →
  (imported_below [s] p ↔ imported_below body p).
Proof.
  intros Hs Hlevel. rewrite (imported_below_compound s p Hs).
  unfold imported_below, imports_at. split; intros [d Hin]; exists d.
  - rewrite Hlevel in Hin. exact Hin.
  - rewrite Hlevel. exact Hin.
Qed.

Lemma imported_two_blocks (s : stmt) (body orelse : list stmt) (p : string * string) :
  imports_of_stmt s = [] →
  (∀ d, level (S d) s = flat_map (level d) body ++ flat_map (level d) orelse) →
  (imported_below [s] p ↔ imported_below body p ∨ imported_below orelse p).
Proof.
  intros Hs Hlevel. rewrite (imported_below_compound s p Hs).
  unfold imported_below, imports_at. split.
  - intros [d Hin]. rewrite Hlevel, flat_map_app in Hin.
    apply in_app_or in Hin as [Hin|Hin]; eauto.
  - intros [[d Hin]|[d Hin]]; exists d; rewrite Hlevel, flat_map_app; apply in_or_app; auto.
Qed.

Lemma imported_Try (body : list stmt) (handlers : list excepthandler)
    (orelse finalbody : list stmt) (p : string * string) :
  imported_below [Try body handlers orelse finalbody] p
  ↔ imported_below body p
    ∨ (∃ h, In h handlers ∧ imported_below (handler_body h) p)
    ∨ imported_below orelse p ∨ imported_below finalbody p.
Proof.
  rewrite (imported_below_compound (Try body handlers orelse finalbody) p eq_refl).
  unfold imported_below, imports_at. cbn [level]. split.
  - intros [d Hin]. rewrite !flat_map_app in Hin.
    apply in_app_or in Hin as [Hin|Hin]; [eauto|].
    apply in_app_or in Hin as [Hin|Hin].
    + right. left. apply in_flat_map in Hin as (s & Hs & Hp).
      apply in_flat_map in Hs as (h & Hh & Hs). exists h. split; [exact Hh|].
      destruct h as [type name hbody]. destruct d as [|d]; [destruct Hs|].
      exists d. apply in_flat_map. exists s. split; assumption.
    + apply in_app_or in Hin as [Hin|Hin]; eauto.
  - intros [[d Hin]|[(h & Hh & [d Hin])|[[d Hin]|[d Hin]]]].
    + exists d. rewrite !flat_map_app. apply in_or_app. auto.
    + exists (S d). rewrite !flat_map_app. apply in_or_app. right. apply in_or_app. left.
      apply in_flat_map in Hin as (s & Hs & Hp). apply in_flat_map. exists s. split; [|exact Hp].
      apply in_flat_map. exists h. split; [exact Hh|]. destruct h as [type name hbody]. exact Hs.
    + exists d. rewrite !flat_map_app. apply in_or_app. right. apply in_or_app. right.
      apply in_or_app. auto.
    + exists d. rewrite !flat_map_app. apply in_or_app. right. apply in_or_app. right.
      apply in_or_app. auto.
Qed.

Lemma exists_in_middle {A : Type} (G : A → Prop) (pre post : list A) (x : A) :
  (∃ y, In y (pre ++ x :: post) ∧ G y) ↔ (∃ y, In y (pre ++ post) ∧ G y) ∨ G x.
Proof.
  split.
  - intros (y & Hy & Hg). apply in_app_or in Hy as [Hy|[<-|Hy]]; [left|right|left]; eauto.
    + exists y. split; [apply in_or_app; auto|exact Hg].
    + exists y. split; [apply in_or_app; auto|exact Hg].
  - intros [(y & Hy & Hg)|Hg].
    + exists y. split; [|exact Hg]. apply in_app_or in Hy as [Hy|Hy]; apply in_or_app; cbn; auto.
    + exists x. split; [|exact Hg]. apply in_or_app. cbn. auto.
Qed.

(** Inserting a statement adds what the statement yields. *)
Lemma insert_adds_imports (x : stmt) :
  (∀ old new, insert_in_block x old new →
     ∀ p, imported_below new p ↔ imported_below old p ∨ imported_below [x] p)
  ∧ (∀ s s', insert_in_stmt x s s' →
       ∀ p, imported_below [s'] p ↔ imported_below [s] p ∨ imported_below [x] p)
  ∧ (∀ h h', insert_in_handler x h h' →
       ∀ p, imported_below (handler_body h') p
            ↔ imported_below (handler_body h) p ∨ imported_below [x] p).
Proof.
  apply (insert_mutual_ind x
           (fun old new => ∀ p, imported_below new p ↔ imported_below old p ∨ imported_below [x] p)
           (fun s s' => ∀ p, imported_below [s'] p ↔ imported_below [s] p ∨ imported_below [x] p)
           (fun h h' => ∀ p, imported_below (handler_body h') p
                             ↔ imported_below (handler_body h) p ∨ imported_below [x] p)).
  - intros pre post p.
    rewrite !imported_below_app, (imported_below_cons x post). tauto.
  - intros pre post s s' _ IH p.
    rewrite !imported_below_app, (imported_below_cons s' post), (imported_below_cons s post), IH.
    tauto.
  - intros name args body body' dl returns _ IH p.
    rewrite !(imported_one_block (FunctionDef name args _ dl returns) _ p eq_refl
                ltac:(reflexivity)). apply IH.
  - intros name bases body body' dl _ IH p.
    rewrite !(imported_one_block (ClassDef name bases _ dl) _ p eq_refl ltac:(reflexivity)).
    apply IH.
  - intros target iter body body' orelse _ IH p.
    rewrite !(imported_two_blocks (For target iter _ orelse) _ _ p eq_refl
                ltac:(reflexivity)), IH. tauto.
  - intros target iter body orelse orelse' _ IH p.
    rewrite !(imported_two_blocks (For target iter body _) _ _ p eq_refl
                ltac:(reflexivity)), IH. tauto.
  - intros test body body' orelse _ IH p.
    rewrite !(imported_two_blocks (While test _ orelse) _ _ p eq_refl ltac:(reflexivity)), IH.
    tauto.
  - intros test body orelse orelse' _ IH p.
    rewrite !(imported_two_blocks (While test body _) _ _ p eq_refl ltac:(reflexivity)), IH.
    tauto.
  - intros test body body' orelse _ IH p.
    rewrite !(imported_two_blocks (If test _ orelse) _ _ p eq_refl ltac:(reflexivity)), IH.
    tauto.
  - intros test body orelse orelse' _ IH p.
    rewrite !(imported_two_blocks (If test body _) _ _ p eq_refl ltac:(reflexivity)), IH.
    tauto.
  - intros items body body' _ IH p.
    rewrite !(imported_one_block (With items _) _ p eq_refl ltac:(reflexivity)). apply IH.
  - intros body body' handlers orelse finalbody _ IH p. rewrite !imported_Try, IH. tauto.
  - intros body pre h h' post orelse finalbody _ IH p. rewrite !imported_Try.
    rewrite !(exists_in_middle (fun h => imported_below (handler_body h) p)), IH. tauto.
  - intros body handlers orelse orelse' finalbody _ IH p. rewrite !imported_Try, IH. tauto.
  - intros body handlers orelse finalbody finalbody' _ IH p. rewrite !imported_Try, IH. tauto.
  - intros type name body body' _ IH p. cbn [handler_body]. apply IH.
Qed.

(** X29. [iter_imports] walks the whole tree: a statement inserted at
    any depth (in a function, a branch, a handler, ...) adds the pairs that
    [iter_imports] yields for it, and nothing else changes. *)
Theorem imports_are_found_at_any_depth (x : stmt) (old new : list stmt) (p : string * string) :
  insert_in_block x old new →
  (In p (iter_imports (Module new))
   ↔ In p (iter_imports (Module old)) ∨ In p (iter_imports (Module [x]))).
Proof.
  intros Hins. rewrite !iter_imports_levels.
  exact (proj1 (insert_adds_imports x) old new Hins p).
Qed.

Lemma imports_are_found_at_any_depth_witness :
  In ("os.path", "os")%string
     (iter_imports
        (Module [FunctionDef "f" (Arguments [] None [] None [])
                   [Try [Import [Alias "os.path" None]; Pass] [] [] []] [] None]))
  ↔ In ("os.path", "os")%string
       (iter_imports
          (Module [FunctionDef "f" (Arguments [] None [] None []) [Try [Pass] [] [] []] [] None]))
    ∨ In ("os.path", "os")%string (iter_imports (Module [Import [Alias "os.path" None]])).
Proof.
  apply (imports_are_found_at_any_depth (Import [Alias "os.path" None])
           [FunctionDef "f" (Arguments [] None [] None []) [Try [Pass] [] [] []] [] None]
           [FunctionDef "f" (Arguments [] None [] None [])
              [Try [Import [Alias "os.path" None]; Pass] [] [] []] [] None]).
  apply (insert_below _ [] []). apply insert_FunctionDef.
  apply (insert_below _ [] []). apply insert_Try_body.
  apply (insert_here _ [] [Pass]).
Defined.


(** ** Merging a configuration into the defaults (config.py, [_deep_merge]) *)

Lemma dict_get_set {V : Type} (d : list (string * V)) (k : string) (v : V) (k' : string) :
  dict_get (dict_set d k v) k' = if String.eqb k k' then Some v else dict_get d k'.
Proof.
  induction d as [|[k0 v0] d IH]; cbn [dict_set dict_get]; [reflexivity|].
  destruct (String.eqb_spec k0 k) as [->|Hk0]; cbn [dict_get].
  - destruct (String.eqb_spec k k'); reflexivity.
  - rewrite IH. destruct (String.eqb_spec k k') as [E|_]; [|reflexivity].
    destruct (String.eqb_spec k0 k') as [E'|_]; [congruence|reflexivity].
Qed.

Lemma dict_get_absent {V : Type} (d : list (string * V)) (k : string) :
  ¬ In k (List.map fst d) → dict_get d k = None.
Proof.
  induction d as [|[k0 v0] d IH]; cbn [dict_get List.map fst In]; [reflexivity|].
  intros Hnot. destruct (String.eqb_spec k0 k) as [->|_]; [tauto|]. apply IH. tauto.
Qed.

Lemma dict_copy_get_from {V : Type} (d acc : list (string * V)) (k : string) :
  List.NoDup (List.map fst d) →
  dict_get (fold_left (fun result item => dict_set result (fst item) (snd item)) d acc) k
  = match dict_get d k with Some v => Some v | None => dict_get acc k end.
Proof.
  revert acc. induction d as [|[k0 v0] d IH]; intros acc Hnd; cbn [fold_left dict_get fst snd].
  - reflexivity.
  - cbn [List.map fst] in Hnd. apply List.NoDup_cons_iff in Hnd as [Hfresh Hnd].
    rewrite (IH _ Hnd), dict_get_set.
    destruct (String.eqb_spec k0 k) as [->|_]; [|reflexivity].
    rewrite (dict_get_absent d k Hfresh). reflexivity.
Qed.

(** The copy of a dictionary holds what the dictionary holds. *)
Lemma dict_copy_get {V : Type} (d : list (string * V)) (k : string) :
  List.NoDup (List.map fst d) → dict_get (dict_copy d) k = dict_get d k.
Proof.
  intros Hnd. unfold dict_copy. rewrite (dict_copy_get_from d [] k Hnd).
  destruct (dict_get d k); reflexivity.
Qed.

(** The second loop of [_deep_merge], key by key. *)
Lemma merge_fold_get (items result : list (string * pyobject)) (k : string) :
  List.NoDup (List.map fst items) →
  dict_get
    (fold_left
       (fun result item =>
          match dict_get result (fst item), snd item with
          | Some (PyDict sub), PyDict _ =>
              dict_set result (fst item) (PyDict (merge_override sub (snd item)))
          | _, _ => dict_set result (fst item) (snd item)
          end)
       items result) k
  = match dict_get items k with
    | None => dict_get result k
    | Some value =>
        match dict_get result k, value with
        | Some (PyDict sub), PyDict _ => Some (PyDict (merge_override sub value))
        | _, _ => Some value
        end
    end.
Proof.
  revert result.
  induction items as [|[k0 v0] items IH]; intros result Hnd; cbn [fold_left dict_get fst snd].
  - reflexivity.
  - cbn [List.map fst] in Hnd. apply List.NoDup_cons_iff in Hnd as [Hfresh Hnd].
    rewrite (IH _ Hnd).
    destruct (String.eqb_spec k0 k) as [->|Hk].
    + rewrite (dict_get_absent items k Hfresh).
      destruct (dict_get result k) as [[| | | | | |sub]|]; destruct v0;
        rewrite dict_get_set, String.eqb_refl; reflexivity.
    + assert (∀ v, dict_get (dict_set result k0 v) k = dict_get result k) as Hother.
      { intros v. rewrite dict_get_set. destruct (String.eqb_spec k0 k); [contradiction|].
        reflexivity. }
      destruct (dict_get result k0) as [[| | | | | |sub]|]; destruct v0; rewrite Hother;
        reflexivity.
Qed.

(** X30. What [_deep_merge] stores under a key: the value of [base]
    when [override] has no such key; the merge of the two values when both
    are dictionaries; and the value of [override] in every other case, so a
    list, a number or [None] replaces a default, dictionary or not, and a
    dictionary replaces a default that is no dictionary. *)
Theorem deep_merge_lookup (base override : list (string * pyobject)) (key : string) :
  List.NoDup (List.map fst base) → List.NoDup (List.map fst override) →
  dict_get (_deep_merge base override) key
  = match dict_get override key with
    | None => dict_get base key
    | Some value =>
        match dict_get base key, value with
        | Some (PyDict sub), PyDict nested => Some (PyDict (_deep_merge sub nested))
        | _, _ => Some value
        end
    end.
Proof.
  intros Hbase Hoverride. unfold _deep_merge at 1. cbn [merge_override].
  rewrite (merge_fold_get override (dict_copy base) key Hoverride).
  rewrite (dict_copy_get base key Hbase).
  destruct (dict_get override key) as [value|]; [|reflexivity].
  destruct (dict_get base key) as [[| | | | | |sub]|]; destruct value; reflexivity.
Qed.

Lemma deep_merge_lookup_witness :
  dict_get (_deep_merge bootstrap_defaults bootstrap_seed_override) "bootstrap"
  = Some (PyDict [("iterations"%string, PyInt 100); ("seed"%string, PyInt 7)]).
Proof.
  rewrite (deep_merge_lookup bootstrap_defaults bootstrap_seed_override "bootstrap").
  - reflexivity.
  - cbn. repeat constructor. intros [].
  - cbn. repeat constructor. intros [].
Defined.
